(** * fuckteslacam: the dashcam watermarking component, embedded in Rocq

    The repository holds two copies of one React component: [src/App.tsx]
    and a revised copy (the unnamed second file).  Both are embedded here.
    What the two files share word for word (the filename parser, the font
    size, the frame pump, the progress timer) is defined once; where they
    differ (the format negotiation, the watermark styling, the finalization
    sequence) the definition takes the [Variant] and shows both bodies.

    Conventions.
    - A JavaScript number that is an integer in the source (time values in
      milliseconds, pixel sizes, indices) is a [Z]; a number that may carry
      a fraction (playback position in seconds, canvas coordinates, the
      progress percentage) is a rational [Q].  The arithmetic that decides
      which second a frame is stamped with, [videoStartTime + currentTime *
      1000], is done as the code does it, in doubles: each operation is
      rounded to the nearest double (module [Double]).  Canvas coordinates
      and the progress percentage are exact rationals.
    - A JavaScript string is a [string] of code units.
    - React state ([useState]) and refs ([useRef]) are the fields of one
      record [State]; every handler is a function [State -> State].
    - Browser objects the component only calls ([Date], [MediaRecorder],
      the canvas context, timers) are host parameters or small models of
      the documented behaviour the component relies on. *)

From Stdlib Require Import ZArith QArith Qround Qabs List String Ascii Bool Lia Lqa.
Import ListNotations.
Open Scope string_scope.
Open Scope Z_scope.

(* ================================================================== *)
(** ** JavaScript string primitives used by the component *)

Module JsString.

(** [s.length] *)
Definition len (s : string) : Z := Z.of_nat (String.length s).

Fixpoint lastIndexOf_from (c : ascii) (s : string) (i acc : Z) : Z :=
  match s with
  | EmptyString => acc
  | String a s' =>
      lastIndexOf_from c s' (i + 1) (if Ascii.eqb a c then i else acc)
  end.

(** [s.lastIndexOf(c)] for a one-character search string: the index of
    the last occurrence, [-1] when there is none. *)
Definition lastIndexOf (c : ascii) (s : string) : Z :=
  lastIndexOf_from c s 0 (-1).

(** Clamping of an index argument of [substring] to [0 .. s.length]. *)
Definition clamp (n : Z) (i : Z) : Z := Z.min (Z.max i 0) n.

(** [s.substring(start, end)]: both arguments are clamped to
    [0 .. s.length] and swapped when [start > end]. *)
Definition substring (s : string) (start fin : Z) : string :=
  let n := len s in
  let a := clamp n start in
  let b := clamp n fin in
  let from := Z.min a b in
  let to := Z.max a b in
  String.substring (Z.to_nat from) (Z.to_nat (to - from)) s.

(** [s.split(sep)] for a one-character separator.  The empty string
    splits to the one-element array [[""]]. *)
Fixpoint split (sep : ascii) (s : string) : list string :=
  match s with
  | EmptyString => [EmptyString]
  | String a s' =>
      if Ascii.eqb a sep then EmptyString :: split sep s'
      else match split sep s' with
           | h :: t => String a h :: t
           | [] => [String a EmptyString]
           end
  end.

(** [s.startsWith(p)] *)
Definition startsWith (p s : string) : bool := String.prefix p s.

(** [c] does not occur in [s]. *)
Fixpoint lacks (c : ascii) (s : string) : bool :=
  match s with
  | EmptyString => true
  | String a s' => negb (Ascii.eqb a c) && lacks c s'
  end.

End JsString.

(** Array indexing [a[i]] on an array of strings; out of range reads
    are [undefined] in JavaScript and are never reached by the component,
    which checks [length] first. *)
Definition at_ (a : list string) (i : nat) : string := nth i a EmptyString.

(* ================================================================== *)
(** ** Data model *)

(** The [File] the user picked: its [name] and its media [type]. *)
Record File := mkFile { name : string; type : string }.

(** An encoded segment or the finished artifact: opaque bytes and a
    media type.  [size] is the byte count. *)
Record Blob := mkBlob { blobBytes : list Byte.byte; blobType : string }.

Definition size (b : Blob) : Z := Z.of_nat (List.length (blobBytes b)).

(** [new Blob(parts, {type})]: the parts' bytes in array order. *)
Definition newBlob (parts : list Blob) (ty : string) : Blob :=
  mkBlob (List.concat (map blobBytes parts)) ty.

Record MediaRecorderOptions := mkOpt {
  mimeType : string;
  videoBitsPerSecond : option Z
}.

(** [interface MimeTypeSupport { ext: string; opt: MediaRecorderOptions }] *)
Record MimeTypeSupport := mkMime { ext : string; opt : MediaRecorderOptions }.

Definition mimeType_of (m : MimeTypeSupport) : string := mimeType (opt m).

(** [MediaRecorder.state] *)
Inductive RecordingState := inactive | recording | paused.

Record MediaRecorder := mkRecorder {
  state : RecordingState;
  recMimeType : string
}.

(** The [<video>] element, as far as the component reads or writes it.
    [duration] is [None] while it is [NaN].  [onended] is the handler
    [processVideo] installs, named by the [mimeType] it closes over. *)
Record Video := mkVideo {
  vPaused : bool;
  vEnded : bool;
  currentTime : Q;
  duration : option Q;
  videoWidth : Z;
  videoHeight : Z;
  muted : bool;
  onended : option MimeTypeSupport
}.

(** A CSS colour [rgba(r,g,b,a)]. *)
Record Rgba := rgba { red : Z; green : Z; blue : Z; alpha : Q }.

(** What the 2d context was asked to draw, in call order. *)
Inductive DrawOp :=
| ClearRect (x y w h : Q)
| DrawImage (x y w h : Q)
| FillRect (fillStyle : Rgba) (x y w h : Q)
| FillText (fillStyle : Rgba) (fontPx : Z) (text : string) (x y : Q).

(** The [<canvas>] element: its size, whether a 2d context can be had,
    and the drawing calls made on that context so far (oldest first). *)
Record Canvas := mkCanvas {
  width : Z;
  height : Z;
  ctx2d : bool;
  drawn : list DrawOp
}.

(** Callbacks handed to [setTimeout]. *)
Inductive Callback :=
| HideError                           (* displayError: setShowError(false) *)
| CollectChunks (m : MimeTypeSupport) (* finishProcessing: build the Blob *).

(** Calls on host objects and published values, recorded in the order
    the component makes them (oldest first). *)
Inductive Effect :=
| VideoPause              (* video.pause() *)
| VideoPlay               (* video.play() *)
| RecorderStart (ms : Z)  (* recorder.start(ms) *)
| RecorderStop            (* recorder.stop() *)
| SampleProgress          (* reading video.currentTime / video.duration *)
| SetProgress (p : Q)     (* setProgress(p) *)
| SetTimeout (cb : Callback) (ms : Z)
| SetInterval (ms : Z)
| ClearInterval
| RequestAnimationFrame
| CreateBlob (parts : nat) (* new Blob(allChunks.current, ...) *)
| Display (message : string).

Record State := mkState {
  (* useState *)
  file : option File;
  videoStartTime : Z;
  vidName : string;
  videoURL : option Blob;
  isProcessing : bool;
  fontSize : Z;
  progress : Q;
  error : string;
  showError : bool;
  (* useRef *)
  canvasRef : option Canvas;
  videoRef : option Video;
  recorderRef : option MediaRecorder;
  allChunks : list Blob;
  (* locals of processVideo that its callbacks close over *)
  videoCompleted : bool;
  updateInterval : bool;
  (* host: pending timeouts, and the record of effects *)
  timers : list (Callback * Z);
  log : list Effect
}.

(** The state of a freshly mounted component. *)
Definition initial (c : Canvas) (v : Video) : State :=
  mkState None 0 "" None false 16 0 "" false
          (Some c) (Some v) None [] false false [] [].

(** Field updates, [setX v s] or [putX v s]: the state [s] with one
    field replaced.  The [set] ones are React setters, the [put] ones
    assignments to a ref or a captured local. *)
Definition setFile v (s : State) : State :=
  mkState v (videoStartTime s) (vidName s) (videoURL s) (isProcessing s)
    (fontSize s) (progress s) (error s) (showError s) (canvasRef s)
    (videoRef s) (recorderRef s) (allChunks s) (videoCompleted s)
    (updateInterval s) (timers s) (log s).

Definition setVideoStartTime v (s : State) : State :=
  mkState (file s) v (vidName s) (videoURL s) (isProcessing s) (fontSize s)
    (progress s) (error s) (showError s) (canvasRef s) (videoRef s)
    (recorderRef s) (allChunks s) (videoCompleted s) (updateInterval s)
    (timers s) (log s).

Definition setVidName v (s : State) : State :=
  mkState (file s) (videoStartTime s) v (videoURL s) (isProcessing s)
    (fontSize s) (progress s) (error s) (showError s) (canvasRef s)
    (videoRef s) (recorderRef s) (allChunks s) (videoCompleted s)
    (updateInterval s) (timers s) (log s).

Definition setVideoURL v (s : State) : State :=
  mkState (file s) (videoStartTime s) (vidName s) v (isProcessing s)
    (fontSize s) (progress s) (error s) (showError s) (canvasRef s)
    (videoRef s) (recorderRef s) (allChunks s) (videoCompleted s)
    (updateInterval s) (timers s) (log s).

Definition setIsProcessing v (s : State) : State :=
  mkState (file s) (videoStartTime s) (vidName s) (videoURL s) v (fontSize s)
    (progress s) (error s) (showError s) (canvasRef s) (videoRef s)
    (recorderRef s) (allChunks s) (videoCompleted s) (updateInterval s)
    (timers s) (log s).

Definition setFontSize v (s : State) : State :=
  mkState (file s) (videoStartTime s) (vidName s) (videoURL s)
    (isProcessing s) v (progress s) (error s) (showError s) (canvasRef s)
    (videoRef s) (recorderRef s) (allChunks s) (videoCompleted s)
    (updateInterval s) (timers s) (log s).

Definition writeProgress v (s : State) : State :=
  mkState (file s) (videoStartTime s) (vidName s) (videoURL s)
    (isProcessing s) (fontSize s) v (error s) (showError s) (canvasRef s)
    (videoRef s) (recorderRef s) (allChunks s) (videoCompleted s)
    (updateInterval s) (timers s) (log s).

Definition setError v (s : State) : State :=
  mkState (file s) (videoStartTime s) (vidName s) (videoURL s)
    (isProcessing s) (fontSize s) (progress s) v (showError s) (canvasRef s)
    (videoRef s) (recorderRef s) (allChunks s) (videoCompleted s)
    (updateInterval s) (timers s) (log s).

Definition setShowError v (s : State) : State :=
  mkState (file s) (videoStartTime s) (vidName s) (videoURL s)
    (isProcessing s) (fontSize s) (progress s) (error s) v (canvasRef s)
    (videoRef s) (recorderRef s) (allChunks s) (videoCompleted s)
    (updateInterval s) (timers s) (log s).

Definition putCanvas v (s : State) : State :=
  mkState (file s) (videoStartTime s) (vidName s) (videoURL s)
    (isProcessing s) (fontSize s) (progress s) (error s) (showError s) v
    (videoRef s) (recorderRef s) (allChunks s) (videoCompleted s)
    (updateInterval s) (timers s) (log s).

Definition putVideo v (s : State) : State :=
  mkState (file s) (videoStartTime s) (vidName s) (videoURL s)
    (isProcessing s) (fontSize s) (progress s) (error s) (showError s)
    (canvasRef s) v (recorderRef s) (allChunks s) (videoCompleted s)
    (updateInterval s) (timers s) (log s).

Definition putRecorder v (s : State) : State :=
  mkState (file s) (videoStartTime s) (vidName s) (videoURL s)
    (isProcessing s) (fontSize s) (progress s) (error s) (showError s)
    (canvasRef s) (videoRef s) v (allChunks s) (videoCompleted s)
    (updateInterval s) (timers s) (log s).

Definition putAllChunks v (s : State) : State :=
  mkState (file s) (videoStartTime s) (vidName s) (videoURL s)
    (isProcessing s) (fontSize s) (progress s) (error s) (showError s)
    (canvasRef s) (videoRef s) (recorderRef s) v (videoCompleted s)
    (updateInterval s) (timers s) (log s).

Definition putVideoCompleted v (s : State) : State :=
  mkState (file s) (videoStartTime s) (vidName s) (videoURL s)
    (isProcessing s) (fontSize s) (progress s) (error s) (showError s)
    (canvasRef s) (videoRef s) (recorderRef s) (allChunks s) v
    (updateInterval s) (timers s) (log s).

Definition putUpdateInterval v (s : State) : State :=
  mkState (file s) (videoStartTime s) (vidName s) (videoURL s)
    (isProcessing s) (fontSize s) (progress s) (error s) (showError s)
    (canvasRef s) (videoRef s) (recorderRef s) (allChunks s)
    (videoCompleted s) v (timers s) (log s).

Definition putTimers v (s : State) : State :=
  mkState (file s) (videoStartTime s) (vidName s) (videoURL s)
    (isProcessing s) (fontSize s) (progress s) (error s) (showError s)
    (canvasRef s) (videoRef s) (recorderRef s) (allChunks s)
    (videoCompleted s) (updateInterval s) v (log s).

Definition putLog v (s : State) : State :=
  mkState (file s) (videoStartTime s) (vidName s) (videoURL s)
    (isProcessing s) (fontSize s) (progress s) (error s) (showError s)
    (canvasRef s) (videoRef s) (recorderRef s) (allChunks s)
    (videoCompleted s) (updateInterval s) (timers s) v.

(** Append one effect to the record. *)
Definition emit (e : Effect) (s : State) : State := putLog (log s ++ [e]) s.

(** [setProgress(p)]: the published progress value. *)
Definition setProgress (p : Q) (s : State) : State :=
  emit (SetProgress p) (writeProgress p s).

(** [setTimeout(cb, ms)] *)
Definition setTimeout (cb : Callback) (ms : Z) (s : State) : State :=
  emit (SetTimeout cb ms) (putTimers (timers s ++ [(cb, ms)]) s).

(** Statement sequencing: [s |> f |> g] runs [f] and then [g]. *)
Notation "s |> f" := (f s) (at level 45, left associativity, only parsing).

(* ================================================================== *)
(** ** The host *)

(** What the browser decides and the component only observes. *)
Record Host := mkHost {
  (** [new Date(str).getTime()]; [None] stands for [NaN]. *)
  Date_parse : string -> option Z;
  (** [new Date().getTime()] at the moment of the call. *)
  Date_now : Z;
  (** ECMAScript's [LocalTZA(t, isUTC)]: the offset of local time from
      UTC in milliseconds, at the UTC instant [t] when [isUTC] holds and at
      the local time [t] otherwise.  It varies with [t] where the zone
      observes daylight saving. *)
  LocalTZA : Z -> bool -> Z;
  (** [ctx.measureText(text).width] at font size [px]. *)
  measureText : Z -> string -> Q;
  (** [MediaRecorder.isTypeSupported(type)] *)
  isTypeSupported : string -> bool;
  (** Whether [MediaRecorder.stop()] on an inactive recorder throws
      [InvalidStateError] (earlier editions of MediaStream Recording, and
      the browsers that implement them) or returns silently (the current
      edition). *)
  stopThrowsWhenInactive : bool
}.

(* ------------------------------------------------------------------ *)
(** *** Time values (ECMAScript, section "Time Values and Time Range") *)

Module Time.

Definition msPerSecond : Z := 1000.
Definition msPerMinute : Z := 60000.
Definition msPerHour : Z := 3600000.
Definition msPerDay : Z := 86400000.

Definition Day (t : Z) : Z := t / msPerDay.
Definition TimeWithinDay (t : Z) : Z := t mod msPerDay.
Definition HourFromTime (t : Z) : Z := (t / msPerHour) mod 24.
Definition MinFromTime (t : Z) : Z := (t / msPerMinute) mod 60.
Definition SecFromTime (t : Z) : Z := (t / msPerSecond) mod 60.

(** Day number (days since 1970-01-01) of day [d] of month [mp] of the
    year [y'] that starts on the first of March: [mp] is 0 for March and
    11 for February. *)
Definition days_from_shifted (y' mp d : Z) : Z :=
  let era := y' / 400 in
  let yoe := y' - era * 400 in
  let doy := (153 * mp + 2) / 5 + d - 1 in
  let doe := yoe * 365 + yoe / 4 - yoe / 100 + doy in
  era * 146097 + doe - 719468.

(** Day number of a proleptic Gregorian date; [m] counts from 1. *)
Definition days_from_civil (y m d : Z) : Z :=
  days_from_shifted (if m <=? 2 then y - 1 else y)
                    (if 2 <? m then m - 3 else m + 9) d.

(** The inverse: year, month (from 1) and day of month of a day number. *)
Definition civil_from_days (z : Z) : Z * Z * Z :=
  let z' := z + 719468 in
  let era := z' / 146097 in
  let doe := z' - era * 146097 in
  let yoe := (doe - doe / 1460 + doe / 36524 - doe / 146096) / 365 in
  let doy := doe - (365 * yoe + yoe / 4 - yoe / 100) in
  let mp := (5 * doy + 2) / 153 in
  let d := doy - (153 * mp + 2) / 5 + 1 in
  let m := if mp <? 10 then mp + 3 else mp - 9 in
  let y := yoe + era * 400 in
  (if m <=? 2 then y + 1 else y, m, d).

Definition YearFromTime (t : Z) : Z := fst (fst (civil_from_days (Day t))).
(** As [getMonth()]: January is 0. *)
Definition MonthFromTime (t : Z) : Z := snd (fst (civil_from_days (Day t))) - 1.
Definition DateFromTime (t : Z) : Z := snd (civil_from_days (Day t)).

Definition MakeTime (hour min sec ms : Z) : Z :=
  hour * msPerHour + min * msPerMinute + sec * msPerSecond + ms.
(** [month] counts from 0, as in ECMAScript. *)
Definition MakeDay (year month date : Z) : Z :=
  days_from_civil year (month + 1) date.
Definition MakeDate (day time : Z) : Z := day * msPerDay + time.

Definition isLeap (y : Z) : bool :=
  ((y mod 4 =? 0) && negb (y mod 100 =? 0)) || (y mod 400 =? 0).

Definition DaysInMonth (y m : Z) : Z :=
  if m =? 2 then (if isLeap y then 29 else 28)
  else if (m =? 4) || (m =? 6) || (m =? 9) || (m =? 11) then 30
  else 31.

(** The largest magnitude of a time value. *)
Definition maxTime : Z := 8640000000000000.

(** [ToIntegerOrInfinity] on a finite number: truncation toward zero. *)
Definition truncate (q : Q) : Z := Z.quot (Qnum q) (Zpos (Qden q)).

(** [TimeClip]: [None] is [NaN]. *)
Definition TimeClip (q : Q) : option Z :=
  let t := truncate q in
  if Qle_bool (Qabs q) (inject_Z maxTime) then Some t else None.

Section Zone.
Variable tza : Z -> bool -> Z.

Definition LocalTime (t : Z) : Z := t + tza t true.
Definition UTC (t : Z) : Z := t - tza t false.

(** The time value of the local date and time [Y-M-D h:m:s],
    [M] counting from 1. *)
Definition localInstant (Y M D h m s : Z) : Z :=
  UTC (MakeDate (MakeDay Y (M - 1) D) (MakeTime h m s 0)).
End Zone.

End Time.

(* ------------------------------------------------------------------ *)
(** *** Double arithmetic (IEEE 754 binary64, round to nearest, ties to even) *)

(** A double is modelled by the rational it denotes.  Overflow to
    [Infinity] is not modelled: a result beyond the largest double stays a
    large number, and [new Date] makes an invalid date of either. *)
Module Double.

(** [2 ^ e] as a rational, for any integer [e]. *)
Definition pow2 (e : Z) : Q :=
  inject_Z (2 ^ Z.max e 0) / inject_Z (2 ^ Z.max (- e) 0).

(** The integer [k] with [2 ^ k <= q < 2 ^ (k + 1)], for a positive [q]. *)
Definition ilog2 (q : Q) : Z :=
  if Qle_bool 1 q then Z.log2 (Qfloor q) else - Z.log2_up (Qceiling (/ q)).

(** The nearest integer, ties to the even one. *)
Definition nearestEven (q : Q) : Z :=
  let f := Qfloor q in
  match (q - inject_Z f ?= 1 # 2)%Q with
  | Lt => f
  | Gt => f + 1
  | Eq => if Z.even f then f else f + 1
  end.

(** The exponent of the unit in the last place of the doubles around
    [q]: 53 significant bits, and no exponent below that of the
    subnormal numbers. *)
Definition ulpExponent (q : Q) : Z := Z.max (ilog2 (Qabs q) - 52) (-1074).

(** The double nearest to the real number [q], ties to even. *)
Definition round (q : Q) : Q :=
  let e := ulpExponent q in
  let r := (inject_Z (nearestEven (Qabs q / pow2 e)) * pow2 e)%Q in
  if Qle_bool 0 q then r else (- r)%Q.

(** [a + b] and [a * b] on doubles: the exact result, rounded. *)
Definition add (a b : Q) : Q := round (a + b).
Definition mul (a b : Q) : Q := round (a * b).

End Double.

(** A [Date] object: its time value, or [None] for an invalid date. *)
Definition JsDate := option Z.

(** [new Date(value)] for a numeric [value]. *)
Definition newDate (value : Q) : JsDate := Time.TimeClip value.

(* ------------------------------------------------------------------ *)
(** *** dayjs: formatting with the template [YYYY-MM-DD HH:mm:ss] *)

Module Dayjs.

(** The character of the decimal digit [d]. *)
Definition digitChar (d : Z) : ascii := ascii_of_nat (48 + Z.to_nat d).

(** The decimal digits of a natural number, most significant first; the
    recursion is bounded by [fuel], which [toString] sets to the number
    of binary digits. *)
Fixpoint decimal (fuel : nat) (n : Z) : string :=
  match fuel with
  | O => EmptyString
  | S f =>
      (if n <? 10 then EmptyString else decimal f (n / 10))
        ++ String (digitChar (n mod 10)) EmptyString
  end.

(** [String(n)] for an integer. *)
Definition toString (n : Z) : string :=
  if n <? 0 then String "-" (decimal (S (Z.to_nat (Z.log2 (- n)))) (- n))
  else decimal (S (Z.to_nat (Z.log2 n))) n.

Fixpoint zeros (k : nat) : string :=
  match k with O => EmptyString | S k' => String "0" (zeros k') end.

(** dayjs's own [padStart(n, length, '0')]: the decimal text of [n],
    left-padded with zeros when it is shorter than [length]. *)
Definition padStart (n : Z) (length : nat) : string :=
  let s := toString n in
  if (length <=? String.length s)%nat then s
  else zeros (length - String.length s) ++ s.

(** [dayjs(d).format("YYYY-MM-DD HH:mm:ss")] in the zone with the
    offsets [tza]; an invalid date formats as dayjs's [Invalid Date]. *)
Definition format (tza : Z -> bool -> Z) (d : JsDate) : string :=
  match d with
  | None => "Invalid Date"
  | Some t =>
      let l := Time.LocalTime tza t in
      padStart (Time.YearFromTime l) 4 ++ "-" ++
      padStart (Time.MonthFromTime l + 1) 2 ++ "-" ++
      padStart (Time.DateFromTime l) 2 ++ " " ++
      padStart (Time.HourFromTime l) 2 ++ ":" ++
      padStart (Time.MinFromTime l) 2 ++ ":" ++
      padStart (Time.SecFromTime l) 2
  end.

End Dayjs.

(* ------------------------------------------------------------------ *)
(** *** A reference host *)

(** Decimal digits and their value. *)
Definition isDigit (c : ascii) : bool :=
  let n := nat_of_ascii c in ((48 <=? n) && (n <=? 57))%nat.

Fixpoint allDigits (s : string) : bool :=
  match s with
  | EmptyString => true
  | String c s' => isDigit c && allDigits s'
  end.

Definition numeric (s : string) : bool :=
  negb (String.eqb s EmptyString) && allDigits s.

Fixpoint num_from (acc : Z) (s : string) : Z :=
  match s with
  | EmptyString => acc
  | String c s' => num_from (10 * acc + (Z.of_nat (nat_of_ascii c) - 48)) s'
  end.

Definition num (s : string) : Z := num_from 0 s.

(** Whether numeric fields name an existing date and time of day. *)
Definition validCivil (Y M D h m s : Z) : bool :=
  (1 <=? M) && (M <=? 12) && (1 <=? D) && (D <=? Time.DaysInMonth Y M) &&
  (h <? 24) && (m <? 60) && (s <? 60).

(** [new Date(str).getTime()] on a host that reads [Y-M-D h:m:s] as
    local time in the zone with the offsets [tza].  ECMAScript leaves this format to the
    implementation; this is the reading the component relies on (it is
    what Chromium does).  Texts outside the format, and dates that do not
    exist, are rejected here; no statement below depends on what a real
    engine makes of those. *)
Definition localDateParse (tza : Z -> bool -> Z) (str : string) : option Z :=
  match JsString.split " " str with
  | [d; t] =>
      match JsString.split "-" d, JsString.split ":" t with
      | [y; mo; dd], [hh; mi; ss] =>
          if numeric y && numeric mo && numeric dd &&
             numeric hh && numeric mi && numeric ss &&
             validCivil (num y) (num mo) (num dd) (num hh) (num mi) (num ss)
          then Some (Time.localInstant tza (num y) (num mo) (num dd)
                                       (num hh) (num mi) (num ss))
          else None
      | _, _ => None
      end
  | _ => None
  end.

(** A monospace text measure: [0.6 * px] per code unit. *)
Definition monoMeasure (px : Z) (text : string) : Q :=
  (6 # 10) * inject_Z px * inject_Z (JsString.len text).

(** A zone without daylight saving: one offset at all times. *)
Definition fixedZone (offset : Z) : Z -> bool -> Z := fun _ _ => offset.

(** A zone with one transition: the offset is [before] until the UTC
    instant [transition] and [after] from then on.  A local time that the
    transition skips or repeats is read with the offset before the
    transition, as ECMAScript has it. *)
Definition shiftingZone (transition before after : Z) : Z -> bool -> Z :=
  fun t isUTC =>
    if isUTC then (if t <? transition then before else after)
    else (if t <? transition + Z.max before after then before else after).

(** A host in the zone with the offsets [zone], with the clock reading
    [now] and every recording format supported. *)
Definition zonedHost (zone : Z -> bool -> Z) (now : Z) (legacyStop : bool)
  : Host :=
  mkHost (localDateParse zone) now zone monoMeasure (fun _ => true) legacyStop.

(** The reference host: local time at the fixed offset [tza]. *)
Definition refHost (tza now : Z) (legacyStop : bool) : Host :=
  zonedHost (fixedZone tza) now legacyStop.

(* ================================================================== *)
(** ** The component *)

(** The two copies of the component. *)
Inductive Variant :=
| AppTsx   (* src/App.tsx *)
| Revised  (* the second, revised copy *).

(** The result of a block that may [throw new Error(message)]. *)
Inductive Outcome (A : Type) :=
| Return (a : A)
| Throw (message : string).
Arguments Return {A} a.
Arguments Throw {A} message.

(** [Math.round]: the nearest integer, halves rounded up. *)
Definition Math_round (q : Q) : Z := Qfloor (q + (1 # 2)).

(** Truthiness of a number that may be [NaN]. *)
Definition truthy (d : option Q) : bool :=
  match d with
  | Some q => negb (Qeq_bool q 0)
  | None => false
  end.

(** [ctx.f(...)]: one more call on the canvas context. *)
Definition draw (ops : list DrawOp) (s : State) : State :=
  match canvasRef s with
  | Some c =>
      putCanvas (Some (mkCanvas (width c) (height c) (ctx2d c) (drawn c ++ ops))) s
  | None => s
  end.

Section Component.

Variable host : Host.

(** [displayError]: show the message, hide it again after 5 s. *)
Definition displayError (message : string) (s : State) : State :=
  s |> setError message
    |> setShowError true
    |> emit (Display message)
    |> setTimeout HideError 5000.

(** The [try] block of [parseTimeFromFilename]. *)
Definition parseTimeFromFilename_try (filename : string) : Outcome Z :=
  let filenameWithoutExt :=
    JsString.substring filename 0 (JsString.lastIndexOf "." filename) in
  let parts := JsString.split "_" filenameWithoutExt in
  if (List.length parts <? 2)%nat then
    Throw "文件名格式不正确"
  else
    let datePart := at_ parts 0 in
    let timeParts := JsString.split "-" (at_ parts 1) in
    if (List.length timeParts <? 3)%nat then
      Throw "文件名中的时间格式不正确"
    else
      let dateStr :=
        datePart ++ " " ++ at_ timeParts 0 ++ ":" ++ at_ timeParts 1
                 ++ ":" ++ at_ timeParts 2 in
      match Date_parse host dateStr with
      | None => Throw "无法解析文件名中的时间信息"
      | Some timestamp => Return timestamp
      end.

(** [parseTimeFromFilename]: the time value and the state after it. *)
Definition parseTimeFromFilename (filename : string) (s : State) : Z * State :=
  match parseTimeFromFilename_try filename with
  | Return timestamp => (timestamp, s)
  | Throw message =>
      (Date_now host, displayError ("时间解析错误: " ++ message) s)
  end.

(** [handleFileUpload], on the files of the change event.  Handing the
    file to the video element ([src], [load()]) is the host's business;
    what comes of it is the "loadedmetadata" event below. *)
Definition handleFileUpload (files : list File) (s : State) : State :=
  match files with
  | [] => s
  | uploadedFile :: _ =>
      if negb (JsString.startsWith "video/" (type uploadedFile)) then
        displayError "请上传视频文件" s
      else
        let name' :=
          JsString.substring (name uploadedFile) 0
            (JsString.lastIndexOf "." (name uploadedFile)) in
        let (startTime, s1) := parseTimeFromFilename (name uploadedFile) s in
        s1 |> setFile (Some uploadedFile)
           |> setVidName name'
           |> setVideoStartTime startTime
  end.

(** The font size [handleMetadataLoaded] derives from the canvas width. *)
Definition newFontSize (canvasWidth : Z) : Z :=
  Z.max 16 (Math_round (inject_Z canvasWidth / 30)).

(** [handleMetadataLoaded]: size the canvas to the video, fix the font size. *)
Definition handleMetadataLoaded (s : State) : State :=
  match videoRef s, canvasRef s with
  | Some video, Some canvas =>
      let canvas' :=
        mkCanvas (videoWidth video) (videoHeight video) (ctx2d canvas) (drawn canvas) in
      s |> putCanvas (Some canvas')
        |> setFontSize (newFontSize (width canvas'))
  | _, _ => s
  end.

(** [checkMimeTypeSupport] *)
Definition checkMimeTypeSupport (v : Variant) (s : State)
  : option MimeTypeSupport * State :=
  match v with
  | AppTsx =>
      if isTypeSupported host "video/mp4" then
        (Some (mkMime "mp4" (mkOpt "video/mp4" (Some 10000000))), s)
      else if isTypeSupported host "video/webm; codecs=vp9" then
        (Some (mkMime "webm" (mkOpt "video/webm; codecs=vp9" None)), s)
      else if isTypeSupported host "video/webm" then
        (Some (mkMime "webm" (mkOpt "video/webm" None)), s)
      else (None, displayError "换chrome吧, 求求你了!" s)
  | Revised =>
      if isTypeSupported host "video/mp4" then
        (Some (mkMime "mp4" (mkOpt "video/mp4; codecs=avc1" (Some 10000000))), s)
      else if isTypeSupported host "video/webm; codecs=vp9" then
        (Some (mkMime "webm" (mkOpt "video/webm; codecs=vp9" (Some 10000000))), s)
      else if isTypeSupported host "video/webm; codecs=vp8" then
        (Some (mkMime "webm" (mkOpt "video/webm; codecs=vp8" (Some 10000000))), s)
      else if isTypeSupported host "video/webm" then
        (Some (mkMime "webm" (mkOpt "video/webm" (Some 10000000))), s)
      else (None, displayError "当前浏览器不支持视频录制，请使用Chrome浏览器" s)
  end.

(** [drawWatermark].  The font set on the context is the font size
    carried by the text. *)
Definition drawWatermark (v : Variant) (text : string) (s : State) : State :=
  match canvasRef s, videoRef s with
  | Some canvas, Some _ =>
      if ctx2d canvas then
        let textWidth := measureText host (fontSize s) text in
        let padding := (inject_Z (width canvas) / 50)%Q in
        let textX := (inject_Z (width canvas) - textWidth - padding)%Q in
        let textY := (inject_Z (height canvas) - padding)%Q in
        match v with
        | AppTsx =>
            s |> draw [FillText (rgba 255 255 255 (1 # 2)) (fontSize s)
                                text textX textY]
        | Revised =>
            s |> draw [FillRect (rgba 0 0 0 (1 # 2))
                                (textX - padding / 2)
                                (textY - inject_Z (fontSize s))
                                (textWidth + padding)
                                (inject_Z (fontSize s) + padding / 2)]
              |> draw [FillText (rgba 255 255 255 (9 # 10)) (fontSize s)
                                text textX textY]
        end
      else s
  | _, _ => s
  end.

(** The text [renderFrames] stamps on a frame shown at playback
    position [position] (seconds). *)
Definition currentTimeText (start : Z) (position : Q) : string :=
  let currentDate :=
    newDate (Double.add (inject_Z start) (Double.mul position 1000)) in
  Dayjs.format (LocalTZA host) currentDate.

(** [renderFrames]: composite one frame and re-arm while playing. *)
Definition renderFrames (v : Variant) (s : State) : State :=
  match canvasRef s, videoRef s with
  | Some canvas, Some video =>
      if ctx2d canvas then
        let playing := negb (vPaused video) && negb (vEnded video) in
        let W := inject_Z (width canvas) in
        let H := inject_Z (height canvas) in
        let s1 :=
          if playing then
            s |> draw [ClearRect 0 0 W H]
              |> draw [DrawImage 0 0 W H]
              |> drawWatermark v
                   (currentTimeText (videoStartTime s) (currentTime video))
          else s in
        if playing then emit RequestAnimationFrame s1 else s1
      else s
  | _, _ => s
  end.

(* ---------------------------------------------------------------- *)
(** *** Capture and finalization *)

(** [video.pause()] *)
Definition pause (video : Video) : Video :=
  mkVideo true (vEnded video) (currentTime video) (duration video)
          (videoWidth video) (videoHeight video) (muted video) (onended video).

(** [recorder.stop()], as the host specifies it: an active recorder
    becomes inactive (its buffered data arrives later, as one more
    [dataavailable] event); on an inactive one the call either throws
    or does nothing, as the host has it. *)
Definition MediaRecorder_stop (r : MediaRecorder) : Outcome MediaRecorder :=
  match state r with
  | inactive =>
      if stopThrowsWhenInactive host
      then Throw "InvalidStateError"
      else Return r
  | _ => Return (mkRecorder inactive (recMimeType r))
  end.

(** [recorder.start(timeslice)]: the recorder records, and hands over
    what it gathered every [timeslice] milliseconds. *)
Definition MediaRecorder_start (r : MediaRecorder) : MediaRecorder :=
  mkRecorder recording (recMimeType r).

(** The handler [recorder.ondataavailable]. *)
Definition ondataavailable (data : Blob) (s : State) : State :=
  if 0 <? size data then putAllChunks (allChunks s ++ [data]) s else s.

(** The [try] block of [finishProcessing]: the state reached, and
    whether it completed or threw on the way. *)
Definition finishProcessing_try (v : Variant) (mimeType : MimeTypeSupport)
           (s : State) : State * Outcome unit :=
  match v with
  | AppTsx =>
      (* video?.pause(); *)
      let s1 :=
        match videoRef s with
        | Some video => s |> putVideo (Some (pause video)) |> emit VideoPause
        | None => s
        end in
      (* recorderRef.current?.stop(); *)
      let stopped :=
        match recorderRef s1 with
        | Some r =>
            match MediaRecorder_stop r with
            | Return r' =>
                (s1 |> emit RecorderStop |> putRecorder (Some r'), Return tt)
            | Throw m => (emit RecorderStop s1, Throw m)
            end
        | None => (s1, Return tt)
        end in
      match stopped with
      | (s2, Return _) =>
          (s2 |> setProgress 100
              |> setTimeout (CollectChunks mimeType) 1000, Return tt)
      | (s2, Throw m) => (s2, Throw m)
      end
  | Revised =>
      (* if (recorderRef.current && recorderRef.current.state !== "inactive") *)
      let stopped :=
        match recorderRef s with
        | Some r =>
            match state r with
            | inactive => (s, Return tt)
            | _ =>
                match MediaRecorder_stop r with
                | Return r' =>
                    (s |> emit RecorderStop |> putRecorder (Some r'), Return tt)
                | Throw m => (emit RecorderStop s, Throw m)
                end
            end
        | None => (s, Return tt)
        end in
      match stopped with
      | (s1, Return _) =>
          (* if (video) video.pause(); *)
          let s2 :=
            match videoRef s1 with
            | Some video => s1 |> putVideo (Some (pause video)) |> emit VideoPause
            | None => s1
            end in
          (s2 |> setProgress 100
              |> setTimeout (CollectChunks mimeType) 1000, Return tt)
      | (s1, Throw m) => (s1, Throw m)
      end
  end.

(** [finishProcessing] *)
Definition finishProcessing (v : Variant) (mimeType : MimeTypeSupport)
           (s : State) : State :=
  match finishProcessing_try v mimeType s with
  | (s', Return _) => s'
  | (s', Throw message) =>
      s' |> displayError ("处理结束时出错: " ++ message)
         |> setIsProcessing false
  end.

(** The callback [finishProcessing] hands to [setTimeout]: build the
    final Blob from the collected chunks and publish it.  [videoURL] holds
    the Blob its object URL stands for; [new Blob] and
    [URL.createObjectURL] are taken not to throw. *)
Definition collectChunks (v : Variant) (mimeType : MimeTypeSupport)
           (s : State) : State :=
  match v with
  | AppTsx =>
      let blob := newBlob (allChunks s) ("video/" ++ ext mimeType) in
      s |> emit (CreateBlob (List.length (allChunks s)))
        |> setVideoURL (Some blob)
        |> setIsProcessing false
  | Revised =>
      if (List.length (allChunks s) =? 0)%nat then
        s |> displayError "没有收集到视频数据"
          |> setIsProcessing false
      else
        let ty :=
          match recorderRef s with
          | Some r =>
              if String.eqb (recMimeType r) "" then "video/" ++ ext mimeType
              else recMimeType r
          | None => "video/" ++ ext mimeType
          end in
        let blob := newBlob (allChunks s) ty in
        s |> emit (CreateBlob (List.length (allChunks s)))
          |> setVideoURL (Some blob)
          |> setIsProcessing false
  end.

(** The handler [video.onended] installed by [processVideo]. *)
Definition onended_handler (v : Variant) (mimeType : MimeTypeSupport)
           (s : State) : State :=
  s |> putVideoCompleted true |> finishProcessing v mimeType.

(** The callback of the 200 ms [setInterval] in [processVideo]. *)
Definition updateProgress (s : State) : State :=
  match videoRef s with
  | Some video =>
      let s1 :=
        match duration video with
        | Some d =>
            if truthy (Some d) then
              let currentProgress := (currentTime video / d * 100)%Q in
              s |> emit SampleProgress |> setProgress currentProgress
            else s
        | None => s
        end in
      if videoCompleted s1 then
        s1 |> putUpdateInterval false |> emit ClearInterval
      else s1
  | None => s
  end.

(** [processVideo].  [playResult] is how the host settles
    [video.play()]: [Return tt] when playback starts, [Throw m] when the
    promise rejects with [Error(m)]. *)
Definition processVideo (v : Variant) (playResult : Outcome unit)
           (s : State) : State :=
  if isProcessing s then s else
  match canvasRef s, videoRef s with
  | Some canvas, Some video =>
      match checkMimeTypeSupport v s with
      | (None, s0) => setIsProcessing false s0
      | (Some mimeType, s0) =>
          (* new MediaRecorder(streamRef.current, mimeType.opt) *)
          let recorder := mkRecorder inactive (mimeType_of mimeType) in
          (* video.onended = ...; video.muted = true; video.currentTime = 0 *)
          let video1 :=
            mkVideo (vPaused video) (vEnded video) 0 (duration video)
                    (videoWidth video) (videoHeight video) true (Some mimeType) in
          let s1 :=
            s0 |> setIsProcessing true
               |> putAllChunks []
               |> setProgress 0
               |> putRecorder (Some recorder)
               |> putVideoCompleted false
               |> emit (RecorderStart 1000)
               |> putRecorder (Some (MediaRecorder_start recorder))
               |> putVideo (Some video1)
               |> emit VideoPlay in
          match playResult with
          | Return _ =>
              let video2 :=
                mkVideo false false (currentTime video1) (duration video1)
                        (videoWidth video1) (videoHeight video1) true
                        (onended video1) in
              s1 |> putVideo (Some video2)
                 |> putUpdateInterval true
                 |> emit (SetInterval 200)
                 |> renderFrames v
          | Throw message =>
              s1 |> displayError ("播放失败: " ++ message)
                 |> setIsProcessing false
          end
      end
  | _, _ => s
  end.

End Component.

(* ================================================================== *)
(** ** Runs: the host's events, one after the other *)

(** What the host may do between two handlers of the component. *)
Inductive Event :=
| Playback (t : Q)           (* the playback position moves on to [t] *)
| Ended                      (* playback reaches the end: "ended" fires *)
| IntervalTick               (* the 200 ms interval expires *)
| Timeout (i : nat)          (* the [i]-th pending timeout expires *)
| DataAvailable (data : Blob)(* the recorder hands over a segment *)
| AnimationFrame             (* the display is about to refresh *).

Fixpoint removeNth {A : Type} (i : nat) (l : list A) : list A :=
  match l, i with
  | [], _ => []
  | _ :: t, O => t
  | h :: t, S i' => h :: removeNth i' t
  end.

Section Run.

Variable host : Host.
Variable v : Variant.

(** The callback of an expired timeout. *)
Definition fire (cb : Callback) (s : State) : State :=
  match cb with
  | HideError => setShowError false s
  | CollectChunks m => collectChunks v m s
  end.

Definition playing (video : Video) : bool :=
  negb (vPaused video) && negb (vEnded video).

(** One event.  The position only moves while the video plays, and
    "ended" fires once: at the end of the media, where the position
    equals the duration. *)
Definition dispatch (e : Event) (s : State) : State :=
  match e with
  | Playback t =>
      match videoRef s with
      | Some video =>
          if playing video then
            putVideo (Some (mkVideo (vPaused video) (vEnded video) t
                                    (duration video) (videoWidth video)
                                    (videoHeight video) (muted video)
                                    (onended video))) s
          else s
      | None => s
      end
  | Ended =>
      match videoRef s with
      | Some video =>
          if playing video then
            let atEnd :=
              match duration video with Some d => d | None => currentTime video end in
            let s1 :=
              putVideo (Some (mkVideo (vPaused video) true atEnd
                                      (duration video) (videoWidth video)
                                      (videoHeight video) (muted video)
                                      (onended video))) s in
            match onended video with
            | Some m => onended_handler host v m s1
            | None => s1
            end
          else s
      | None => s
      end
  | IntervalTick => if updateInterval s then updateProgress s else s
  | Timeout i =>
      match nth_error (timers s) i with
      | Some (cb, _) => s |> putTimers (removeNth i (timers s)) |> fire cb
      | None => s
      end
  | DataAvailable data =>
      match recorderRef s with
      | Some _ => ondataavailable data s
      | None => s
      end
  | AnimationFrame => renderFrames host v s
  end.

(** A run: the events in order. *)
Definition run (es : list Event) (s : State) : State :=
  fold_left (fun s e => dispatch e s) es s.

End Run.

(** The progress values published so far, oldest first. *)
Fixpoint published (l : list Effect) : list Q :=
  match l with
  | [] => []
  | SetProgress p :: l' => p :: published l'
  | _ :: l' => published l'
  end.

(** How many times the playback position was sampled for progress. *)
Fixpoint samples (l : list Effect) : nat :=
  match l with
  | [] => O
  | SampleProgress :: l' => S (samples l')
  | _ :: l' => samples l'
  end.

(* ================================================================== *)
(** ** The rest of the component: the download and what is rendered *)

(** The [<a>] element [downloadVideo] builds: where it points, the name
    it suggests for the saved file, and its [style.display]. *)
Record Anchor := mkAnchor { href : Blob; download : string; display : string }.

(** Calls on the document made by [downloadVideo], in call order. *)
Inductive DomCall :=
| AppendChild (link : Anchor)              (* document.body.appendChild(link) *)
| Click (link : Anchor)                    (* link.click() *)
| RemoveChildAfter (link : Anchor) (ms : Z)
    (* setTimeout(() => document.body.removeChild(link), ms) *).

(** [downloadVideo]: the calls on the document and the state after.  A
    [videoURL] is an object URL, never the empty string, so [!videoURL]
    is [videoURL === null]. *)
Definition downloadVideo (host : Host) (v : Variant) (s : State)
  : list DomCall * State :=
  match videoURL s with
  | None => ([], displayError "没有可下载的视频" s)
  | Some url =>
      if String.eqb (vidName s) "" then
        ([], displayError "没有可下载的视频" s)
      else
        match checkMimeTypeSupport host v s with
        | (None, s') => ([], s')
        | (Some mimeType, s') =>
            let link :=
              mkAnchor url (vidName s ++ "_watermarked." ++ ext mimeType) "none" in
            ([AppendChild link; Click link; RemoveChildAfter link 100], s')
        end
  end.

(** Which of its two texts the info panel shows. *)
Inductive InfoText :=
| ProcessingNotice  (* "正在处理视频，请勿关闭页面, ..." *)
| UsageNotice       (* the naming convention and the browser advice *).

(** What the component renders, as far as it depends on the state: the
    file input, the error line, the info panel, the progress bar (its
    width in percent and the whole number shown beside it), and the two
    buttons.  [None] is an element that is not rendered; the process
    button carries its [disabled] attribute. *)
Record View := mkView {
  inputAccept : string;
  inputDisabled : bool;
  errorMessage : option string;
  infoPanel : InfoText;
  progressBar : option (Q * Z);
  processButton : option bool;
  downloadButton : bool
}.

(** The JSX returned by the component. *)
Definition render (v : Variant) (s : State) : View :=
  mkView
    (match v with AppTsx => "video/mp4" | Revised => "video/*" end)
    (isProcessing s)
    (if showError s then Some (error s) else None)
    (if isProcessing s then ProcessingNotice else UsageNotice)
    (if isProcessing s || negb (Qle_bool (progress s) 0)
     then Some (progress s, Math_round (progress s)) else None)
    (match videoURL s with
     | None =>
         Some (match file s with None => true | Some _ => false end
               || isProcessing s)
     | Some _ => None
     end)
    (match videoURL s with Some _ => true | None => false end).

(** What the user and the host may do to a mounted component. *)
Inductive Action :=
| ChooseFiles (files : list File)        (* "change" on the file input *)
| LoadedMetadata                         (* "loadedmetadata" on the video *)
| ClickProcess (playResult : Outcome unit)
| ClickDownload
| HostEvent (e : Event).

Section Session.

Variable host : Host.
Variable v : Variant.

(** One action.  A disabled control and a control that is not rendered
    receive no event. *)
Definition act (a : Action) (s : State) : State :=
  match a with
  | ChooseFiles files =>
      if inputDisabled (render v s) then s else handleFileUpload host files s
  | LoadedMetadata => handleMetadataLoaded s
  | ClickProcess playResult =>
      match processButton (render v s) with
      | Some false => processVideo host v playResult s
      | _ => s
      end
  | ClickDownload =>
      if downloadButton (render v s) then snd (downloadVideo host v s) else s
  | HostEvent e => dispatch host v e s
  end.

(** A session: the actions in order. *)
Definition session (acts : list Action) (s : State) : State :=
  fold_left (fun s a => act a s) acts s.

End Session.

(* ================================================================== *)
(** ** Vocabulary of the statements *)

(** *** Filenames *)

(** The values [parseTimeFromFilename] computes on the way. *)
Definition filenameWithoutExt (filename : string) : string :=
  JsString.substring filename 0 (JsString.lastIndexOf "." filename).

Definition parts (filename : string) : list string :=
  JsString.split "_" (filenameWithoutExt filename).

Definition timeParts (filename : string) : list string :=
  JsString.split "-" (at_ (parts filename) 1).

Definition dateStr (filename : string) : string :=
  at_ (parts filename) 0 ++ " " ++ at_ (timeParts filename) 0 ++ ":"
    ++ at_ (timeParts filename) 1 ++ ":" ++ at_ (timeParts filename) 2.

(** A name of the shape [YYYY-MM-DD_HH-MM-SS<suffix>.<ext>], by its pieces. *)
Record StampedName := mkStamped {
  yyyy : string; mo : string; dd : string;
  hh : string; mi : string; ss : string;
  suffix : string;
  extension : string
}.

(** The date and the time as they stand in the name. *)
Definition datePartOf (f : StampedName) : string :=
  yyyy f ++ "-" ++ mo f ++ "-" ++ dd f.

Definition timePartOf (f : StampedName) : string :=
  hh f ++ "-" ++ mi f ++ "-" ++ ss f.

Definition filenameOf (f : StampedName) : string :=
  yyyy f ++ "-" ++ mo f ++ "-" ++ dd f ++ "_" ++
  hh f ++ "-" ++ mi f ++ "-" ++ ss f ++ suffix f ++ "." ++ extension f.

(** A field of exactly [n] decimal digits. *)
Definition digits (n : nat) (s : string) : bool :=
  (String.length s =? n)%nat && allDigits s.

(** What may follow the seconds: nothing, or something set off by a
    dash or an underscore. *)
Definition suffixOk (s : string) : bool :=
  match s with
  | EmptyString => true
  | String c _ => Ascii.eqb c "-" || Ascii.eqb c "_"
  end.

(** The name has the shape, the fields name an existing date and time,
    and the extension is the part after the last dot. *)
Definition wellFormed (f : StampedName) : bool :=
  digits 4 (yyyy f) && digits 2 (mo f) && digits 2 (dd f) &&
  digits 2 (hh f) && digits 2 (mi f) && digits 2 (ss f) &&
  validCivil (num (yyyy f)) (num (mo f)) (num (dd f))
             (num (hh f)) (num (mi f)) (num (ss f)) &&
  suffixOk (suffix f) && JsString.lacks "." (extension f).

(** The shape as the specification words it: as [wellFormed], but with
    any suffix. *)
Definition shaped (f : StampedName) : bool :=
  digits 4 (yyyy f) && digits 2 (mo f) && digits 2 (dd f) &&
  digits 2 (hh f) && digits 2 (mi f) && digits 2 (ss f) &&
  validCivil (num (yyyy f)) (num (mo f)) (num (dd f))
             (num (hh f)) (num (mi f)) (num (ss f)) &&
  JsString.lacks "." (extension f).

(** The date and time in the name as a local time value. *)
Definition localTimeOf (f : StampedName) : Z :=
  Time.MakeDate
    (Time.MakeDay (num (yyyy f)) (num (mo f) - 1) (num (dd f)))
    (Time.MakeTime (num (hh f)) (num (mi f)) (num (ss f)) 0).

(** The zone has the local time [l]: no transition skips it, so the offset
    in force at the instant [l] is read as is the offset [l] was read
    with. *)
Definition hasLocalTime (tza : Z -> bool -> Z) (l : Z) : Prop :=
  tza (Time.UTC tza l) true = tza l false.

(** The zone stays within a day of UTC. *)
Definition withinADay (tza : Z -> bool -> Z) : Prop :=
  forall t isUTC, Z.abs (tza t isUTC) <= Time.msPerDay.

(** The local-time instant the name's date and time denote. *)
Definition instantOf (tza : Z -> bool -> Z) (f : StampedName) : Z :=
  Time.localInstant tza (num (yyyy f)) (num (mo f)) (num (dd f))
                        (num (hh f)) (num (mi f)) (num (ss f)).

(** The host reads a date-time text [YYYY-MM-DD HH:MM:SS] of an existing
    date and time as that local time. *)
Definition readsLocalTime (h : Host) : Prop :=
  forall y m d H M S : string,
    digits 4 y = true -> digits 2 m = true -> digits 2 d = true ->
    digits 2 H = true -> digits 2 M = true -> digits 2 S = true ->
    validCivil (num y) (num m) (num d) (num H) (num M) (num S) = true ->
    Date_parse h (y ++ "-" ++ m ++ "-" ++ d ++ " " ++ H ++ ":" ++ M ++ ":" ++ S)
    = Some (Time.localInstant (LocalTZA h) (num y) (num m) (num d)
                                           (num H) (num M) (num S)).

(** The warning [parseTimeFromFilename] shows for a thrown message. *)
Definition parseWarning (message : string) : string :=
  "时间解析错误: " ++ message.

(** *** Sample inputs *)

(** A mounted component with a 1280x720 clip of ten seconds loaded. *)
Definition sampleCanvas : Canvas := mkCanvas 1280 720 true [].
Definition sampleVideo : Video :=
  mkVideo true false 0 (Some 10%Q) 1280 720 false None.
Definition idle : State := initial sampleCanvas sampleVideo.

(** The specification's example name, [2024-03-01_14-05-09-000.mp4]. *)
Definition sampleName : StampedName :=
  mkStamped "2024" "03" "01" "14" "05" "09" "-000" "mp4".

(** The example name with a suffix glued to the seconds,
    [2024-03-01_14-05-09front.mp4]. *)
Definition gluedName : StampedName :=
  mkStamped "2024" "03" "01" "14" "05" "09" "front" "mp4".

(** A clock reading for the examples: 2023-11-14 22:13:20 UTC. *)
Definition sampleNow : Z := 1700000000000.

(** The eastern zone of North America around the spring of 2024: five
    hours behind UTC until 2024-03-10 07:00:00 UTC, four hours from then
    on. *)
Definition easternSpring2024 : Z -> bool -> Z :=
  shiftingZone 1710054000000 (-18000000) (-14400000).

(** A name for 02:30 in the night of that transition, a local time the
    eastern zone skips. *)
Definition skippedName : StampedName :=
  mkStamped "2024" "03" "10" "02" "30" "00" "" "mp4".

(** *** Drawing *)

(** The calls made on the canvas context so far. *)
Definition opsOf (s : State) : list DrawOp :=
  match canvasRef s with
  | Some c => drawn c
  | None => []
  end.

(** The texts stamped by [fillText], oldest first. *)
Fixpoint overlayTexts (ops : list DrawOp) : list string :=
  match ops with
  | [] => []
  | FillText _ _ text _ _ :: ops' => text :: overlayTexts ops'
  | _ :: ops' => overlayTexts ops'
  end.

(** A state in which a frame is presentable: canvas with a context, and
    a video that is playing. *)
Definition presentable (s : State) : bool :=
  match canvasRef s, videoRef s with
  | Some canvas, Some video =>
      ctx2d canvas && negb (vPaused video) && negb (vEnded video)
  | _, _ => false
  end.

(** The playback position of the video, 0 when there is none. *)
Definition positionOf (s : State) : Q :=
  match videoRef s with
  | Some video => currentTime video
  | None => 0
  end.

(** A state in which the watermark can be drawn: canvas with a context,
    and a video. *)
Definition drawable (s : State) : bool :=
  match canvasRef s, videoRef s with
  | Some canvas, Some _ => ctx2d canvas
  | _, _ => false
  end.

Definition widthOf (s : State) : Q :=
  match canvasRef s with Some c => inject_Z (width c) | None => 0 end.

Definition heightOf (s : State) : Q :=
  match canvasRef s with Some c => inject_Z (height c) | None => 0 end.

(** The watermark as the specification words it: an opaque panel as wide
    as the text plus the padding, its right and bottom edges one padding
    away from the frame's, and then the text. *)
Definition opaquePanelThenText
           (W H padding textWidth : Q) (text : string) (ops : list DrawOp) : Prop :=
  exists panelStyle textStyle px x y w h tx ty,
    ops = [FillRect panelStyle x y w h; FillText textStyle px text tx ty]
    /\ alpha panelStyle == 1
    /\ w == textWidth + padding
    /\ x + w == W - padding
    /\ y + h == H - padding.

(** A playing state for the examples: [idle] after the sample file was
    picked, its metadata arrived and processing started. *)
Definition samplePlaying (h : Host) (v : Variant) : State :=
  idle |> handleFileUpload h [mkFile (filenameOf sampleName) "video/mp4"]
       |> handleMetadataLoaded
       |> processVideo h v (Return tt).

(** [s] with the playback position moved to [t]. *)
Definition seek (t : Q) (s : State) : State :=
  match videoRef s with
  | Some video =>
      putVideo (Some (mkVideo (vPaused video) (vEnded video) t (duration video)
                              (videoWidth video) (videoHeight video)
                              (muted video) (onended video))) s
  | None => s
  end.

(** A loaded state for the examples: [idle] after the metadata arrived
    (canvas 1280x720, font size 43). *)
Definition sampleLoaded : State := handleMetadataLoaded idle.

(** What a handler added to the calls on the context. *)
Definition newOps (before after : State) : list DrawOp :=
  skipn (List.length (opsOf before)) (opsOf after).

(** *** Finalization *)

(** How far finalization has been seen to get in a record of effects. *)
Record Seen := mkSeen { seenPause : bool; seenStop : bool; seenArm : bool }.

Definition nothingSeen : Seen := mkSeen false false false.
Definition allSeen : Seen := mkSeen true true true.

(** Which of the two comes first in finalization. *)
Inductive Order := PauseFirst | StopFirst.

(** One effect, watched.  The source is paused and the recorder stopped,
    in the given order, before the grace timer is armed; the timer is
    armed for 1000 ms; and the Blob is built only once the timer was
    armed.  [None] is a violation. *)
Definition watch (o : Order) (st : Seen) (e : Effect) : option Seen :=
  match e with
  | VideoPause =>
      match o with
      | PauseFirst => Some (mkSeen true (seenStop st) (seenArm st))
      | StopFirst =>
          if seenStop st then Some (mkSeen true (seenStop st) (seenArm st))
          else None
      end
  | RecorderStop =>
      match o with
      | PauseFirst =>
          if seenPause st then Some (mkSeen (seenPause st) true (seenArm st))
          else None
      | StopFirst => Some (mkSeen (seenPause st) true (seenArm st))
      end
  | SetTimeout (CollectChunks _) ms =>
      if seenPause st && seenStop st && (ms =? 1000)
      then Some (mkSeen true true true)
      else None
  | CreateBlob _ => if seenArm st then Some st else None
  | _ => Some st
  end.

Fixpoint watchAll (o : Order) (st : Seen) (l : list Effect) : option Seen :=
  match l with
  | [] => Some st
  | e :: l' =>
      match watch o st e with
      | Some st' => watchAll o st' l'
      | None => None
      end
  end.

(** The record keeps the given order of finalization. *)
Definition inOrder (o : Order) (l : list Effect) : bool :=
  match watchAll o nothingSeen l with
  | Some _ => true
  | None => false
  end.

(** The order each copy keeps: [src/App.tsx] pauses the source first,
    the revised copy stops the recorder first. *)
Definition orderOf (v : Variant) : Order :=
  match v with AppTsx => PauseFirst | Revised => StopFirst end.

(** No grace timer is pending. *)
Definition noCollect (ts : list (Callback * Z)) : bool :=
  forallb (fun t => match fst t with CollectChunks _ => false | HideError => true end) ts.

(** A state from which [processVideo] starts a run: nothing is being
    processed, canvas and video are mounted, the host can record, no
    grace timer is left over, and the record of effects is empty. *)
Definition ready (h : Host) (v : Variant) (s : State) : bool :=
  negb (isProcessing s)
  && match canvasRef s, videoRef s with
     | Some canvas, Some video => true
     | _, _ => false
     end
  && match fst (checkMimeTypeSupport h v s) with Some _ => true | None => false end
  && noCollect (timers s)
  && match log s with [] => true | _ => false end.

(** The start of a run: [processVideo] with playback starting. *)
Definition start (h : Host) (v : Variant) (s : State) : State :=
  processVideo h v (Return tt) s.

(** *** Progress *)

(** The host plays forward: the positions it reports do not decrease,
    start at or after [lo], and do not pass the end [d]. *)
Fixpoint forward (d lo : Q) (es : list Event) : Prop :=
  match es with
  | [] => True
  | Playback t :: es' => (lo <= t)%Q /\ (t <= d)%Q /\ forward d t es'
  | _ :: es' => forward d lo es'
  end.

(** Every position reported among the events lies before [d]. *)
Fixpoint below (d : Q) (es : list Event) : Prop :=
  match es with
  | [] => True
  | Playback t :: es' => (t < d)%Q /\ below d es'
  | _ :: es' => below d es'
  end.

(** Non-decreasing lists of rationals. *)
Fixpoint nondecreasing (l : list Q) : Prop :=
  match l with
  | [] => True
  | p :: l' =>
      match l' with
      | [] => True
      | q :: _ => (p <= q)%Q /\ nondecreasing l'
      end
  end.

(** No "ended" among the events. *)
Definition noEnded (es : list Event) : bool :=
  forallb (fun e => match e with Ended => false | _ => true end) es.

(** The duration of the loaded video, if it is known. *)
Definition durationOf (s : State) : option Q :=
  match videoRef s with
  | Some video => duration video
  | None => None
  end.

(** The sample clip, loaded and ready to be processed. *)
Definition sampleReady (h : Host) : State :=
  idle |> handleFileUpload h [mkFile (filenameOf sampleName) "video/mp4"]
       |> handleMetadataLoaded.

(** One encoded segment for the examples. *)
Definition sampleSegment : Blob := mkBlob [Byte.x1a; Byte.x45] "video/webm".

(** Effects that are no step of finalization. *)
Definition neutral (l : list Effect) : bool :=
  forallb (fun e => match e with
                    | VideoPause | RecorderStop | CreateBlob _ => false
                    | SetTimeout (CollectChunks _) _ => false
                    | _ => true
                    end) l.

(** Every grace timer in the record was armed for 1000 ms. *)
Definition tame (l : list Effect) : bool :=
  forallb (fun e => match e with
                    | SetTimeout (CollectChunks _) ms => ms =? 1000
                    | _ => true
                    end) l.

(** The run is under way: the video plays with its "ended" handler
    installed, the recorder records, the end has not been seen, and no
    grace timer is pending. *)
Definition capturing (s : State) : bool :=
  match videoRef s, recorderRef s with
  | Some video, Some r =>
      negb (vPaused video) && negb (vEnded video)
      && match onended video with Some _ => true | None => false end
      && match state r with recording => true | _ => false end
      && negb (videoCompleted s)
      && noCollect (timers s)
  | _, _ => false
  end.

(** The progress tracker as the specification words it: the published
    values never decrease, 100 is not published before the end of the
    stream, and the position is not sampled once finalization has begun. *)
Definition progressAsSpecified (h : Host) (v : Variant) (s : State)
           (es : list Event) : Prop :=
  nondecreasing (published (log (run h v es (start h v s))))
  /\ (forall pre post,
         es = (pre ++ post)%list -> noEnded pre = true ->
         Forall (fun p => ~ p == 100)
                (published (log (run h v pre (start h v s)))))
  /\ (forall pre post,
         es = (pre ++ Ended :: post)%list -> noEnded pre = true ->
         samples (log (run h v es (start h v s)))
         = samples (log (run h v pre (start h v s)))).

(** The progress tracker as it is built, on a clip of duration [d]: the
    published values never decrease and never pass 100; they stay below
    100 for as long as the source has neither ended nor reported a
    position that is not before [d]; and the position may be sampled once
    more after finalization has begun. *)
Definition progressAsBuilt (h : Host) (v : Variant) (s : State) (d : Q)
           (es : list Event) : Prop :=
  nondecreasing (published (log (run h v es (start h v s))))
  /\ Forall (fun p => p <= 100)%Q (published (log (run h v es (start h v s))))
  /\ (forall pre post,
         es = (pre ++ post)%list -> noEnded pre = true -> below d pre ->
         Forall (fun p => p < 100)%Q
                (published (log (run h v pre (start h v s)))))
  /\ (forall pre post,
         es = (pre ++ Ended :: post)%list -> noEnded pre = true ->
         (samples (log (run h v es (start h v s)))
          <= samples (log (run h v pre (start h v s))) + 1)%nat).

(** Before the end of the stream: the run is under way at position [lo]
    of [d], not past the end, and what was published is in order and at
    most the progress at [lo]. *)
Definition tracking (d lo : Q) (s : State) : Prop :=
  capturing s = true
  /\ durationOf s = Some d
  /\ positionOf s = lo
  /\ (0 <= lo)%Q /\ (lo <= d)%Q
  /\ nondecreasing (published (log s))
  /\ Forall (fun p => p <= lo / d * 100)%Q (published (log s)).

(** After the end of the stream: the source is paused at its end, the
    end was seen, what was published is in order and at most 100, and at
    most one sample was or will be taken beyond the [n] taken before. *)
Definition finishing (d : Q) (n : nat) (s : State) : Prop :=
  match videoRef s with
  | Some video =>
      vPaused video = true /\ currentTime video = d /\ duration video = Some d
  | None => False
  end
  /\ videoCompleted s = true
  /\ nondecreasing (published (log s))
  /\ Forall (fun p => p <= 100)%Q (published (log s))
  /\ (samples (log s) + (if updateInterval s then 1 else 0) <= n + 1)%nat.

(** *** The stamp *)

(** The date and time of a stamped name as the overlay shows them. *)
Definition stampOf (f : StampedName) : string :=
  yyyy f ++ "-" ++ mo f ++ "-" ++ dd f ++ " "
    ++ hh f ++ ":" ++ mi f ++ ":" ++ ss f.

(** The last [k] decimal digits of [n], leading zeros included. *)
Fixpoint fixed (k : nat) (n : Z) : string :=
  match k with
  | O => EmptyString
  | S k' => fixed k' (n / 10) ++ String (Dayjs.digitChar (n mod 10)) EmptyString
  end.

(** *** Negotiation, segments, sessions *)

(** The types [checkMimeTypeSupport] asks the host about, in its order. *)
Definition probedTypes (v : Variant) : list string :=
  match v with
  | AppTsx => ["video/mp4"; "video/webm; codecs=vp9"; "video/webm"]
  | Revised =>
      ["video/mp4"; "video/webm; codecs=vp9"; "video/webm; codecs=vp8";
       "video/webm"]
  end.

(** The type handed to the recorder for a probed type: the probed type
    itself, except that the revised copy asks for the codec [avc1] where
    it probed plain [video/mp4]. *)
Definition requestedType (v : Variant) (probed : string) : string :=
  match v with
  | AppTsx => probed
  | Revised =>
      if String.eqb probed "video/mp4" then "video/mp4; codecs=avc1" else probed
  end.

(** The file extension that goes with a probed type. *)
Definition extensionOf (probed : string) : string :=
  if String.eqb probed "video/mp4" then "mp4" else "webm".

(** The message for a host that can record none of the types. *)
Definition unsupportedMessage (v : Variant) : string :=
  match v with
  | AppTsx => "换chrome吧, 求求你了!"
  | Revised => "当前浏览器不支持视频录制，请使用Chrome浏览器"
  end.

(** A host that can record nothing. *)
Definition deafHost : Host :=
  mkHost (localDateParse (fixedZone 0)) sampleNow (fixedZone 0) monoMeasure
         (fun _ => false) false.

(** A host that records [video/mp4] and nothing else. *)
Definition mp4Host : Host :=
  mkHost (localDateParse (fixedZone 0)) sampleNow (fixedZone 0) monoMeasure
         (fun t => String.eqb t "video/mp4") false.

(** The non-empty segments among the events, in the order they arrive. *)
Fixpoint segments (es : list Event) : list Blob :=
  match es with
  | [] => []
  | DataAvailable data :: es' =>
      if 0 <? size data then data :: segments es' else segments es'
  | _ :: es' => segments es'
  end.

(** No timeout expires among the events. *)
Definition noTimeout (es : list Event) : bool :=
  forallb (fun e => match e with Timeout _ => false | _ => true end) es.

(** The grace timer's callback has run: it built the Blob, or it
    reported that there was nothing to build it from. *)
Definition collected (l : list Effect) : bool :=
  existsb (fun e => match e with
                    | CreateBlob _ => true
                    | Display message => String.eqb message "没有收集到视频数据"
                    | _ => false
                    end) l.

(** No file is chosen among the actions. *)
Definition noChoice (acts : list Action) : bool :=
  forallb (fun a => match a with ChooseFiles _ => false | _ => true end) acts.

(** The name of a file with the base name [base] and the extension [e]. *)
Definition dotted (base e : string) : string := base ++ "." ++ e.

(** The source is not playing: paused or ended, or not there at all. *)
Definition stopped (s : State) : bool :=
  match videoRef s with
  | Some video => vPaused video || vEnded video
  | None => true
  end.

(** On a clip of unknown duration: only 0 and 100 were published, and the position was never sampled. *)
Definition unsampled (s : State) : Prop :=
  truthy (durationOf s) = false
  /\ Forall (fun p => p = 0 \/ p = 100)%Q (published (log s))
  /\ samples (log s) = O.

(* ================================================================== *)
(** ** Facts about the string primitives *)

Module JsStringFacts.
Import JsString.

Lemma len_nonneg s : 0 <= len s.
Proof. unfold len. lia. Qed.

Lemma len_app a b : len (a ++ b) = len a + len b.
Proof.
  unfold len. induction a as [|x a IH]; simpl String.length.
  - lia.
  - simpl in IH. lia.
Qed.

Lemma lacks_app c a b : lacks c (a ++ b) = lacks c a && lacks c b.
Proof.
  induction a as [|x a IH]; simpl; [reflexivity|].
  rewrite IH. now rewrite andb_assoc.
Qed.

Lemma lastIndexOf_from_lacks c s i acc :
  lacks c s = true -> lastIndexOf_from c s i acc = acc.
Proof.
  revert i acc. induction s as [|x s IH]; intros i acc H; simpl in *.
  - reflexivity.
  - apply andb_prop in H as [Hx Hs].
    destruct (Ascii.eqb x c); [discriminate|]. now apply IH.
Qed.

(** Without the character there is no index. *)
Lemma lastIndexOf_lacks c s : lacks c s = true -> lastIndexOf c s = -1.
Proof. apply lastIndexOf_from_lacks. Qed.

Lemma lastIndexOf_from_app c a b i acc :
  lacks c b = true ->
  lastIndexOf_from c (a ++ String c b) i acc = i + len a.
Proof.
  intros Hb. revert i acc. induction a as [|x a IH]; intros i acc.
  - simpl. rewrite Ascii.eqb_refl.
    rewrite lastIndexOf_from_lacks by assumption. unfold len. simpl. lia.
  - simpl. rewrite IH. unfold len. simpl String.length. lia.
Qed.

(** The last occurrence is the one after which the character is absent. *)
Lemma lastIndexOf_app c a b :
  lacks c b = true -> lastIndexOf c (a ++ String c b) = len a.
Proof. intros. unfold lastIndexOf. now rewrite lastIndexOf_from_app. Qed.

Lemma String_substring_prefix a b :
  String.substring 0 (String.length a) (a ++ b) = a.
Proof.
  induction a as [|x a IH]; simpl.
  - now destruct b.
  - now rewrite IH.
Qed.

(** [(a ++ b).substring(0, a.length)] is [a]. *)
Lemma substring_prefix a b : substring (a ++ b) 0 (len a) = a.
Proof.
  unfold substring, clamp. rewrite len_app.
  pose proof (len_nonneg a). pose proof (len_nonneg b).
  replace (Z.min (Z.max 0 0) (len a + len b)) with 0 by lia.
  replace (Z.min (Z.max (len a) 0) (len a + len b)) with (len a) by lia.
  replace (Z.min 0 (len a)) with 0 by lia.
  replace (Z.max 0 (len a) - 0) with (len a) by lia.
  unfold len. rewrite Nat2Z.id. apply String_substring_prefix.
Qed.

(** [s.substring(0, -1)] is empty: the negative end is clamped to 0. *)
Lemma substring_to_minus_one s : substring s 0 (-1) = "".
Proof.
  unfold substring, clamp. pose proof (len_nonneg s).
  replace (Z.min (Z.max 0 0) (len s)) with 0 by lia.
  replace (Z.min (Z.max (-1) 0) (len s)) with 0 by lia.
  simpl. now destruct s.
Qed.

Lemma split_nonempty sep s : split sep s <> [].
Proof.
  destruct s as [|x s]; simpl; [discriminate|].
  destruct (Ascii.eqb x sep); [discriminate|].
  destruct (split sep s); discriminate.
Qed.

(** A string without the separator is one field. *)
Lemma split_lacks sep s : lacks sep s = true -> split sep s = [s].
Proof.
  induction s as [|x s IH]; simpl; intros H; [reflexivity|].
  apply andb_prop in H as [Hx Hs].
  destruct (Ascii.eqb x sep); [discriminate|]. now rewrite IH.
Qed.

(** A prefix without the separator joins the first field of the rest. *)
Lemma split_prefix sep a r :
  lacks sep a = true ->
  split sep (a ++ r) = (a ++ hd "" (split sep r)) :: tl (split sep r).
Proof.
  induction a as [|x a IH]; simpl; intros H.
  - pose proof (split_nonempty sep r). now destruct (split sep r).
  - apply andb_prop in H as [Hx Hs].
    destruct (Ascii.eqb x sep); [discriminate|]. now rewrite IH.
Qed.

(** The first field ends at the first separator. *)
Lemma split_app sep a b :
  lacks sep a = true -> split sep (a ++ String sep b) = a :: split sep b.
Proof.
  intros H. rewrite split_prefix by assumption. simpl.
  rewrite Ascii.eqb_refl. simpl. f_equal.
  clear H. induction a as [|x a IH]; simpl; [reflexivity|]. now rewrite IH.
Qed.

End JsStringFacts.

(* ================================================================== *)
(** ** The filename timestamp parser *)

Section ParserFacts.
Import JsString JsStringFacts.

Variable host : Host.

Lemma append_assoc (a b c : string) : (a ++ b) ++ c = a ++ (b ++ c).
Proof. induction a as [|x a IH]; simpl; [reflexivity|]. now rewrite IH. Qed.

Lemma append_empty_r (a : string) : a ++ "" = a.
Proof. induction a as [|x a IH]; simpl; [reflexivity|]. now rewrite IH. Qed.

(** The [try] block, in terms of the values it computes. *)
Lemma parseTimeFromFilename_try_eq filename :
  parseTimeFromFilename_try host filename =
  if (List.length (parts filename) <? 2)%nat then
    Throw "文件名格式不正确"
  else if (List.length (timeParts filename) <? 3)%nat then
    Throw "文件名中的时间格式不正确"
  else match Date_parse host (dateStr filename) with
       | None => Throw "无法解析文件名中的时间信息"
       | Some timestamp => Return timestamp
       end.
Proof. reflexivity. Qed.

Lemma allDigits_lacks c s :
  isDigit c = false -> allDigits s = true -> lacks c s = true.
Proof.
  intros Hc. induction s as [|x s IH]; simpl; intros H; [reflexivity|].
  apply andb_prop in H as [Hx Hs]. rewrite IH by assumption.
  destruct (Ascii.eqb_spec x c) as [->|_]; [congruence|reflexivity].
Qed.

Lemma digits_lacks n c s :
  isDigit c = false -> digits n s = true -> lacks c s = true.
Proof.
  intros Hc H. apply andb_prop in H as [_ H]. now apply allDigits_lacks.
Qed.

Lemma digits_numeric n s : digits (S n) s = true -> numeric s = true.
Proof.
  intros H. apply andb_prop in H as [Hl Hd]. unfold numeric.
  rewrite Hd. destruct s; [discriminate|reflexivity].
Qed.

(** After a suffix set off by [-] or [_], the seconds field stands alone. *)
Lemma suffix_first_field s :
  suffixOk s = true -> hd "" (split "-" (hd "" (split "_" s))) = "".
Proof.
  destruct s as [|c r]; simpl; [reflexivity|].
  destruct (Ascii.eqb_spec c "_") as [->|Hu]; simpl; [reflexivity|].
  destruct (Ascii.eqb_spec c "-") as [->|Hd]; simpl; [|discriminate].
  intros _. pose proof (split_nonempty "_" r).
  destruct (split "_" r); [contradiction|]. reflexivity.
Qed.

Section Shape.
Variable f : StampedName.
Hypothesis Hwf : wellFormed f = true.

Lemma wellFormed_fields :
  digits 4 (yyyy f) = true /\ digits 2 (mo f) = true /\
  digits 2 (dd f) = true /\ digits 2 (hh f) = true /\
  digits 2 (mi f) = true /\ digits 2 (ss f) = true /\
  validCivil (num (yyyy f)) (num (mo f)) (num (dd f))
             (num (hh f)) (num (mi f)) (num (ss f)) = true /\
  suffixOk (suffix f) = true /\ lacks "." (extension f) = true.
Proof.
  pose proof Hwf as H. unfold wellFormed in H.
  do 8 (apply andb_prop in H as [H ?]). tauto.
Qed.

Lemma filenameWithoutExt_shape :
  filenameWithoutExt (filenameOf f)
  = datePartOf f ++ "_" ++ timePartOf f ++ suffix f.
Proof.
  destruct wellFormed_fields as (_ & _ & _ & _ & _ & _ & _ & _ & Hext).
  unfold filenameWithoutExt.
  assert (E : filenameOf f
              = (datePartOf f ++ "_" ++ timePartOf f ++ suffix f)
                  ++ String "." (extension f)).
  { unfold filenameOf, datePartOf, timePartOf.
    repeat (rewrite append_assoc; simpl). reflexivity. }
  rewrite E, lastIndexOf_app by assumption. apply substring_prefix.
Qed.

Lemma parts_shape :
  exists rest,
    parts (filenameOf f)
    = datePartOf f :: (timePartOf f ++ hd "" (split "_" (suffix f))) :: rest.
Proof.
  destruct wellFormed_fields as (Hy & Hm & Hd & HH & HM & HS & _).
  unfold parts. rewrite filenameWithoutExt_shape.
  assert (Ld : lacks "_" (datePartOf f) = true).
  { unfold datePartOf. rewrite !lacks_app.
    rewrite (digits_lacks 4 "_" (yyyy f)), (digits_lacks 2 "_" (mo f)),
      (digits_lacks 2 "_" (dd f)) by (assumption || reflexivity).
    reflexivity. }
  assert (Lt : lacks "_" (timePartOf f) = true).
  { unfold timePartOf. rewrite !lacks_app.
    rewrite (digits_lacks 2 "_" (hh f)), (digits_lacks 2 "_" (mi f)),
      (digits_lacks 2 "_" (ss f)) by (assumption || reflexivity).
    reflexivity. }
  change (datePartOf f ++ "_" ++ timePartOf f ++ suffix f)
    with (datePartOf f ++ String "_" (timePartOf f ++ suffix f)).
  rewrite split_app by assumption.
  rewrite split_prefix by assumption. eauto.
Qed.

Lemma timeParts_shape :
  exists rest, timeParts (filenameOf f) = hh f :: mi f :: ss f :: rest.
Proof.
  destruct wellFormed_fields as (_ & _ & _ & HH & HM & HS & _ & Hsuf & _).
  destruct parts_shape as [rest Hp].
  unfold timeParts. rewrite Hp. unfold at_. simpl nth.
  unfold timePartOf. repeat (rewrite append_assoc; simpl).
  rewrite split_app by (now apply (digits_lacks 2)).
  rewrite split_app by (now apply (digits_lacks 2)).
  rewrite split_prefix by (now apply (digits_lacks 2)).
  rewrite suffix_first_field by assumption.
  rewrite append_empty_r. eauto.
Qed.

Lemma dateStr_shape :
  dateStr (filenameOf f)
  = yyyy f ++ "-" ++ mo f ++ "-" ++ dd f ++ " "
      ++ hh f ++ ":" ++ mi f ++ ":" ++ ss f.
Proof.
  destruct parts_shape as [r1 Hp]. destruct timeParts_shape as [r2 Ht].
  unfold dateStr. rewrite Hp, Ht. unfold at_. simpl nth.
  unfold datePartOf. repeat (rewrite append_assoc; simpl). reflexivity.
Qed.

(** On a name of the shape, and a host that reads the assembled text
    as local time, the [try] block returns the instant. *)
Lemma parseTimeFromFilename_try_shape :
  readsLocalTime host ->
  parseTimeFromFilename_try host (filenameOf f)
  = Return (instantOf (LocalTZA host) f).
Proof.
  intros Hhost.
  destruct wellFormed_fields as (Hy & Hm & Hd & HH & HM & HS & Hv & _).
  rewrite parseTimeFromFilename_try_eq.
  destruct parts_shape as [r1 Hp]. destruct timeParts_shape as [r2 Ht].
  rewrite Hp, Ht. simpl List.length. simpl Nat.ltb.
  rewrite dateStr_shape, Hhost by assumption. reflexivity.
Qed.

End Shape.

End ParserFacts.

(* ------------------------------------------------------------------ *)
(** *** The reference host reads local time *)

Section ReferenceHost.
Import JsString JsStringFacts.

Lemma zonedHost_readsLocalTime zone now legacy :
  readsLocalTime (zonedHost zone now legacy).
Proof.
  intros y m d H M S Hy Hm Hd HH HM HS Hv.
  change (Date_parse (zonedHost zone now legacy)) with (localDateParse zone).
  change (LocalTZA (zonedHost zone now legacy)) with zone.
  unfold localDateParse.
  assert (Ld : lacks " " (y ++ "-" ++ m ++ "-" ++ d) = true).
  { rewrite !lacks_app.
    rewrite (digits_lacks 4 " " y), (digits_lacks 2 " " m),
      (digits_lacks 2 " " d) by (assumption || reflexivity).
    reflexivity. }
  assert (Lt : lacks " " (H ++ ":" ++ M ++ ":" ++ S) = true).
  { rewrite !lacks_app.
    rewrite (digits_lacks 2 " " H), (digits_lacks 2 " " M),
      (digits_lacks 2 " " S) by (assumption || reflexivity).
    reflexivity. }
  replace (y ++ "-" ++ m ++ "-" ++ d ++ " " ++ H ++ ":" ++ M ++ ":" ++ S)
    with ((y ++ "-" ++ m ++ "-" ++ d) ++ String " " (H ++ ":" ++ M ++ ":" ++ S))
    by (repeat (rewrite append_assoc; simpl); reflexivity).
  rewrite split_app, split_lacks by assumption.
  change (y ++ "-" ++ m ++ "-" ++ d) with (y ++ String "-" (m ++ String "-" d)).
  change (H ++ ":" ++ M ++ ":" ++ S) with (H ++ String ":" (M ++ String ":" S)).
  rewrite (split_app "-" y) by (now apply (digits_lacks 4)).
  rewrite (split_app "-" m) by (now apply (digits_lacks 2)).
  rewrite (split_lacks "-" d) by (now apply (digits_lacks 2)).
  rewrite (split_app ":" H) by (now apply (digits_lacks 2)).
  rewrite (split_app ":" M) by (now apply (digits_lacks 2)).
  rewrite (split_lacks ":" S) by (now apply (digits_lacks 2)).
  rewrite (digits_numeric _ _ Hy), (digits_numeric _ _ Hm),
    (digits_numeric _ _ Hd), (digits_numeric _ _ HH),
    (digits_numeric _ _ HM), (digits_numeric _ _ HS), Hv.
  reflexivity.
Qed.

Lemma refHost_readsLocalTime tza now legacy :
  readsLocalTime (refHost tza now legacy).
Proof. apply zonedHost_readsLocalTime. Qed.

End ReferenceHost.

(* ------------------------------------------------------------------ *)
(** *** Statements about the parser *)

(** C2, as stated, fails: not any suffix will do.  With a suffix glued to
    the seconds the third time field, and so the text handed to [Date],
    carries the suffix; the reference host, which reads date-time texts as
    local time, does not take that text for a date, and the parser falls
    back to the clock reading, with a warning. *)
Lemma parseTimeFromFilename_glued_suffix :
  let h := refHost 0 sampleNow false in
  shaped gluedName = true
  /\ readsLocalTime h
  /\ dateStr (filenameOf gluedName) = "2024-03-01 14:05:09front"
  /\ parseTimeFromFilename h (filenameOf gluedName) idle
     = (Date_now h,
        displayError (parseWarning "无法解析文件名中的时间信息") idle)
  /\ Date_now h <> instantOf (LocalTZA h) gluedName.
Proof.
  repeat split; try reflexivity.
  - apply refHost_readsLocalTime.
  - vm_compute. discriminate.
Qed.

(** C2, amended.  For every filename of the shape
    [YYYY-MM-DD_HH-MM-SS<suffix>.<ext>] (date and time fields of four and
    two digits that name an existing date and time of day, a suffix that is
    empty or set off by a dash or an underscore, and an extension without a
    dot), on a host that reads the text [YYYY-MM-DD HH:MM:SS] as local
    time, [parseTimeFromFilename] returns exactly the instant of that
    local date and time, and shows no warning. *)
Theorem parseTimeFromFilename_valid_name
        (h : Host) (f : StampedName) (s : State) :
  readsLocalTime h ->
  wellFormed f = true ->
  parseTimeFromFilename h (filenameOf f) s = (instantOf (LocalTZA h) f, s).
Proof.
  intros Hhost Hwf. unfold parseTimeFromFilename.
  now rewrite parseTimeFromFilename_try_shape.
Qed.

(** The specification's example on a host in the eastern zone:
    [2024-03-01_14-05-09-000.mp4] parses to the instant of 14:05:09 local
    time, which is 19:05:09 UTC. *)
Lemma parseTimeFromFilename_valid_name_witness :
  parseTimeFromFilename (zonedHost easternSpring2024 sampleNow false)
                        "2024-03-01_14-05-09-000.mp4" idle
  = (1709319909000, idle).
Proof.
  exact (parseTimeFromFilename_valid_name
           (zonedHost easternSpring2024 sampleNow false) sampleName idle
           (zonedHost_readsLocalTime easternSpring2024 sampleNow false)
           eq_refl).
Defined.

(** C3.  Whenever the stripped name has fewer than two underscore-separated
    parts, or the time component has fewer than three dash-separated
    fields, or the assembled date/time text does not parse to a valid
    instant, [parseTimeFromFilename] displays a warning and returns the
    current wall-clock instant; and the upload goes on: the file is taken
    and that instant becomes the start time. *)
Theorem parseTimeFromFilename_failure
        (h : Host) (filename : string) (s : State) :
  (List.length (parts filename) < 2)%nat \/
  (List.length (timeParts filename) < 3)%nat \/
  Date_parse h (dateStr filename) = None ->
  exists message,
    parseTimeFromFilename h filename s
    = (Date_now h, displayError (parseWarning message) s)
    /\ showError (snd (parseTimeFromFilename h filename s)) = true
    /\ error (snd (parseTimeFromFilename h filename s)) = parseWarning message
    /\ forall ty, JsString.startsWith "video/" ty = true ->
         let s' := handleFileUpload h [mkFile filename ty] s in
         file s' = Some (mkFile filename ty)
         /\ videoStartTime s' = Date_now h
         /\ showError s' = true
         /\ error s' = parseWarning message.
Proof.
  intros H.
  assert (E : exists message,
             parseTimeFromFilename_try h filename = Throw message).
  { rewrite parseTimeFromFilename_try_eq.
    destruct (List.length (parts filename) <? 2)%nat eqn:E1; [eauto|].
    destruct (List.length (timeParts filename) <? 3)%nat eqn:E2; [eauto|].
    apply Nat.ltb_ge in E1, E2.
    destruct H as [H|[H|H]]; [lia|lia|]. rewrite H. eauto. }
  destruct E as [message E]. exists message.
  assert (P : parseTimeFromFilename h filename s
              = (Date_now h, displayError (parseWarning message) s)).
  { unfold parseTimeFromFilename. now rewrite E. }
  rewrite P. repeat split.
  all: intros; unfold handleFileUpload; cbn [type name];
    try rewrite H0; cbn [negb]; try rewrite P; reflexivity.
Qed.

(** A name without an underscore: the warning is shown and the clock
    reading is the start time. *)
Lemma parseTimeFromFilename_failure_witness :
  exists message,
    parseTimeFromFilename (refHost 0 sampleNow false) "clip.mp4" idle
    = (sampleNow, displayError (parseWarning message) idle)
    /\ showError (snd (parseTimeFromFilename (refHost 0 sampleNow false) "clip.mp4" idle)) = true
    /\ error (snd (parseTimeFromFilename (refHost 0 sampleNow false) "clip.mp4" idle))
       = parseWarning message
    /\ forall ty, JsString.startsWith "video/" ty = true ->
         let s' := handleFileUpload (refHost 0 sampleNow false)
                                    [mkFile "clip.mp4" ty] idle in
         file s' = Some (mkFile "clip.mp4" ty)
         /\ videoStartTime s' = sampleNow
         /\ showError s' = true
         /\ error s' = parseWarning message.
Proof.
  apply (parseTimeFromFilename_failure (refHost 0 sampleNow false) "clip.mp4" idle).
  left. vm_compute. lia.
Defined.

(** C10.  A filename without any dot always fails to parse and falls back
    to the current wall-clock instant, whatever else it looks like: the
    substring up to the last dot is then empty, and the empty string has
    one underscore-separated part. *)
Theorem parseTimeFromFilename_dotless
        (h : Host) (filename : string) (s : State) :
  JsString.lacks "." filename = true ->
  filenameWithoutExt filename = ""
  /\ List.length (parts filename) = 1%nat
  /\ parseTimeFromFilename h filename s
     = (Date_now h, displayError (parseWarning "文件名格式不正确") s).
Proof.
  intros H.
  assert (E : filenameWithoutExt filename = "").
  { unfold filenameWithoutExt.
    rewrite JsStringFacts.lastIndexOf_lacks by assumption.
    apply JsStringFacts.substring_to_minus_one. }
  assert (P : parts filename = [""]).
  { unfold parts. now rewrite E. }
  repeat split; [assumption|now rewrite P|].
  unfold parseTimeFromFilename.
  now rewrite parseTimeFromFilename_try_eq, P.
Qed.

(** The name [2024-03-01_14-05-09] has the date and the time in the
    expected places, but no extension: it falls back to the clock. *)
Lemma parseTimeFromFilename_dotless_witness :
  filenameWithoutExt "2024-03-01_14-05-09" = ""
  /\ List.length (parts "2024-03-01_14-05-09") = 1%nat
  /\ parseTimeFromFilename (refHost 0 sampleNow false) "2024-03-01_14-05-09" idle
     = (sampleNow, displayError (parseWarning "文件名格式不正确") idle).
Proof.
  exact (parseTimeFromFilename_dotless (refHost 0 sampleNow false)
           "2024-03-01_14-05-09" idle eq_refl).
Defined.

(* ================================================================== *)
(** ** The font size *)

Section FontSize.

(** [Math.round(w / 30)] in integer arithmetic. *)
Lemma Math_round_div30 (w : Z) :
  Math_round (inject_Z w / 30) = (w + 15) / 30.
Proof.
  unfold Math_round, Qfloor, Qdiv, Qmult, Qplus, Qinv, inject_Z. simpl.
  replace (w * 1 * 2 + 30) with ((w + 15) * 2) by lia.
  change 60 with (30 * 2). now rewrite Z.div_mul_cancel_r by lia.
Qed.

Lemma newFontSize_eq (w : Z) : newFontSize w = Z.max 16 ((w + 15) / 30).
Proof. unfold newFontSize. now rewrite Math_round_div30. Qed.

Lemma newFontSize_floor (w : Z) : 16 <= newFontSize w.
Proof. unfold newFontSize. lia. Qed.

Lemma newFontSize_mono (w1 w2 : Z) :
  w1 <= w2 -> newFontSize w1 <= newFontSize w2.
Proof.
  intros H. rewrite !newFontSize_eq.
  assert ((w1 + 15) / 30 <= (w2 + 15) / 30) by (apply Z.div_le_mono; lia).
  lia.
Qed.

Lemma handleMetadataLoaded_fontSize s video canvas :
  videoRef s = Some video -> canvasRef s = Some canvas ->
  fontSize (handleMetadataLoaded s) = newFontSize (videoWidth video).
Proof. intros Hv Hc. unfold handleMetadataLoaded. now rewrite Hv, Hc. Qed.

End FontSize.

(** C7.  The font size fixed when the metadata of the source arrives is
    [max(16, round(frameWidth / 30))]; it is never below 16, and a wider
    frame never gets a smaller font. *)
Theorem fontSize_at_load (s : State) (video : Video) (canvas : Canvas) :
  videoRef s = Some video ->
  canvasRef s = Some canvas ->
  fontSize (handleMetadataLoaded s)
  = Z.max 16 (Math_round (inject_Z (videoWidth video) / 30))
  /\ 16 <= fontSize (handleMetadataLoaded s)
  /\ forall s' video' canvas',
       videoRef s' = Some video' ->
       canvasRef s' = Some canvas' ->
       videoWidth video <= videoWidth video' ->
       fontSize (handleMetadataLoaded s) <= fontSize (handleMetadataLoaded s').
Proof.
  intros Hv Hc.
  rewrite (handleMetadataLoaded_fontSize s video canvas Hv Hc).
  repeat split.
  - apply newFontSize_floor.
  - intros s' video' canvas' Hv' Hc' Hle.
    rewrite (handleMetadataLoaded_fontSize s' video' canvas' Hv' Hc').
    now apply newFontSize_mono.
Qed.

(** A 1280 pixel wide clip gets [round(42.67) = 43]. *)
Lemma fontSize_at_load_witness :
  fontSize (handleMetadataLoaded idle) = 43
  /\ 16 <= fontSize (handleMetadataLoaded idle)
  /\ forall s' video' canvas',
       videoRef s' = Some video' ->
       canvasRef s' = Some canvas' ->
       1280 <= videoWidth video' ->
       fontSize (handleMetadataLoaded idle) <= fontSize (handleMetadataLoaded s').
Proof.
  exact (fontSize_at_load idle sampleVideo sampleCanvas eq_refl eq_refl).
Defined.

(* ================================================================== *)
(** ** Double arithmetic on whole numbers *)

Module DoubleFacts.
Import Double.

Lemma pow2_pos e : (0 < pow2 e)%Q.
Proof.
  unfold pow2. apply Qlt_shift_div_l.
  - change 0%Q with (inject_Z 0). rewrite <- Zlt_Qlt. apply Z.pow_pos_nonneg; lia.
  - rewrite Qmult_0_l. change 0%Q with (inject_Z 0). rewrite <- Zlt_Qlt.
    apply Z.pow_pos_nonneg; lia.
Qed.

(** For [e <= 0], dividing by [2 ^ e] multiplies by [2 ^ (- e)]. *)
Lemma div_pow2_nonpos (n e : Z) :
  e <= 0 -> (inject_Z n / pow2 e == inject_Z (n * 2 ^ (- e)))%Q.
Proof.
  intros He. unfold pow2.
  replace (Z.max e 0) with 0 by lia. replace (Z.max (- e) 0) with (- e) by lia.
  assert (P : 0 < 2 ^ (- e)) by (apply Z.pow_pos_nonneg; lia).
  rewrite inject_Z_mult. change (inject_Z (2 ^ 0)) with 1%Q.
  field. intros E. 
  assert (inject_Z 0 < inject_Z (2 ^ (- e)))%Q by (now rewrite <- Zlt_Qlt).
  rewrite E in H. discriminate.
Qed.

Lemma mul_pow2_nonpos (n e : Z) :
  e <= 0 -> (inject_Z (n * 2 ^ (- e)) * pow2 e == inject_Z n)%Q.
Proof.
  intros He. rewrite <- (div_pow2_nonpos n e He).
  field. intros E. pose proof (pow2_pos e) as P. rewrite E in P. discriminate.
Qed.

Lemma nearestEven_integer q n : (q == inject_Z n)%Q -> nearestEven q = n.
Proof.
  intros E. unfold nearestEven.
  assert (F : Qfloor q = n) by (rewrite E; apply Qfloor_Z).
  assert (C : (q - inject_Z (Qfloor q) ?= 1 # 2)%Q = Lt).
  { rewrite <- Qlt_alt, F, E. lra. }
  cbv zeta. now rewrite C.
Qed.

Lemma ilog2_comp q q' : (q == q')%Q -> ilog2 q = ilog2 q'.
Proof.
  intros E. unfold ilog2.
  rewrite (Qleb_comp 1%Q 1%Q (Qeq_refl 1%Q) q q' E), (Qfloor_comp q q' E).
  rewrite (Qceiling_comp (/ q) (/ q')); [reflexivity|now rewrite E].
Qed.

Lemma nearestEven_comp q q' : (q == q')%Q -> nearestEven q = nearestEven q'.
Proof.
  intros E. unfold nearestEven. cbv zeta.
  rewrite (Qfloor_comp q q' E).
  now rewrite (Qcompare_comp (q - inject_Z (Qfloor q'))%Q (q' - inject_Z (Qfloor q'))%Q
                 ltac:(now rewrite E) (1 # 2)%Q (1 # 2)%Q (Qeq_refl _)).
Qed.

Lemma ulpExponent_comp q q' : (q == q')%Q -> ulpExponent q = ulpExponent q'.
Proof. intros E. unfold ulpExponent. now rewrite (ilog2_comp (Qabs q) (Qabs q')) by now rewrite E. Qed.

(** Rounding depends on the value only. *)
Lemma round_comp q q' : (q == q')%Q -> (round q == round q')%Q.
Proof.
  intros E. unfold round. rewrite (ulpExponent_comp q q' E).
  rewrite (nearestEven_comp (Qabs q / pow2 (ulpExponent q'))%Q
             (Qabs q' / pow2 (ulpExponent q'))%Q) by now rewrite E.
  rewrite (Qleb_comp 0%Q 0%Q (Qeq_refl 0%Q) q q' E). reflexivity.
Qed.

(** Integers of up to 53 bits are doubles. *)
Lemma round_integer z : Z.abs z < 2 ^ 53 -> (round (inject_Z z) == inject_Z z)%Q.
Proof.
  intros Hz. unfold round, ulpExponent.
  assert (A : (Qabs (inject_Z z) == inject_Z (Z.abs z))%Q) by reflexivity.
  set (k := ilog2 (Qabs (inject_Z z))).
  assert (Hk : 0 <= k <= 52).
  { unfold k. rewrite (ilog2_comp _ _ A). unfold ilog2.
    destruct (Qle_bool 1 (inject_Z (Z.abs z))) eqn:L.
    - rewrite Qfloor_Z. split; [apply Z.log2_nonneg|].
      destruct (Z.eq_dec (Z.abs z) 0) as [->|N]; [simpl; lia|].
      assert (Z.log2 (Z.abs z) < 53) by (apply Z.log2_lt_pow2; lia). lia.
    - assert (Z.abs z = 0).
      { destruct (Z.eq_dec (Z.abs z) 0) as [|N]; [assumption|].
        assert (Qle_bool 1 (inject_Z (Z.abs z)) = true).
        { apply Qle_bool_iff. change 1%Q with (inject_Z 1). rewrite <- Zle_Qle. lia. }
        congruence. }
      rewrite H. simpl. lia. }
  replace (Z.max (k - 52) (-1074)) with (k - 52) by lia.
  rewrite (nearestEven_integer _ (Z.abs z * 2 ^ (- (k - 52)))).
  2:{ rewrite A. apply div_pow2_nonpos. lia. }
  destruct (Qle_bool 0 (inject_Z z)) eqn:S; rewrite mul_pow2_nonpos by lia.
  - apply Qle_bool_iff in S. change 0%Q with (inject_Z 0) in S.
    rewrite <- Zle_Qle in S. now rewrite Z.abs_eq.
  - assert (z < 0).
    { destruct (Z_lt_le_dec z 0); [assumption|].
      assert (Qle_bool 0 (inject_Z z) = true).
      { apply Qle_bool_iff. change 0%Q with (inject_Z 0). now rewrite <- Zle_Qle. }
      congruence. }
    rewrite Z.abs_neq by lia. rewrite inject_Z_opp. ring.
Qed.

(** The sum of two integers is exact when it has up to 53 bits. *)
Lemma add_integers (a b : Q) (x y : Z) :
  (a == inject_Z x)%Q -> (b == inject_Z y)%Q -> Z.abs (x + y) < 2 ^ 53 ->
  (add a b == inject_Z (x + y))%Q.
Proof.
  intros Ha Hb H. unfold add.
  rewrite (round_comp (a + b)%Q (inject_Z (x + y))).
  - now apply round_integer.
  - now rewrite Ha, Hb, inject_Z_plus.
Qed.

(** So is their product. *)
Lemma mul_integers (a b : Q) (x y : Z) :
  (a == inject_Z x)%Q -> (b == inject_Z y)%Q -> Z.abs (x * y) < 2 ^ 53 ->
  (mul a b == inject_Z (x * y))%Q.
Proof.
  intros Ha Hb H. unfold mul.
  rewrite (round_comp (a * b)%Q (inject_Z (x * y))).
  - now apply round_integer.
  - now rewrite Ha, Hb, inject_Z_mult.
Qed.





(** Time values are integers of fewer than 53 bits. *)
Lemma maxTime_53 z : Z.abs z <= Time.maxTime -> Z.abs z < 2 ^ 53.
Proof.
  unfold Time.maxTime. change (2 ^ 53) with 9007199254740992. lia.
Qed.

End DoubleFacts.

(* ================================================================== *)
(** ** The overlay *)

Section Overlay.

Variable host : Host.

Lemma overlayTexts_app a b :
  overlayTexts (a ++ b) = (overlayTexts a ++ overlayTexts b)%list.
Proof.
  induction a as [|op a IH]; simpl; [reflexivity|].
  destruct op; simpl; now rewrite IH.
Qed.

(** What [drawWatermark] adds to the calls on the context. *)
Lemma drawWatermark_ops v text s :
  drawable s = true ->
  let W := widthOf s in
  let H := heightOf s in
  let textWidth := measureText host (fontSize s) text in
  let padding := (W / 50)%Q in
  let textX := (W - textWidth - padding)%Q in
  let textY := (H - padding)%Q in
  opsOf (drawWatermark host v text s)
  = (opsOf s ++
     match v with
     | AppTsx =>
         [FillText (rgba 255 255 255 (1 # 2)) (fontSize s) text textX textY]
     | Revised =>
         [FillRect (rgba 0 0 0 (1 # 2)) (textX - padding / 2)
                   (textY - inject_Z (fontSize s)) (textWidth + padding)
                   (inject_Z (fontSize s) + padding / 2);
          FillText (rgba 255 255 255 (9 # 10)) (fontSize s) text textX textY]
     end)%list.
Proof.
  unfold drawable, widthOf, heightOf, opsOf, drawWatermark.
  destruct s as [? ? ? ? ? ? ? ? ? [canvas|] [video|] ? ? ? ? ? ?]; simpl;
    try discriminate.
  intros ->. destruct v; simpl; [reflexivity|].
  now rewrite <- app_assoc.
Qed.

Lemma drawWatermark_fontSize v text s :
  fontSize (drawWatermark host v text s) = fontSize s.
Proof.
  unfold drawWatermark, draw.
  destruct s as [? ? ? ? ? ? ? ? ? [canvas|] [video|] ? ? ? ? ? ?]; simpl;
    try reflexivity.
  destruct (ctx2d canvas); [|reflexivity]. now destruct v.
Qed.

(** What [renderFrames] stamps on a presentable frame. *)
Lemma renderFrames_texts v s :
  presentable s = true ->
  overlayTexts (opsOf (renderFrames host v s))
  = (overlayTexts (opsOf s)
      ++ [currentTimeText host (videoStartTime s) (positionOf s)])%list.
Proof.
  unfold presentable, positionOf, renderFrames.
  destruct s as [? ? ? ? ? ? ? ? ? [canvas|] [video|] ? ? ? ? ? ?]; simpl;
    try discriminate.
  intros H. apply andb_prop in H as [H He]. apply andb_prop in H as [Hc Hp].
  rewrite Hc, Hp, He. simpl.
  unfold drawWatermark, draw, opsOf. simpl. rewrite Hc.
  destruct v; simpl; rewrite <- !app_assoc, overlayTexts_app; reflexivity.
Qed.

(** Truncation of a number that is an integer. *)
Lemma truncate_integer q z : q == inject_Z z -> Time.truncate q = z.
Proof.
  unfold Qeq, Time.truncate, inject_Z. simpl. intros H.
  rewrite Z.mul_1_r in H. rewrite H. apply Z.quot_mul. discriminate.
Qed.

(** [new Date(q)] for an integer number of milliseconds in range. *)
Lemma newDate_integer q z :
  q == inject_Z z -> Z.abs z <= Time.maxTime -> newDate q = Some z.
Proof.
  intros Hq Hz. unfold newDate, Time.TimeClip.
  rewrite (truncate_integer q z Hq).
  assert (L : Qle_bool (Qabs q) (inject_Z Time.maxTime) = true).
  { apply Qle_bool_iff. rewrite Hq.
    change (Qabs (inject_Z z)) with (inject_Z (Z.abs z)).
    now rewrite <- Zle_Qle. }
  now rewrite L.
Qed.



(** Where the product [currentTime * 1000] comes out as a whole number
    of milliseconds, the text is the start time plus those milliseconds,
    formatted. *)
Lemma currentTimeText_ms start position ms :
  (Double.mul position 1000 == inject_Z ms)%Q ->
  Z.abs (start + ms) <= Time.maxTime ->
  currentTimeText host start position
  = Dayjs.format (LocalTZA host) (Some (start + ms)).
Proof.
  intros Hp Hr. unfold currentTimeText.
  rewrite (newDate_integer _ (start + ms)); [reflexivity| |assumption].
  apply DoubleFacts.add_integers; [reflexivity|assumption|].
  now apply DoubleFacts.maxTime_53.
Qed.


End Overlay.



(** Rounding shows just below a second: at the last double before 65.0
    the product rounds to a number some [2 ^ (-36)] short of 65000, the sum
    with the start time rounds to the whole second, and the frame is
    stamped 14:06:14 like the frame at 65.0. *)
Lemma renderFrames_rounds_to_next_second :
  let h := refHost 0 sampleNow false in
  let position := (65 - (1 # 70368744177664))%Q in
  Double.round position == position
  /\ Double.mul position 1000 == 65000 - (1 # 68719476736)
  /\ Double.add (inject_Z 1709301909000) (Double.mul position 1000)
     == inject_Z 1709301974000
  /\ overlayTexts (opsOf (renderFrames h AppTsx
                            (seek position (samplePlaying h AppTsx))))
     = (overlayTexts (opsOf (seek position (samplePlaying h AppTsx)))
          ++ ["2024-03-01 14:06:14"])%list.
Proof.
  intros h position.
  split; [|split; [|split]]; vm_compute; reflexivity.
Qed.

(* ------------------------------------------------------------------ *)
(** *** The watermark panel *)

Lemma newOps_app before after ops :
  opsOf after = (opsOf before ++ ops)%list -> newOps before after = ops.
Proof.
  intros E. unfold newOps. rewrite E.
  rewrite skipn_app, skipn_all, Nat.sub_diag. reflexivity.
Qed.

(** C6, as stated, fails in both copies.  On the sample clip the revised
    copy draws a panel, but a half-transparent one that ends half a
    padding from the edges; [src/App.tsx] draws no panel at all. *)
Lemma drawWatermark_no_opaque_panel :
  let h := refHost 0 sampleNow false in
  let text := "2024-03-01 14:05:09" in
  let W := 1280%Q in
  let H := 720%Q in
  let padding := (W / 50)%Q in
  let textWidth := measureText h (fontSize sampleLoaded) text in
  ~ opaquePanelThenText W H padding textWidth text
      (newOps sampleLoaded (drawWatermark h Revised text sampleLoaded))
  /\ ~ opaquePanelThenText W H padding textWidth text
         (newOps sampleLoaded (drawWatermark h AppTsx text sampleLoaded)).
Proof.
  split.
  - intros (ps & ts & px & x & y & w & hh & tx & ty & Hops & Halpha & _).
    rewrite (newOps_app _ _ _
               (drawWatermark_ops (refHost 0 sampleNow false) Revised
                  "2024-03-01 14:05:09" sampleLoaded eq_refl)) in Hops.
    injection Hops as <- _. vm_compute in Halpha. discriminate.
  - intros (ps & ts & px & x & y & w & hh & tx & ty & Hops & _).
    rewrite (newOps_app _ _ _
               (drawWatermark_ops (refHost 0 sampleNow false) AppTsx
                  "2024-03-01 14:05:09" sampleLoaded eq_refl)) in Hops.
    discriminate.
Qed.

(** C6, amended.  Wherever the watermark can be drawn, with
    [padding = width / 50]: the revised copy draws a black panel at alpha
    0.5, as wide as the text plus the padding and as high as the font size
    plus half the padding, whose right and bottom edges lie half a padding
    from the frame's, and then the text in white at alpha 0.9, ending one
    padding from the right edge on a baseline one padding above the bottom;
    [src/App.tsx] draws only the text, in white at alpha 0.5, at the same
    place. *)
Theorem drawWatermark_panel (h : Host) (text : string) (s : State) :
  drawable s = true ->
  let W := widthOf s in
  let H := heightOf s in
  let padding := (W / 50)%Q in
  let textWidth := measureText h (fontSize s) text in
  (exists x y w hh tx ty,
      newOps s (drawWatermark h Revised text s)
      = [FillRect (rgba 0 0 0 (1 # 2)) x y w hh;
         FillText (rgba 255 255 255 (9 # 10)) (fontSize s) text tx ty]
      /\ (w == textWidth + padding)%Q
      /\ (hh == inject_Z (fontSize s) + padding / 2)%Q
      /\ (x + w == W - padding / 2)%Q
      /\ (y + hh == H - padding / 2)%Q
      /\ (tx + textWidth == W - padding)%Q
      /\ (ty == H - padding)%Q)
  /\ (exists tx ty,
         newOps s (drawWatermark h AppTsx text s)
         = [FillText (rgba 255 255 255 (1 # 2)) (fontSize s) text tx ty]
         /\ (tx + textWidth == W - padding)%Q
         /\ (ty == H - padding)%Q).
Proof.
  intros Hd W H padding textWidth. split.
  - do 6 eexists. split.
    + apply newOps_app. apply (drawWatermark_ops h Revised text s Hd).
    + fold W H textWidth padding. clearbody W H textWidth padding.
      repeat split; try reflexivity; field.
  - do 2 eexists. split.
    + apply newOps_app. apply (drawWatermark_ops h AppTsx text s Hd).
    + fold W H textWidth padding. clearbody W H textWidth padding.
      repeat split; try reflexivity; field.
Qed.

(** On the sample clip (1280x720, padding 25.6, font size 43). *)
Lemma drawWatermark_panel_witness :
  let h := refHost 0 sampleNow false in
  let text := "2024-03-01 14:05:09" in
  let W := widthOf sampleLoaded in
  let H := heightOf sampleLoaded in
  let padding := (W / 50)%Q in
  let textWidth := measureText h (fontSize sampleLoaded) text in
  (exists x y w hh tx ty,
      newOps sampleLoaded (drawWatermark h Revised text sampleLoaded)
      = [FillRect (rgba 0 0 0 (1 # 2)) x y w hh;
         FillText (rgba 255 255 255 (9 # 10)) 43 text tx ty]
      /\ (w == textWidth + padding)%Q
      /\ (hh == 43 + padding / 2)%Q
      /\ (x + w == W - padding / 2)%Q
      /\ (y + hh == H - padding / 2)%Q
      /\ (tx + textWidth == W - padding)%Q
      /\ (ty == H - padding)%Q)
  /\ (exists tx ty,
         newOps sampleLoaded (drawWatermark h AppTsx text sampleLoaded)
         = [FillText (rgba 255 255 255 (1 # 2)) 43 text tx ty]
         /\ (tx + textWidth == W - padding)%Q
         /\ (ty == H - padding)%Q).
Proof.
  exact (drawWatermark_panel (refHost 0 sampleNow false)
           "2024-03-01 14:05:09" sampleLoaded eq_refl).
Defined.

(* ================================================================== *)
(** ** Finalization *)

(** Take a state apart into its fields. *)
Ltac fields s :=
  destruct s as [file0 start0 name0 url0 busy0 font0 prog0 err0 show0
                 canvas0 video0 rec0 chunks0 done0 interval0 timers0 log0].

(** Split on whatever the goal matches on. *)
Ltac cases :=
  repeat match goal with
         | |- context [match ?x with _ => _ end] => destruct x eqn:?
         | |- context [if ?x then _ else _] => destruct x eqn:?
         end.

Section Watch.

Variable o : Order.

Lemma watchAll_app st l1 l2 :
  watchAll o st (l1 ++ l2)
  = match watchAll o st l1 with
    | Some st' => watchAll o st' l2
    | None => None
    end.
Proof.
  revert st. induction l1 as [|e l1 IH]; intros st; simpl; [reflexivity|].
  destruct (watch o st e); [apply IH|reflexivity].
Qed.

(** Effects that are no step of finalization leave the watch where it is. *)
Lemma watchAll_neutral st l : neutral l = true -> watchAll o st l = Some st.
Proof.
  induction l as [|e l IH]; simpl; intros H; [reflexivity|].
  apply andb_prop in H as [He Hl].
  destruct e as [| | | | | |cb ms| | | | |]; try discriminate; simpl; auto.
  destruct cb; [auto|discriminate].
Qed.

(** Once everything was seen, nothing the component does is out of order. *)
Lemma watchAll_allSeen l : tame l = true -> watchAll o allSeen l = Some allSeen.
Proof.
  induction l as [|e l IH]; simpl; intros H; [reflexivity|].
  apply andb_prop in H as [He Hl].
  destruct e as [| | | | | |cb ms| | | | |]; simpl; auto.
  - destruct o; simpl; auto.
  - destruct o; simpl; auto.
  - destruct cb; simpl; auto. rewrite He. simpl. auto.
Qed.

End Watch.

Lemma neutral_tame l : neutral l = true -> tame l = true.
Proof.
  induction l as [|e l IH]; simpl; intros H; [reflexivity|].
  apply andb_prop in H as [He Hl]. rewrite (IH Hl), andb_true_r.
  destruct e as [| | | | | |cb ms| | | | |]; try reflexivity.
  destruct cb; [reflexivity|discriminate].
Qed.

Lemma noCollect_removeNth i ts :
  noCollect ts = true -> noCollect (removeNth i ts) = true.
Proof.
  revert i. induction ts as [|t ts IH]; intros i H; [now destruct i|].
  simpl in H. apply andb_prop in H as [Ht Hts].
  destruct i; simpl; [assumption|]. unfold noCollect in IH.
  now rewrite Ht, IH.
Qed.

Lemma noCollect_nth i ts cb ms :
  noCollect ts = true -> nth_error ts i = Some (cb, ms) -> cb = HideError.
Proof.
  revert i. induction ts as [|t ts IH]; intros i H E; [now destruct i|].
  simpl in H. apply andb_prop in H as [Ht Hts].
  destruct i; simpl in E.
  - injection E as ->. simpl in Ht. now destruct cb.
  - now apply (IH i).
Qed.

Section RunFacts.

Variable host : Host.
Variable v : Variant.

(** Close a goal [exists l, log' = log ++ l /\ P l] once [log'] is explicit. *)
Ltac delta :=
  simpl; rewrite <- ?app_assoc; simpl;
  first [ exists []; split; [now rewrite app_nil_r|reflexivity]
        | eexists; split; [reflexivity|reflexivity] ].

Lemma displayError_log message s :
  log (displayError message s)
  = (log s ++ [Display message; SetTimeout HideError 5000])%list.
Proof. fields s. simpl. now rewrite <- app_assoc. Qed.

Lemma drawWatermark_log text s :
  log (drawWatermark host v text s) = log s.
Proof.
  fields s. unfold drawWatermark, draw. simpl.
  destruct canvas0 as [canvas|], video0 as [video|]; try reflexivity.
  destruct (ctx2d canvas); [|reflexivity]. now destruct v.
Qed.

(** [renderFrames] only ever records a request for the next frame. *)
Lemma renderFrames_log s :
  exists l, log (renderFrames host v s) = (log s ++ l)%list /\ neutral l = true.
Proof.
  fields s. unfold renderFrames.
  destruct canvas0 as [canvas|], video0 as [video|]; try delta.
  simpl. destruct (ctx2d canvas) eqn:Hc; [|delta].
  destruct (negb (vPaused video) && negb (vEnded video)); [|delta].
  unfold emit. simpl. rewrite drawWatermark_log. delta.
Qed.

(** The effects of [finishProcessing], whatever the state. *)
Lemma finishProcessing_log m s :
  exists l, log (finishProcessing host v m s) = (log s ++ l)%list /\ tame l = true.
Proof.
  fields s. unfold finishProcessing, finishProcessing_try, MediaRecorder_stop.
  destruct v; simpl;
    destruct video0 as [video|], rec0 as [r|]; simpl;
    try destruct (state r); simpl;
    try destruct (stopThrowsWhenInactive host); delta.
Qed.

Lemma collectChunks_log m s :
  exists l, log (collectChunks v m s) = (log s ++ l)%list /\ tame l = true.
Proof.
  fields s. unfold collectChunks.
  destruct v; simpl; [delta|].
  destruct (List.length chunks0 =? 0)%nat; delta.
Qed.

Lemma updateProgress_log s :
  exists l, log (updateProgress s) = (log s ++ l)%list /\ neutral l = true.
Proof.
  fields s. unfold updateProgress.
  destruct video0 as [video|]; [|delta]. simpl.
  destruct (duration video) as [d|]; simpl;
    [destruct (negb (Qeq_bool d 0))|]; simpl; destruct done0; delta.
Qed.

(** Every event only adds to the record, and arms grace timers for
    1000 ms only. *)
Lemma dispatch_log e s :
  exists l, log (dispatch host v e s) = (log s ++ l)%list /\ tame l = true.
Proof.
  destruct e as [t| | |i|data|]; unfold dispatch.
  - fields s. destruct video0 as [video|]; [|delta]. simpl.
    destruct (playing video); delta.
  - destruct (videoRef s) as [video|] eqn:Hv; [|exists []; now rewrite app_nil_r].
    destruct (playing video); [|exists []; now rewrite app_nil_r].
    match goal with |- context [putVideo ?x s] => set (s1 := putVideo x s) end.
    assert (L : log s1 = log s) by (now fields s).
    destruct (onended video) as [m|].
    + unfold onended_handler.
      destruct (finishProcessing_log m (putVideoCompleted true s1)) as (l & E & T).
      exists l. split; [|assumption]. rewrite E. now rewrite <- L.
    + exists []. now rewrite app_nil_r.
  - destruct (updateInterval s); [|exists []; now rewrite app_nil_r].
    destruct (updateProgress_log s) as (l & E & N).
    exists l. split; [assumption|now apply neutral_tame].
  - destruct (nth_error (timers s) i) as [[cb ms]|];
      [|exists []; now rewrite app_nil_r].
    destruct cb as [|m]; simpl.
    + fields s. delta.
    + destruct (collectChunks_log m (putTimers (removeNth i (timers s)) s))
        as (l & E & T).
      exists l. split; [|assumption]. rewrite E. now fields s.
  - fields s. destruct rec0; [|delta]. unfold ondataavailable. simpl.
    destruct (0 <? size data); delta.
  - destruct (renderFrames_log s) as (l & E & N).
    exists l. split; [assumption|now apply neutral_tame].
Qed.

(** While the run is under way and no step of finalization was seen, an
    event either leaves it so or is the end of the stream, which takes
    finalization through all its steps, in the order of the copy. *)
Lemma capturing_step e s :
  capturing s = true ->
  watchAll (orderOf v) nothingSeen (log s) = Some nothingSeen ->
  (capturing (dispatch host v e s) = true
   /\ watchAll (orderOf v) nothingSeen (log (dispatch host v e s))
      = Some nothingSeen)
  \/ watchAll (orderOf v) nothingSeen (log (dispatch host v e s)) = Some allSeen.
Proof.
  intros Hc Hw. fields s. unfold capturing in Hc. simpl in Hc, Hw.
  destruct video0 as [[pa en ct du vw vh mu oe]|]; [|discriminate].
  destruct rec0 as [[st mt]|]; [|discriminate]. simpl in Hc.
  repeat (apply andb_prop in Hc as [Hc ?]).
  destruct pa; [discriminate|]. destruct en; [discriminate|].
  destruct oe as [m|]; [|discriminate]. destruct st; try discriminate.
  destruct done0; [discriminate|].
  destruct e as [t| | |i|data|].
  - left. simpl. unfold capturing. simpl. split; [|assumption].
    now rewrite H.
  - right. simpl.
    unfold onended_handler, finishProcessing, finishProcessing_try,
      MediaRecorder_stop.
    destruct v; simpl in Hw |- *;
      rewrite <- !app_assoc, watchAll_app, Hw; reflexivity.
  - left. simpl. destruct interval0; [|unfold capturing; simpl; now rewrite H].
    unfold updateProgress. simpl.
    destruct du as [d|]; simpl; [destruct (negb (Qeq_bool d 0)); simpl|];
      unfold capturing; simpl; rewrite H; (split; [reflexivity|]);
      first [assumption|rewrite <- ?app_assoc, watchAll_app, Hw; reflexivity].
  - simpl. destruct (nth_error timers0 i) as [[cb ms]|] eqn:E;
      [|left; unfold capturing; simpl; now rewrite H].
    rewrite (noCollect_nth i timers0 cb ms H E). left. simpl.
    unfold capturing. simpl. rewrite noCollect_removeNth by assumption.
    now split.
  - left. simpl. unfold ondataavailable. simpl.
    destruct (0 <? size data); unfold capturing; simpl; now rewrite H.
  - left. simpl. unfold renderFrames. simpl.
    destruct canvas0 as [canvas|]; simpl;
      [|unfold capturing; simpl; now rewrite H].
    destruct (ctx2d canvas) eqn:Hx; simpl;
      [|unfold capturing; simpl; now rewrite H].
    unfold drawWatermark, draw, emit. simpl. rewrite Hx.
    destruct v; simpl in Hw |- *; unfold capturing; simpl; rewrite H;
      (split; [reflexivity|]);
      first [assumption|rewrite <- ?app_assoc, watchAll_app, Hw; reflexivity].
Qed.

(** After finalization, every further event keeps the record in order. *)
Lemma allSeen_run es s :
  watchAll (orderOf v) nothingSeen (log s) = Some allSeen ->
  watchAll (orderOf v) nothingSeen (log (run host v es s)) = Some allSeen.
Proof.
  revert s. induction es as [|e es IH]; intros s H; [assumption|].
  simpl. apply IH.
  destruct (dispatch_log e s) as (l & E & T).
  rewrite E, watchAll_app, H. now apply watchAll_allSeen.
Qed.

(** A run keeps the order of its copy. *)
Lemma capturing_run es s :
  capturing s = true ->
  watchAll (orderOf v) nothingSeen (log s) = Some nothingSeen ->
  inOrder (orderOf v) (log (run host v es s)) = true.
Proof.
  revert s. induction es as [|e es IH]; intros s Hc Hw.
  - unfold inOrder. simpl. now rewrite Hw.
  - simpl. destruct (capturing_step e s Hc Hw) as [[Hc' Hw']|Hd].
    + now apply IH.
    + unfold inOrder. now rewrite (allSeen_run es _ Hd).
Qed.

(** [renderFrames] touches the canvas and the record only, and records
    at most the request for the next frame. *)
Lemma renderFrames_frame s :
  exists c l,
    renderFrames host v s = putLog (log s ++ l) (putCanvas c s)
    /\ (l = [] \/ l = [RequestAnimationFrame]).
Proof.
  fields s. unfold renderFrames. simpl.
  destruct canvas0 as [canvas|];
    [|exists None, []; rewrite app_nil_r; split; [reflexivity|auto]].
  destruct video0 as [video|];
    [|exists (Some canvas), []; rewrite app_nil_r; split; [reflexivity|auto]].
  destruct (ctx2d canvas) eqn:Hx;
    [|exists (Some canvas), []; rewrite app_nil_r; split; [reflexivity|auto]].
  destruct (negb (vPaused video) && negb (vEnded video));
    [|exists (Some canvas), []; rewrite app_nil_r; split; [reflexivity|auto]].
  unfold drawWatermark, draw, emit. simpl. rewrite Hx.
  destruct v; simpl; eexists; exists [RequestAnimationFrame];
    (split; [reflexivity|auto]).
Qed.

(** When the host can record, negotiation leaves the state alone. *)
Lemma checkMimeTypeSupport_some s m :
  fst (checkMimeTypeSupport host v s) = Some m ->
  checkMimeTypeSupport host v s = (Some m, s).
Proof.
  unfold checkMimeTypeSupport. destruct v; cases; simpl; congruence.
Qed.

(** The state [processVideo] hands to [renderFrames] when playback starts. *)
Lemma start_eq s m canvas video :
  isProcessing s = false ->
  canvasRef s = Some canvas ->
  videoRef s = Some video ->
  fst (checkMimeTypeSupport host v s) = Some m ->
  start host v s
  = renderFrames host v
      (s |> setIsProcessing true
         |> putAllChunks []
         |> setProgress 0
         |> putRecorder (Some (mkRecorder inactive (mimeType_of m)))
         |> putVideoCompleted false
         |> emit (RecorderStart 1000)
         |> putRecorder (Some (mkRecorder recording (mimeType_of m)))
         |> putVideo (Some (mkVideo (vPaused video) (vEnded video) 0
                                    (duration video) (videoWidth video)
                                    (videoHeight video) true (Some m)))
         |> emit VideoPlay
         |> putVideo (Some (mkVideo false false 0 (duration video)
                                    (videoWidth video) (videoHeight video)
                                    true (Some m)))
         |> putUpdateInterval true
         |> emit (SetInterval 200)).
Proof.
  intros Hb Hc Hv Hm. unfold start, processVideo.
  rewrite Hb, Hc, Hv, (checkMimeTypeSupport_some s m Hm). reflexivity.
Qed.

Lemma ready_fields s :
  ready host v s = true ->
  exists m canvas video,
    isProcessing s = false /\ canvasRef s = Some canvas
    /\ videoRef s = Some video
    /\ fst (checkMimeTypeSupport host v s) = Some m
    /\ noCollect (timers s) = true /\ log s = [].
Proof.
  unfold ready. intros H.
  do 4 (apply andb_prop in H as [H ?]).
  destruct (isProcessing s); [discriminate|].
  destruct (canvasRef s) as [canvas|]; [|discriminate].
  destruct (videoRef s) as [video|]; [|discriminate].
  destruct (fst (checkMimeTypeSupport host v s)) as [m|]; [|discriminate].
  destruct (log s); [|discriminate].
  exists m, canvas, video. tauto.
Qed.

(** [processVideo] with playback starting, from a ready state. *)
Lemma start_capturing s :
  ready host v s = true ->
  capturing (start host v s) = true
  /\ neutral (log (start host v s)) = true.
Proof.
  intros H. destruct (ready_fields s H) as (m & canvas & video & Hb & Hc & Hv & Hm & Ht & Hl).
  rewrite (start_eq s m canvas video Hb Hc Hv Hm).
  match goal with |- context [renderFrames host v ?x] =>
    destruct (renderFrames_frame x) as (c & l & E & N); rewrite E
  end.
  fields s. simpl in *. subst log0. unfold capturing. simpl.
  rewrite Ht. split; [reflexivity|]. now destruct N as [->| ->].
Qed.

End RunFacts.

(* ------------------------------------------------------------------ *)
(** *** The order of finalization *)

(** What [finishProcessing] does while the run is under way. *)
Lemma finishProcessing_effects (h : Host) (v : Variant)
      (m : MimeTypeSupport) (s : State) :
  capturing s = true ->
  log (finishProcessing h v m s)
  = (log s
       ++ match v with
          | AppTsx => [VideoPause; RecorderStop]
          | Revised => [RecorderStop; VideoPause]
          end
       ++ [SetProgress 100; SetTimeout (CollectChunks m) 1000])%list
  /\ videoURL (finishProcessing h v m s) = videoURL s.
Proof.
  intros Hc. fields s. unfold capturing in Hc. simpl in Hc.
  destruct video0 as [video|]; [|discriminate].
  destruct rec0 as [[st mt]|]; [|discriminate]. simpl in Hc.
  destruct st; try (now rewrite !andb_false_r in Hc).
  unfold finishProcessing, finishProcessing_try, MediaRecorder_stop.
  destruct v; simpl; rewrite <- !app_assoc; split; reflexivity.
Qed.

(** C9, as stated, fails on the revised copy: at the end of the sample
    clip it stops the recorder, and only then pauses the source. *)
Lemma finalization_not_pause_first :
  ready (refHost 0 sampleNow false) Revised
        (sampleReady (refHost 0 sampleNow false)) = true
  /\ skipn (List.length
              (log (start (refHost 0 sampleNow false) Revised
                      (sampleReady (refHost 0 sampleNow false)))))
           (log (run (refHost 0 sampleNow false) Revised [Ended]
                   (start (refHost 0 sampleNow false) Revised
                      (sampleReady (refHost 0 sampleNow false)))))
     = [RecorderStop; VideoPause; SetProgress 100;
        SetTimeout
          (CollectChunks
             (mkMime "mp4" (mkOpt "video/mp4; codecs=avc1" (Some 10000000))))
          1000]
  /\ inOrder PauseFirst
       (log (run (refHost 0 sampleNow false) Revised [Ended; Timeout 0]
               (start (refHost 0 sampleNow false) Revised
                  (sampleReady (refHost 0 sampleNow false)))))
     = false.
Proof. repeat split; vm_compute; reflexivity. Qed.

(** C9, amended.  In every run, the source is paused and the recorder
    stopped before the grace timer is armed, the timer is armed for
    1000 ms, and the segments are concatenated only by the callback of
    that timer; [src/App.tsx] pauses the source first and then stops the
    recorder, the revised copy stops the recorder first and then pauses
    the source. *)
Theorem finalization_order (h : Host) (v : Variant) (s : State)
        (es : list Event) :
  ready h v s = true ->
  inOrder (orderOf v) (log (run h v es (start h v s))) = true
  /\ forall m s',
       capturing s' = true ->
       log (finishProcessing h v m s')
       = (log s'
            ++ match v with
               | AppTsx => [VideoPause; RecorderStop]
               | Revised => [RecorderStop; VideoPause]
               end
            ++ [SetProgress 100; SetTimeout (CollectChunks m) 1000])%list
       /\ videoURL (finishProcessing h v m s') = videoURL s'.
Proof.
  intros Hr. split.
  - destruct (start_capturing h v s Hr) as [Hc Hn].
    apply capturing_run; [assumption|].
    now apply watchAll_neutral.
  - intros m s'. apply finishProcessing_effects.
Qed.

(** The sample clip in both copies: a position, a progress tick, one
    segment, the end, a last tick, and the grace timer. *)
Lemma finalization_order_witness :
  (inOrder PauseFirst
     (log (run (refHost 0 sampleNow false) AppTsx
             [Playback 5; IntervalTick; DataAvailable sampleSegment; Ended;
              IntervalTick; Timeout 0]
             (start (refHost 0 sampleNow false) AppTsx
                (sampleReady (refHost 0 sampleNow false))))) = true
   /\ forall m s',
        capturing s' = true ->
        log (finishProcessing (refHost 0 sampleNow false) AppTsx m s')
        = (log s' ++ [VideoPause; RecorderStop]
             ++ [SetProgress 100; SetTimeout (CollectChunks m) 1000])%list
        /\ videoURL (finishProcessing (refHost 0 sampleNow false) AppTsx m s')
           = videoURL s')
  /\ (inOrder StopFirst
        (log (run (refHost 0 sampleNow false) Revised
                [Playback 5; IntervalTick; DataAvailable sampleSegment; Ended;
                 IntervalTick; Timeout 0]
                (start (refHost 0 sampleNow false) Revised
                   (sampleReady (refHost 0 sampleNow false))))) = true
      /\ forall m s',
           capturing s' = true ->
           log (finishProcessing (refHost 0 sampleNow false) Revised m s')
           = (log s' ++ [RecorderStop; VideoPause]
                ++ [SetProgress 100; SetTimeout (CollectChunks m) 1000])%list
           /\ videoURL (finishProcessing (refHost 0 sampleNow false) Revised m s')
              = videoURL s').
Proof.
  split.
  - exact (finalization_order (refHost 0 sampleNow false) AppTsx
             (sampleReady (refHost 0 sampleNow false)) _ eq_refl).
  - exact (finalization_order (refHost 0 sampleNow false) Revised
             (sampleReady (refHost 0 sampleNow false)) _ eq_refl).
Defined.

(* ------------------------------------------------------------------ *)
(** *** An empty capture *)

(** C4 fails on [src/App.tsx]: with no segment collected, the timer
    callback builds a Blob of zero bytes and publishes it, with no message
    at all.  The sample run ends that way when the recorder hands over
    nothing before the grace timer expires. *)
Theorem AppTsx_publishes_empty_capture (m : MimeTypeSupport) (s : State) :
  (let s' := collectChunks AppTsx m (putAllChunks [] s) in
   videoURL s' = Some (mkBlob [] ("video/" ++ ext m))
   /\ isProcessing s' = false
   /\ error s' = error s /\ showError s' = showError s
   /\ log s' = (log s ++ [CreateBlob 0])%list)
  /\ (let h := refHost 0 sampleNow false in
      let s' := run h AppTsx [Ended; Timeout 0] (start h AppTsx (sampleReady h)) in
      allChunks s' = []
      /\ videoURL s' = Some (mkBlob [] "video/mp4")
      /\ showError s' = false).
Proof.
  split.
  - fields s. simpl. repeat split; reflexivity.
  - vm_compute. repeat split; reflexivity.
Qed.

(** The revised copy refuses an empty capture: the message is shown, the
    run is released, and nothing is published. *)
Lemma Revised_refuses_empty_capture (m : MimeTypeSupport) (s : State) :
  allChunks s = [] ->
  let s' := collectChunks Revised m s in
  videoURL s' = videoURL s
  /\ isProcessing s' = false
  /\ error s' = "没有收集到视频数据" /\ showError s' = true
  /\ log s' = (log s ++ [Display "没有收集到视频数据"; SetTimeout HideError 5000])%list.
Proof.
  intros H. fields s. simpl in H. subst chunks0. simpl.
  rewrite <- !app_assoc. repeat split; reflexivity.
Qed.

Lemma Revised_refuses_empty_capture_witness :
  let s' := collectChunks Revised (mkMime "webm" (mkOpt "video/webm" None)) idle in
  videoURL s' = None
  /\ isProcessing s' = false
  /\ error s' = "没有收集到视频数据" /\ showError s' = true
  /\ log s' = [Display "没有收集到视频数据"; SetTimeout HideError 5000].
Proof.
  exact (Revised_refuses_empty_capture
           (mkMime "webm" (mkOpt "video/webm" None)) idle eq_refl).
Defined.

(** In the revised copy, whatever the timer callback publishes is the
    concatenation, in order, of at least one segment. *)
Lemma Revised_artifact_from_segments (m : MimeTypeSupport) (s : State) (blob : Blob) :
  videoURL s = None ->
  videoURL (collectChunks Revised m s) = Some blob ->
  (1 <= List.length (allChunks s))%nat
  /\ blobBytes blob = List.concat (map blobBytes (allChunks s)).
Proof.
  intros Hn H. fields s. simpl in *. subst url0.
  destruct chunks0 as [|c chunks]; simpl in H; [discriminate|].
  injection H as <-. split; [simpl; lia|reflexivity].
Qed.

Lemma Revised_artifact_from_segments_witness :
  (1 <= List.length [sampleSegment; sampleSegment])%nat
  /\ blobBytes (mkBlob [Byte.x1a; Byte.x45; Byte.x1a; Byte.x45] "video/webm")
     = List.concat (map blobBytes [sampleSegment; sampleSegment]).
Proof.
  exact (Revised_artifact_from_segments
           (mkMime "webm" (mkOpt "video/webm" None))
           (putAllChunks [sampleSegment; sampleSegment] idle)
           (mkBlob [Byte.x1a; Byte.x45; Byte.x1a; Byte.x45] "video/webm")
           eq_refl eq_refl).
Defined.

(* ------------------------------------------------------------------ *)
(** *** Stopping an inactive recorder *)

(** C5 fails on [src/App.tsx] where the host throws on [stop()] while
    inactive: the call is made without a look at the recorder's state,
    the error lands in the [catch], a message is shown, and finalization
    ends there, with no grace timer armed. *)
Theorem AppTsx_stop_inactive_shows_error
        (h : Host) (m : MimeTypeSupport) (s : State) (r : MediaRecorder) :
  stopThrowsWhenInactive h = true ->
  recorderRef s = Some r ->
  state r = inactive ->
  let s' := finishProcessing h AppTsx m s in
  error s' = "处理结束时出错: InvalidStateError"
  /\ showError s' = true
  /\ isProcessing s' = false
  /\ videoURL s' = videoURL s
  /\ allChunks s' = allChunks s
  /\ timers s' = (timers s ++ [(HideError, 5000)])%list.
Proof.
  intros Hh Hr Hi. fields s. simpl in Hr. subst rec0.
  destruct r as [st mt]. simpl in Hi. subst st.
  unfold finishProcessing, finishProcessing_try, MediaRecorder_stop.
  destruct video0; simpl; rewrite Hh; simpl; rewrite <- ?app_assoc;
    repeat split; reflexivity.
Qed.

(** The sample run, ended twice over on a host that throws. *)
Lemma AppTsx_stop_inactive_shows_error_witness :
  let h := refHost 0 sampleNow true in
  let s := finishProcessing h AppTsx (mkMime "mp4" (mkOpt "video/mp4" None))
             (start h AppTsx (sampleReady h)) in
  let s' := finishProcessing h AppTsx (mkMime "mp4" (mkOpt "video/mp4" None)) s in
  error s' = "处理结束时出错: InvalidStateError"
  /\ showError s' = true
  /\ isProcessing s' = false
  /\ videoURL s' = videoURL s
  /\ allChunks s' = allChunks s
  /\ timers s' = (timers s ++ [(HideError, 5000)])%list.
Proof.
  exact (AppTsx_stop_inactive_shows_error (refHost 0 sampleNow true)
           (mkMime "mp4" (mkOpt "video/mp4" None))
           (finishProcessing (refHost 0 sampleNow true) AppTsx
              (mkMime "mp4" (mkOpt "video/mp4" None))
              (start (refHost 0 sampleNow true) AppTsx
                 (sampleReady (refHost 0 sampleNow true))))
           (mkRecorder inactive "video/mp4") eq_refl eq_refl eq_refl).
Defined.

(** In the revised copy, stopping an inactive recorder is a no-op on any
    host: [stop()] is not called, nothing is appended to the segments, no
    message is shown, and finalization goes on to its grace timer. *)
Lemma Revised_stop_inactive_noop
      (h : Host) (m : MimeTypeSupport) (s : State) (r : MediaRecorder) :
  recorderRef s = Some r ->
  state r = inactive ->
  let s' := finishProcessing h Revised m s in
  recorderRef s' = recorderRef s
  /\ allChunks s' = allChunks s
  /\ error s' = error s /\ showError s' = showError s
  /\ exists l, log s' = (log s ++ l)%list /\ ~ In RecorderStop l
  /\ In (SetTimeout (CollectChunks m) 1000) l.
Proof.
  intros Hr Hi. fields s. simpl in Hr. subst rec0.
  destruct r as [st mt]. simpl in Hi. subst st.
  unfold finishProcessing, finishProcessing_try. simpl.
  destruct video0; simpl; rewrite <- ?app_assoc;
    repeat split; try reflexivity; eexists; (split; [reflexivity|]);
    simpl; split; try tauto; intros H;
    repeat (destruct H as [H|H]; try discriminate); assumption.
Qed.

(** Finishing twice in a row in the revised copy, on any host: the
    second call leaves recorder and segments as the first left them. *)
Lemma Revised_stop_twice (h : Host) (m : MimeTypeSupport) (s : State) :
  let s1 := finishProcessing h Revised m s in
  let s2 := finishProcessing h Revised m s1 in
  recorderRef s2 = recorderRef s1
  /\ allChunks s2 = allChunks s
  /\ error s2 = error s /\ showError s2 = showError s.
Proof.
  fields s. unfold finishProcessing, finishProcessing_try, MediaRecorder_stop.
  simpl. destruct rec0 as [[st mt]|], video0 as [video|]; simpl;
    try destruct st; simpl; repeat split; reflexivity.
Qed.

(** The sample run in the revised copy, ended twice over on a host that
    throws: the second call finds the recorder inactive and leaves it. *)
Lemma Revised_stop_inactive_noop_witness :
  let h := refHost 0 sampleNow true in
  let m := mkMime "webm" (mkOpt "video/webm" None) in
  let s := finishProcessing h Revised m (start h Revised (sampleReady h)) in
  let s' := finishProcessing h Revised m s in
  recorderRef s' = recorderRef s
  /\ allChunks s' = allChunks s
  /\ error s' = error s /\ showError s' = showError s
  /\ exists l, log s' = (log s ++ l)%list /\ ~ In RecorderStop l
  /\ In (SetTimeout (CollectChunks m) 1000) l.
Proof.
  exact (Revised_stop_inactive_noop (refHost 0 sampleNow true)
           (mkMime "webm" (mkOpt "video/webm" None))
           (finishProcessing (refHost 0 sampleNow true) Revised
              (mkMime "webm" (mkOpt "video/webm" None))
              (start (refHost 0 sampleNow true) Revised
                 (sampleReady (refHost 0 sampleNow true))))
           (mkRecorder inactive "video/mp4; codecs=avc1") eq_refl eq_refl).
Defined.

(** On a host where [stop()] returns silently while inactive,
    [src/App.tsx] shows no message either, and arms its grace timer. *)
Lemma AppTsx_stop_inactive_silent_host
      (h : Host) (m : MimeTypeSupport) (s : State) (r : MediaRecorder) :
  stopThrowsWhenInactive h = false ->
  recorderRef s = Some r ->
  state r = inactive ->
  let s' := finishProcessing h AppTsx m s in
  recorderRef s' = recorderRef s
  /\ allChunks s' = allChunks s
  /\ error s' = error s /\ showError s' = showError s
  /\ timers s' = (timers s ++ [(CollectChunks m, 1000)])%list.
Proof.
  intros Hh Hr Hi. fields s. simpl in Hr. subst rec0.
  destruct r as [st mt]. simpl in Hi. subst st.
  unfold finishProcessing, finishProcessing_try, MediaRecorder_stop.
  destruct video0; simpl; rewrite Hh; simpl; repeat split; reflexivity.
Qed.

Lemma AppTsx_stop_inactive_silent_host_witness :
  let h := refHost 0 sampleNow false in
  let m := mkMime "mp4" (mkOpt "video/mp4" None) in
  let s := finishProcessing h AppTsx m (start h AppTsx (sampleReady h)) in
  let s' := finishProcessing h AppTsx m s in
  recorderRef s' = recorderRef s
  /\ allChunks s' = allChunks s
  /\ error s' = error s /\ showError s' = showError s
  /\ timers s' = (timers s ++ [(CollectChunks m, 1000)])%list.
Proof.
  exact (AppTsx_stop_inactive_silent_host (refHost 0 sampleNow false)
           (mkMime "mp4" (mkOpt "video/mp4" None))
           (finishProcessing (refHost 0 sampleNow false) AppTsx
              (mkMime "mp4" (mkOpt "video/mp4" None))
              (start (refHost 0 sampleNow false) AppTsx
                 (sampleReady (refHost 0 sampleNow false))))
           (mkRecorder inactive "video/mp4") eq_refl eq_refl eq_refl).
Defined.

(* ================================================================== *)
(** ** Progress *)

Section ProgressFacts.

Lemma published_app l1 l2 :
  published (l1 ++ l2) = (published l1 ++ published l2)%list.
Proof.
  induction l1 as [|e l1 IH]; simpl; [reflexivity|].
  destruct e; simpl; now rewrite ?IH.
Qed.

Lemma samples_app l1 l2 : samples (l1 ++ l2) = (samples l1 + samples l2)%nat.
Proof.
  induction l1 as [|e l1 IH]; simpl; [reflexivity|].
  destruct e; simpl; now rewrite ?IH.
Qed.

Lemma nondecreasing_snoc l q :
  nondecreasing l -> Forall (fun p => p <= q)%Q l -> nondecreasing (l ++ [q]).
Proof.
  induction l as [|p l IH]; simpl; intros Hs Hb; [exact I|].
  inversion Hb as [|? ? Hp Hl]; subst.
  destruct l as [|p' l]; simpl in *; [split; [assumption|exact I]|].
  destruct Hs as [Hpp Hs]. split; [assumption|]. now apply IH.
Qed.

Lemma Forall_le_snoc l q b :
  Forall (fun p => p <= b)%Q l -> (q <= b)%Q ->
  Forall (fun p => p <= b)%Q (l ++ [q]).
Proof. intros Hl Hq. apply Forall_app. split; [assumption|]. now constructor. Qed.

Lemma Forall_le_weaken l a b :
  Forall (fun p => p <= a)%Q l -> (a <= b)%Q -> Forall (fun p => p <= b)%Q l.
Proof.
  intros Hl Hab. eapply Forall_impl; [|exact Hl].
  intros p Hp. simpl in Hp. now apply Qle_trans with a.
Qed.

Variable d : Q.
Hypothesis d_pos : (0 < d)%Q.

Lemma percent_mono a b : (a <= b)%Q -> (a / d * 100 <= b / d * 100)%Q.
Proof.
  intros H. apply Qmult_le_compat_r; [|discriminate].
  unfold Qdiv. apply Qmult_le_compat_r; [assumption|].
  apply Qlt_le_weak, Qinv_lt_0_compat, d_pos.
Qed.

Lemma percent_lt a : (a < d)%Q -> (a / d * 100 < 100)%Q.
Proof.
  intros H.
  assert (a / d < 1)%Q.
  { apply Qlt_shift_div_r; [exact d_pos|]. now rewrite Qmult_1_l. }
  lra.
Qed.

Lemma percent_le a : (a <= d)%Q -> (a / d * 100 <= 100)%Q.
Proof.
  intros H.
  assert (a / d <= 1)%Q.
  { apply Qle_shift_div_r; [exact d_pos|]. now rewrite Qmult_1_l. }
  lra.
Qed.

Lemma percent_end : (d / d * 100 == 100)%Q.
Proof. field. intros E. rewrite E in d_pos. discriminate. Qed.

Lemma truthy_pos : truthy (Some d) = true.
Proof.
  unfold truthy. destruct (Qeq_bool d 0) eqn:E; [|reflexivity].
  apply Qeq_bool_iff in E. rewrite E in d_pos. discriminate.
Qed.

End ProgressFacts.

Section ProgressRun.

Variable host : Host.
Variable v : Variant.
Variable d : Q.
Hypothesis d_pos : (0 < d)%Q.

(** Before the end of the stream, an event other than the end keeps the
    run tracking, at the position the host moved to. *)
Lemma tracking_step e lo s :
  tracking d lo s ->
  match e with
  | Playback t => (lo <= t)%Q /\ (t <= d)%Q
  | Ended => False
  | _ => True
  end ->
  tracking d (match e with Playback t => t | _ => lo end) (dispatch host v e s).
Proof.
  unfold tracking. intros (Hc & Hd & Hp & H0 & Hlt & Hs & Hb) He.
  fields s. unfold capturing in Hc. unfold durationOf in Hd.
  unfold positionOf in Hp. simpl in Hc, Hd, Hp, Hs, Hb.
  destruct video0 as [[pa en ct du vw vh mu oe]|]; [|discriminate].
  destruct rec0 as [[st mt]|]; [|discriminate]. simpl in Hc, Hd, Hp.
  repeat (apply andb_prop in Hc as [Hc ?]).
  destruct pa; [discriminate|]. destruct en; [discriminate|].
  destruct oe as [m|]; [|discriminate]. destruct st; try discriminate.
  destruct done0; [discriminate|]. subst du ct.
  destruct e as [t| | |i|data|].
  - destruct He as [Hlo Ht]. simpl. unfold capturing. simpl. rewrite H.
    repeat split; try assumption; try reflexivity.
    + now apply Qle_trans with lo.
    + apply Forall_le_weaken with (lo / d * 100)%Q; [assumption|].
      now apply percent_mono.
  - contradiction.
  - simpl. destruct interval0;
      [|unfold capturing; simpl; rewrite H; repeat split; assumption || reflexivity].
    unfold updateProgress. simpl.
    change (negb (Qeq_bool d 0)) with (truthy (Some d)).
    rewrite (truthy_pos d d_pos). simpl. unfold capturing. simpl. rewrite H.
    rewrite !published_app. simpl. rewrite app_nil_r.
    repeat split; try assumption; try reflexivity.
    + now apply nondecreasing_snoc.
    + apply Forall_le_snoc; [assumption|apply Qle_refl].
  - simpl. destruct (nth_error timers0 i) as [[cb ms]|] eqn:E;
      [|unfold capturing; simpl; rewrite H; repeat split; assumption || reflexivity].
    rewrite (noCollect_nth i timers0 cb ms H E). simpl.
    unfold capturing. simpl. rewrite noCollect_removeNth by assumption.
    repeat split; assumption || reflexivity.
  - simpl. unfold ondataavailable. simpl.
    destruct (0 <? size data); unfold capturing; simpl; rewrite H;
      repeat split; assumption || reflexivity.
  - simpl. unfold renderFrames. simpl.
    destruct canvas0 as [canvas|]; simpl;
      [|unfold capturing; simpl; rewrite H; repeat split; assumption || reflexivity].
    destruct (ctx2d canvas) eqn:Hx; simpl;
      [|unfold capturing; simpl; rewrite H; repeat split; assumption || reflexivity].
    unfold drawWatermark, draw, emit. simpl. rewrite Hx.
    destruct v; simpl; unfold capturing; simpl; rewrite H;
      rewrite published_app; simpl; rewrite app_nil_r;
      repeat split; assumption || reflexivity.
Qed.

(** The end of the stream: 100 is published, after everything else. *)
Lemma tracking_end lo s :
  tracking d lo s ->
  finishing d (samples (log s)) (dispatch host v Ended s).
Proof.
  unfold tracking, finishing. intros (Hc & Hd & Hp & H0 & Hlt & Hs & Hb).
  fields s. unfold capturing in Hc. unfold durationOf in Hd.
  unfold positionOf in Hp. simpl in Hc, Hd, Hp, Hs, Hb.
  destruct video0 as [[pa en ct du vw vh mu oe]|]; [|discriminate].
  destruct rec0 as [[st mt]|]; [|discriminate]. simpl in Hc, Hd, Hp.
  repeat (apply andb_prop in Hc as [Hc ?]).
  destruct pa; [discriminate|]. destruct en; [discriminate|].
  destruct oe as [m|]; [|discriminate]. destruct st; try discriminate.
  destruct done0; [discriminate|]. subst du ct.
  assert (B : Forall (fun p => p <= 100)%Q (published log0)).
  { apply Forall_le_weaken with (lo / d * 100)%Q; [assumption|].
    now apply percent_le. }
  simpl.
  unfold onended_handler, finishProcessing, finishProcessing_try,
    MediaRecorder_stop.
  destruct v; simpl; rewrite !published_app, !samples_app; simpl;
    rewrite ?app_nil_r, ?Nat.add_0_r;
    (repeat split; try reflexivity;
     [now apply nondecreasing_snoc
     |apply Forall_le_snoc; [assumption|apply Qle_refl]
     |destruct interval0; lia]).
Qed.

(** After the end of the stream, whatever happens: at most one more
    sample, and it publishes 100 again. *)
Lemma finishing_step e n s :
  finishing d n s -> finishing d n (dispatch host v e s).
Proof.
  unfold finishing. intros (Hv & Hd & Hs & Hb & Hn).
  fields s. simpl in Hv, Hd, Hs, Hb, Hn.
  destruct video0 as [[pa en ct du vw vh mu oe]|]; [|contradiction].
  destruct Hv as (Hpa & Hct & Hdu). simpl in Hpa, Hct, Hdu. subst pa ct du done0.
  destruct e as [t| | |i|data|]; simpl.
  - repeat split; assumption.
  - repeat split; assumption.
  - destruct interval0; [|simpl; repeat split; assumption].
    unfold updateProgress. simpl.
    change (negb (Qeq_bool d 0)) with (truthy (Some d)).
    rewrite (truthy_pos d d_pos). simpl.
    rewrite !published_app, !samples_app. simpl.
    rewrite ?app_nil_r, ?Nat.add_0_r.
    repeat split; try reflexivity.
    + apply nondecreasing_snoc; [assumption|].
      eapply Forall_impl; [|exact Hb]. intros p Hp. simpl in Hp.
      rewrite (percent_end d d_pos). assumption.
    + apply Forall_le_snoc; [assumption|].
      rewrite (percent_end d d_pos). apply Qle_refl.
    + lia.
  - destruct (nth_error timers0 i) as [[cb ms]|];
      [|simpl; repeat split; assumption].
    destruct cb as [|m]; simpl; [repeat split; assumption|].
    unfold collectChunks.
    destruct v; simpl; [|destruct (List.length chunks0 =? 0)%nat; simpl];
      rewrite ?published_app, ?samples_app; simpl;
      rewrite ?app_nil_r, ?Nat.add_0_r; repeat split; assumption.
  - destruct rec0; simpl; [|repeat split; assumption].
    unfold ondataavailable. simpl.
    destruct (0 <? size data); simpl; repeat split; assumption.
  - unfold renderFrames. simpl.
    destruct canvas0 as [canvas|]; simpl; [|repeat split; assumption].
    destruct (ctx2d canvas); simpl; repeat split; assumption.
Qed.

End ProgressRun.

Section ProgressTracker.

Variable host : Host.
Variable v : Variant.
Variable d : Q.
Hypothesis d_pos : (0 < d)%Q.

Lemma run_app a b s :
  run host v (a ++ b) s = run host v b (run host v a s).
Proof. unfold run. apply fold_left_app. Qed.

Lemma run_cons e es s :
  run host v (e :: es) s = run host v es (dispatch host v e s).
Proof. reflexivity. Qed.

Lemma noEnded_split es :
  noEnded es = true
  \/ exists pre post, es = (pre ++ Ended :: post)%list /\ noEnded pre = true.
Proof.
  induction es as [|e es IH]; [now left|].
  destruct e as [t| | |i|data|];
    try (destruct IH as [IH|(pre & post & -> & Hp)];
         [now left
         |right; eexists (_ :: pre), post; split; [reflexivity|exact Hp]]).
  right. exists [], es. now split.
Qed.

Lemma forward_app lo pre post :
  forward d lo (pre ++ post) -> forward d lo pre.
Proof.
  revert lo. induction pre as [|e pre IH]; intros lo H; [exact I|].
  destruct e as [t| | |i|data|]; simpl in *; try now apply IH.
  destruct H as (H1 & H2 & H3). repeat split; try assumption. now apply IH.
Qed.

(** Before the end of the stream the run keeps tracking; and where it
    started before the end and every position reported lies before the
    end, it is still before the end. *)
Lemma tracking_run pre lo s :
  tracking d lo s -> noEnded pre = true -> forward d lo pre ->
  exists lo',
    tracking d lo' (run host v pre s)
    /\ ((lo < d)%Q -> below d pre -> (lo' < d)%Q).
Proof.
  revert lo s. induction pre as [|e pre IH]; intros lo s Ht Hn Hf.
  - exists lo. now split.
  - simpl in Hn. apply andb_prop in Hn as [He Hn]. simpl run.
    assert (T : tracking d (match e with Playback t => t | _ => lo end)
                          (dispatch host v e s)).
    { apply tracking_step; [assumption|assumption|].
      destruct e; simpl in Hf; try exact I; try discriminate. tauto. }
    destruct (IH (match e with Playback t => t | _ => lo end) _ T Hn)
      as (lo' & T' & B).
    { destruct e; simpl in Hf; try assumption. tauto. }
    exists lo'. split; [assumption|].
    intros Hlo Hb. apply B; destruct e; simpl in Hb; tauto.
Qed.

(** After the end of the stream the run keeps finishing. *)
Lemma finishing_run es n s :
  finishing d n s -> finishing d n (run host v es s).
Proof.
  revert s. induction es as [|e es IH]; intros s H; [assumption|].
  simpl. apply IH. now apply finishing_step.
Qed.

Lemma tracking_below lo s :
  tracking d lo s -> (lo < d)%Q ->
  Forall (fun p => p < 100)%Q (published (log s)).
Proof.
  intros (_ & _ & _ & _ & _ & _ & Hb) Hlt.
  eapply Forall_impl; [|exact Hb]. intros p Hp. simpl in Hp.
  apply Qle_lt_trans with (lo / d * 100)%Q; [assumption|].
  now apply percent_lt.
Qed.

Lemma tracking_bounded lo s :
  tracking d lo s -> Forall (fun p => p <= 100)%Q (published (log s)).
Proof.
  intros (_ & _ & _ & _ & Hle & _ & Hb).
  apply Forall_le_weaken with (lo / d * 100)%Q; [assumption|].
  now apply percent_le.
Qed.

(** [processVideo] publishes 0 and starts tracking at position 0. *)
Lemma start_tracking s :
  ready host v s = true ->
  durationOf s = Some d ->
  tracking d 0 (start host v s).
Proof.
  intros H Hd.
  destruct (start_capturing host v s H) as [Hc _].
  destruct (ready_fields host v s H)
    as (m & canvas & video & Hb & Hcv & Hv & Hm & Ht & Hl).
  unfold tracking. split; [assumption|]. clear Hc.
  rewrite (start_eq host v s m canvas video Hb Hcv Hv Hm).
  match goal with |- context [renderFrames host v ?x] =>
    destruct (renderFrames_frame host v x) as (c & l & E & N); rewrite E
  end.
  unfold durationOf in *. unfold positionOf.
  fields s. simpl in *. subst log0 video0.
  rewrite !published_app.
  assert (P : published l = []) by (now destruct N as [->| ->]).
  rewrite P. simpl.
  repeat split; try assumption; try reflexivity; try apply Qle_refl;
    try (apply Qlt_le_weak; exact d_pos).
  constructor; [|constructor]. unfold Qdiv. rewrite Qmult_0_l, Qmult_0_l.
  apply Qle_refl.
Qed.

End ProgressTracker.

(** C8, as stated, fails: on the sample clip the progress timer samples
    the position once more after the end of the stream began finalization. *)
Lemma progress_sampled_after_finalization :
  ~ progressAsSpecified (refHost 0 sampleNow false) Revised
      (sampleReady (refHost 0 sampleNow false))
      [Playback 5; IntervalTick; Ended; IntervalTick].
Proof.
  intros (_ & _ & H).
  specialize (H [Playback 5; IntervalTick] [IntervalTick] eq_refl eq_refl).
  vm_compute in H. discriminate.
Qed.

(** Nor does 100 wait for finalization: on the sample clip, a timer tick
    that finds the position at the duration publishes 100 before the end
    of the stream was seen. *)
Lemma progress_100_before_finalization :
  ~ progressAsSpecified (refHost 0 sampleNow false) Revised
      (sampleReady (refHost 0 sampleNow false))
      [Playback 10; IntervalTick].
Proof.
  intros (_ & H & _).
  specialize (H [Playback 10; IntervalTick] [] eq_refl eq_refl).
  assert (E : published
                (log (run (refHost 0 sampleNow false) Revised
                        [Playback 10; IntervalTick]
                        (start (refHost 0 sampleNow false) Revised
                           (sampleReady (refHost 0 sampleNow false)))))
              = [0; 10 / 10 * 100]%Q) by reflexivity.
  rewrite E in H. inversion H as [|? ? _ H2]. inversion H2 as [|? ? H3 _].
  apply H3. reflexivity.
Qed.

(** C8, amended.  Within one run of a clip of known, positive duration,
    with the host playing forward (the positions it reports never decrease
    and never pass the duration): the published progress values never
    decrease and never pass 100; they are below 100 for as long as the
    source has neither ended nor reported a position that is not before
    the duration; and after finalization has begun the position is sampled
    at most once more (by the timer tick that then cancels the timer). *)
Theorem progress_tracker (h : Host) (v : Variant) (s : State)
        (es : list Event) (d : Q) :
  ready h v s = true ->
  durationOf s = Some d ->
  (0 < d)%Q ->
  forward d 0 es ->
  progressAsBuilt h v s d es.
Proof.
  intros Hr Hd Hpos Hf.
  pose proof (start_tracking h v d Hpos s Hr Hd) as T0.
  unfold progressAsBuilt. repeat split.
  - destruct (noEnded_split es) as [Hn|(pre & post & -> & Hn)].
    + destruct (tracking_run h v d Hpos es 0 _ T0 Hn Hf) as (lo & T & _).
      apply T.
    + rewrite run_app, run_cons.
      destruct (tracking_run h v d Hpos pre 0 _ T0 Hn (forward_app d 0 pre _ Hf))
        as (lo & T & _).
      apply (finishing_run h v d Hpos post _ _ (tracking_end h v d Hpos lo _ T)).
  - destruct (noEnded_split es) as [Hn|(pre & post & -> & Hn)].
    + destruct (tracking_run h v d Hpos es 0 _ T0 Hn Hf) as (lo & T & _).
      now apply (tracking_bounded d Hpos lo).
    + rewrite run_app, run_cons.
      destruct (tracking_run h v d Hpos pre 0 _ T0 Hn (forward_app d 0 pre _ Hf))
        as (lo & T & _).
      apply (finishing_run h v d Hpos post _ _ (tracking_end h v d Hpos lo _ T)).
  - intros pre post -> Hn Hb.
    destruct (tracking_run h v d Hpos pre 0 _ T0 Hn (forward_app d 0 pre _ Hf))
      as (lo & T & B).
    apply (tracking_below d Hpos lo); [assumption|]. now apply B.
  - intros pre post -> Hn.
    destruct (tracking_run h v d Hpos pre 0 _ T0 Hn (forward_app d 0 pre _ Hf))
      as (lo & T & _).
    rewrite run_app, run_cons.
    pose proof (finishing_run h v d Hpos post _ _ (tracking_end h v d Hpos lo _ T))
      as (_ & _ & _ & _ & F).
    match type of F with context [if ?b then _ else _] => destruct b end; lia.
Qed.

(** The sample clip: halfway, a tick, the position at the duration, a
    tick, the end, and the tick after it. *)
Lemma progress_tracker_witness :
  progressAsBuilt (refHost 0 sampleNow false) Revised
    (sampleReady (refHost 0 sampleNow false)) 10
    [Playback 5; IntervalTick; Playback 10; IntervalTick; Ended; IntervalTick].
Proof.
  apply (progress_tracker (refHost 0 sampleNow false) Revised
           (sampleReady (refHost 0 sampleNow false))
           [Playback 5; IntervalTick; Playback 10; IntervalTick; Ended;
            IntervalTick] 10 eq_refl eq_refl).
  - reflexivity.
  - simpl. repeat split; discriminate.
Defined.

(* ================================================================== *)
(** ** From the filename to the first frame *)

(** *** The calendar *)

Module CalendarFacts.
Import Time.

(** Within a 400-year era, the year is recovered from the day of the era;
    day 365 of a year only exists before a leap day. *)
Lemma year_of_era yoe doy :
  0 <= yoe <= 399 ->
  0 <= doy ->
  (doy <= 364 \/ (doy = 365 /\ (yoe + 1) mod 4 = 0 /\ ((yoe + 1) mod 100 <> 0 \/ yoe = 399))) ->
  let doe := yoe * 365 + yoe / 4 - yoe / 100 + doy in
  (doe - doe / 1460 + doe / 36524 - doe / 146096) / 365 = yoe /\ 0 <= doe < 146097.
Proof.
  intros Hy Hd Hl doe. subst doe.
  Z.to_euclidean_division_equations; lia.
Qed.

(** [civil_from_days], step by step. *)
Lemma civil_from_days_spec z era doe yoe doy mp d :
  z + 719468 = era * 146097 + doe ->
  0 <= doe < 146097 ->
  (doe - doe / 1460 + doe / 36524 - doe / 146096) / 365 = yoe ->
  doe - (365 * yoe + yoe / 4 - yoe / 100) = doy ->
  (5 * doy + 2) / 153 = mp ->
  doy - (153 * mp + 2) / 5 + 1 = d ->
  civil_from_days z
  = (if (if mp <? 10 then mp + 3 else mp - 9) <=? 2
     then yoe + era * 400 + 1 else yoe + era * 400,
     if mp <? 10 then mp + 3 else mp - 9, d).
Proof.
  intros Hz Hdoe Hyoe Hdoy Hmp Hd. unfold civil_from_days. cbv zeta.
  rewrite Hz.
  assert (E : (era * 146097 + doe) / 146097 = era).
  { rewrite Z.add_comm, Z.div_add by lia. rewrite Z.div_small by lia. lia. }
  rewrite E.
  replace (era * 146097 + doe - era * 146097) with doe by lia.
  rewrite Hyoe, Hdoy, Hmp, Hd. reflexivity.
Qed.

(** Leap years: every fourth, but of the centuries only every fourth. *)
Lemma isLeap_spec Y :
  isLeap Y = true <-> (Y mod 4 = 0 /\ (Y mod 100 <> 0 \/ Y mod 400 = 0)).
Proof.
  unfold isLeap. rewrite orb_true_iff, andb_true_iff, negb_true_iff.
  rewrite !Z.eqb_eq, Z.eqb_neq.
  split; [intros [[H1 H2]|H]|intros [H1 [H2|H2]]]; try tauto.
  split; [|tauto]. Z.to_euclidean_division_equations; lia.
Qed.

(** A day of the year that starts in March is recovered from its number. *)
Lemma shifted_roundtrip y' mp D :
  0 <= mp <= 11 ->
  1 <= D <= 31 ->
  (mp = 1 \/ mp = 3 \/ mp = 6 \/ mp = 8 -> D <= 30) ->
  (mp = 11 -> D <= 28 \/ (D = 29 /\ isLeap (y' + 1) = true)) ->
  civil_from_days (days_from_shifted y' mp D)
  = (if mp <? 10 then y' else y' + 1, if mp <? 10 then mp + 3 else mp - 9, D).
Proof.
  intros Hmp HD H30 HFeb.
  set (era := y' / 400).
  set (yoe := y' - era * 400).
  set (doy := (153 * mp + 2) / 5 + D - 1).
  set (doe := yoe * 365 + yoe / 4 - yoe / 100 + doy).
  assert (Hyoe : 0 <= yoe <= 399).
  { unfold yoe, era. Z.to_euclidean_division_equations; lia. }
  assert (Hleap : isLeap (y' + 1) = true ->
                  (yoe + 1) mod 4 = 0 /\ ((yoe + 1) mod 100 <> 0 \/ yoe = 399)).
  { intros L. apply isLeap_spec in L. unfold yoe, era.
    Z.to_euclidean_division_equations; lia. }
  assert (Hdoy : 0 <= doy
                 /\ (doy <= 364 \/ (doy = 365 /\ D = 29 /\ mp = 11))
                 /\ (5 * doy + 2) / 153 = mp
                 /\ doy - (153 * mp + 2) / 5 + 1 = D).
  { unfold doy.
    assert (C : mp = 0 \/ mp = 1 \/ mp = 2 \/ mp = 3 \/ mp = 4 \/ mp = 5 \/ mp = 6
                \/ mp = 7 \/ mp = 8 \/ mp = 9 \/ mp = 10 \/ mp = 11) by lia.
    repeat (destruct C as [->|C]); try subst mp;
      Z.to_euclidean_division_equations; lia. }
  destruct Hdoy as (Hd0 & Hd1 & Hm & Hday).
  assert (Hd1' : doy <= 364 \/ (doy = 365 /\ (yoe + 1) mod 4 = 0
                                /\ ((yoe + 1) mod 100 <> 0 \/ yoe = 399))).
  { destruct Hd1 as [?|(? & ? & ?)]; [now left|right].
    split; [assumption|]. apply Hleap. destruct (HFeb H1) as [?|[_ ?]]; [lia|assumption]. }
  destruct (year_of_era yoe doy Hyoe Hd0 Hd1') as [Hy Hdoe].
  fold doe in Hy, Hdoe.
  rewrite (civil_from_days_spec (days_from_shifted y' mp D) era doe yoe doy mp D);
    try assumption.
  - replace (yoe + era * 400) with y' by (unfold yoe; lia).
    destruct (mp <? 10) eqn:E.
    + apply Z.ltb_lt in E. destruct (mp + 3 <=? 2) eqn:E2; [apply Z.leb_le in E2; lia|reflexivity].
    + apply Z.ltb_ge in E. destruct (mp - 9 <=? 2) eqn:E2; [reflexivity|apply Z.leb_gt in E2; lia].
  - unfold days_from_shifted. fold era yoe doy doe. lia.
  - unfold doe. lia.
Qed.

(** An existing date is recovered from its day number. *)
Lemma civil_roundtrip Y M D :
  1 <= M <= 12 -> 1 <= D <= DaysInMonth Y M ->
  civil_from_days (days_from_civil Y M D) = (Y, M, D).
Proof.
  intros HM HD. unfold days_from_civil.
  assert (C : M = 1 \/ M = 2 \/ M = 3 \/ M = 4 \/ M = 5 \/ M = 6 \/ M = 7
              \/ M = 8 \/ M = 9 \/ M = 10 \/ M = 11 \/ M = 12) by lia.
  unfold DaysInMonth in HD.
  repeat (destruct C as [->|C]); try subst M; cbn in HD |- *;
    (rewrite shifted_roundtrip;
     [cbn; f_equal; f_equal; lia | lia | try destruct (isLeap Y); lia | lia | ]);
    try (intros; lia).
  intros _. replace (Y - 1 + 1) with Y by lia.
  destruct (isLeap Y); [|left; lia].
  assert (D = 29 \/ D <= 28) as [->|?] by lia; [right|left]; auto.
Qed.

(** Four-digit years stay far inside the range of time values. *)
Lemma days_from_civil_range Y M D :
  0 <= Y <= 9999 -> 1 <= M <= 12 -> 1 <= D <= 31 ->
  -1000000 <= days_from_civil Y M D <= 3000000.
Proof.
  intros HY HM HD. unfold days_from_civil, days_from_shifted.
  destruct (M <=? 2) eqn:E1, (2 <? M) eqn:E2;
    try apply Z.leb_le in E1; try apply Z.leb_gt in E1;
    try apply Z.ltb_lt in E2; try apply Z.ltb_ge in E2;
    Z.to_euclidean_division_equations; lia.
Qed.

(** A time of day is recovered from the time value. *)
Lemma time_fields day h m s :
  0 <= h < 24 -> 0 <= m < 60 -> 0 <= s < 60 ->
  Day (MakeDate day (MakeTime h m s 0)) = day
  /\ HourFromTime (MakeDate day (MakeTime h m s 0)) = h
  /\ MinFromTime (MakeDate day (MakeTime h m s 0)) = m
  /\ SecFromTime (MakeDate day (MakeTime h m s 0)) = s.
Proof.
  intros Hh Hm Hs.
  unfold Day, HourFromTime, MinFromTime, SecFromTime, MakeDate, MakeTime,
    msPerDay, msPerHour, msPerMinute, msPerSecond.
  repeat split; Z.to_euclidean_division_equations; lia.
Qed.

End CalendarFacts.

(** *** Digits *)

Section DigitFacts.

(** A digit is worth 0 to 9. *)
Lemma digit_value c :
  isDigit c = true -> 0 <= Z.of_nat (nat_of_ascii c) - 48 <= 9.
Proof.
  unfold isDigit. intros H. apply andb_prop in H as [H1 H2].
  apply Nat.leb_le in H1, H2. lia.
Qed.

(** Reading digits after [acc] shifts [acc] left by their count. *)
Lemma num_from_acc acc s :
  num_from acc s = acc * 10 ^ Z.of_nat (String.length s) + num_from 0 s.
Proof.
  revert acc. induction s as [|c s IH]; intros acc; simpl String.length.
  - simpl. lia.
  - cbn [num_from]. rewrite IH, (IH (10 * 0 + _)).
    rewrite Nat2Z.inj_succ, Z.pow_succ_r by lia. ring.
Qed.

Lemma num_from_range s :
  allDigits s = true -> 0 <= num_from 0 s < 10 ^ Z.of_nat (String.length s).
Proof.
  induction s as [|c s IH]; simpl String.length; intros H.
  - simpl. lia.
  - simpl in H. apply andb_prop in H as [Hc Hs].
    cbn [num_from]. rewrite num_from_acc.
    rewrite Nat2Z.inj_succ, Z.pow_succ_r by lia.
    pose proof (digit_value c Hc). specialize (IH Hs).
    assert (0 < 10 ^ Z.of_nat (String.length s)) by (apply Z.pow_pos_nonneg; lia).
    nia.
Qed.

(** Appending one digit multiplies what was read by ten and adds it. *)
Lemma num_from_snoc acc s c :
  num_from acc (s ++ String c "")
  = 10 * num_from acc s + (Z.of_nat (nat_of_ascii c) - 48).
Proof.
  revert acc. induction s as [|x s IH]; intros acc; simpl; [reflexivity|apply IH].
Qed.

Lemma string_snoc s :
  s <> "" -> exists s' c, s = s' ++ String c "".
Proof.
  induction s as [|x s IH]; [congruence|]. intros _.
  destruct s as [|y s].
  - exists "", x. reflexivity.
  - destruct IH as (s' & c & E); [discriminate|].
    exists (String x s'), c. simpl. now rewrite <- E.
Qed.

Lemma length_append a b :
  String.length (a ++ b) = (String.length a + String.length b)%nat.
Proof. induction a; simpl; auto. Qed.

Lemma allDigits_app a b : allDigits (a ++ b) = allDigits a && allDigits b.
Proof. induction a; simpl; [reflexivity|]. now rewrite IHa, andb_assoc. Qed.

Lemma digitChar_value c :
  isDigit c = true -> Dayjs.digitChar (Z.of_nat (nat_of_ascii c) - 48) = c.
Proof.
  unfold isDigit, Dayjs.digitChar. intros H. apply andb_prop in H as [H1 H2].
  apply Nat.leb_le in H1, H2.
  replace (48 + Z.to_nat (Z.of_nat (nat_of_ascii c) - 48))%nat
    with (nat_of_ascii c) by lia.
  apply ascii_nat_embedding.
Qed.

(** Fuel beyond the binary digits of [n] changes nothing. *)
Lemma decimal_stable f f' n :
  (1 <= f)%nat -> (f <= f')%nat -> 0 <= n < 2 ^ Z.of_nat f ->
  Dayjs.decimal f' n = Dayjs.decimal f n.
Proof.
  revert f' n. induction f as [|f IH]; intros f' n H1 Hle Hn; [lia|].
  destruct f' as [|f']; [lia|]. simpl.
  destruct (n <? 10) eqn:E; [reflexivity|]. apply Z.ltb_ge in E.
  rewrite Nat2Z.inj_succ, Z.pow_succ_r in Hn by lia.
  assert (0 <= n / 10 < 2 ^ Z.of_nat f)
    by (Z.to_euclidean_division_equations; lia).
  destruct f as [|f]; [simpl in *; lia|].
  rewrite (IH f' (n / 10)); [reflexivity|lia|lia|assumption].
Qed.

(** Fuel beyond the decimal digits of [n] changes nothing. *)
Lemma decimal_exact k f' n :
  (1 <= k)%nat -> (k <= f')%nat -> 0 <= n < 10 ^ Z.of_nat k ->
  Dayjs.decimal f' n = Dayjs.decimal k n.
Proof.
  revert f' n. induction k as [|k IH]; intros f' n H1 Hle Hn; [lia|].
  destruct f' as [|f']; [lia|]. simpl.
  destruct (n <? 10) eqn:E; [reflexivity|]. apply Z.ltb_ge in E.
  rewrite Nat2Z.inj_succ, Z.pow_succ_r in Hn by lia.
  assert (0 <= n / 10 < 10 ^ Z.of_nat k)
    by (Z.to_euclidean_division_equations; lia).
  destruct k as [|k]; [simpl in *; lia|].
  rewrite (IH f' (n / 10)); [reflexivity|lia|lia|assumption].
Qed.

(** [toString] never runs out of fuel: below [10 ^ k] it is the text that
    [k] rounds of the recursion produce. *)
Lemma toString_decimal k n :
  (1 <= k)%nat -> 0 <= n < 10 ^ Z.of_nat k ->
  Dayjs.toString n = Dayjs.decimal k n.
Proof.
  intros Hk Hn. unfold Dayjs.toString.
  destruct (n <? 0) eqn:E; [apply Z.ltb_lt in E; lia|].
  set (f := S (Z.to_nat (Z.log2 n))).
  assert (Hf : 0 <= n < 2 ^ Z.of_nat f).
  { unfold f. rewrite Nat2Z.inj_succ, Z2Nat.id by apply Z.log2_nonneg.
    destruct (Z.eq_dec n 0) as [->|]; [simpl; lia|].
    pose proof (Z.log2_spec n). lia. }
  rewrite <- (decimal_stable f (Nat.max f k) n) by (unfold f; lia || assumption).
  apply decimal_exact; [assumption|lia|assumption].
Qed.

Lemma zeros_snoc k : Dayjs.zeros k ++ "0" = Dayjs.zeros (S k).
Proof. induction k; simpl; [reflexivity|]. simpl in IHk. now rewrite IHk. Qed.

Lemma fixed_zero k : fixed k 0 = Dayjs.zeros k.
Proof.
  induction k; [reflexivity|]. simpl fixed. rewrite Z.div_0_l, IHk by lia.
  apply zeros_snoc.
Qed.

(** The decimal text of a number below [10 ^ k] has at most [k] places,
    and zeros in front fill it up to the fixed-width text. *)
Lemma decimal_fixed k n :
  (1 <= k)%nat -> 0 <= n < 10 ^ Z.of_nat k ->
  (String.length (Dayjs.decimal k n) <= k)%nat
  /\ Dayjs.zeros (k - String.length (Dayjs.decimal k n)) ++ Dayjs.decimal k n
     = fixed k n.
Proof.
  revert n. induction k as [|k IH]; intros n Hk Hn; [lia|].
  simpl Dayjs.decimal. simpl fixed.
  rewrite Nat2Z.inj_succ, Z.pow_succ_r in Hn by lia.
  destruct (n <? 10) eqn:E.
  - apply Z.ltb_lt in E. simpl. rewrite Z.div_small, fixed_zero by lia.
    rewrite Nat.sub_0_r. split; [lia|reflexivity].
  - apply Z.ltb_ge in E.
    assert (Hq : 0 <= n / 10 < 10 ^ Z.of_nat k)
      by (Z.to_euclidean_division_equations; lia).
    destruct k as [|k]; [simpl in *; lia|].
    destruct (IH (n / 10) ltac:(lia) Hq) as [L F].
    rewrite length_append.
    change (String.length (String (Dayjs.digitChar (n mod 10)) "")) with 1%nat.
    split; [lia|].
    rewrite <- F, <- append_assoc.
    now replace (S (S k) - (String.length (Dayjs.decimal (S k) (n / 10)) + 1))%nat
      with (S k - String.length (Dayjs.decimal (S k) (n / 10)))%nat by lia.
Qed.

(** Padding a number below [10 ^ k] to [k] places writes its last [k]
    digits. *)
Lemma padStart_fixed k n :
  (1 <= k)%nat -> 0 <= n < 10 ^ Z.of_nat k -> Dayjs.padStart n k = fixed k n.
Proof.
  intros Hk Hn. unfold Dayjs.padStart. rewrite (toString_decimal k n Hk Hn).
  destruct (decimal_fixed k n Hk Hn) as [L F].
  destruct (k <=? String.length (Dayjs.decimal k n))%nat eqn:E; [|assumption].
  apply Nat.leb_le in E. rewrite <- F.
  replace (k - String.length (Dayjs.decimal k n))%nat with 0%nat by lia.
  reflexivity.
Qed.

(** The fixed-width text of what a digit string reads is the string. *)
Lemma fixed_num k s :
  String.length s = k -> allDigits s = true -> fixed k (num s) = s.
Proof.
  unfold num. revert s. induction k as [|k IH]; intros s Hl Hd.
  - now destruct s.
  - destruct (string_snoc s) as (s' & c & ->); [now destruct s|].
    rewrite length_append in Hl. simpl in Hl.
    rewrite allDigits_app in Hd. apply andb_prop in Hd as [Hd Hc].
    simpl in Hc. rewrite andb_true_r in Hc.
    rewrite num_from_snoc. cbn [fixed].
    pose proof (digit_value c Hc) as V.
    replace ((10 * num_from 0 s' + (Z.of_nat (nat_of_ascii c) - 48)) / 10)
      with (num_from 0 s') by (Z.to_euclidean_division_equations; lia).
    replace ((10 * num_from 0 s' + (Z.of_nat (nat_of_ascii c) - 48)) mod 10)
      with (Z.of_nat (nat_of_ascii c) - 48)
      by (Z.to_euclidean_division_equations; lia).
    rewrite IH by (assumption || lia). now rewrite digitChar_value.
Qed.

(** Padding what a field of [k] digits reads gives the field back. *)
Lemma padStart_num k s :
  (1 <= k)%nat -> digits k s = true -> Dayjs.padStart (num s) k = s.
Proof.
  intros Hk H. apply andb_prop in H as [Hl Hd]. apply Nat.eqb_eq in Hl.
  pose proof (num_from_range s Hd) as R. fold (num s) in R. rewrite Hl in R.
  rewrite padStart_fixed by assumption. now apply fixed_num.
Qed.

End DigitFacts.

(** *** The stamp comes back *)

Section Stamp.

Lemma validCivil_spec Y M D h m s :
  validCivil Y M D h m s = true ->
  1 <= M <= 12 /\ 1 <= D <= Time.DaysInMonth Y M /\ h < 24 /\ m < 60 /\ s < 60.
Proof.
  unfold validCivil. intros H.
  repeat (apply andb_prop in H as [H ?]).
  repeat match goal with
         | H : (_ <=? _) = true |- _ => apply Z.leb_le in H
         | H : (_ <? _) = true |- _ => apply Z.ltb_lt in H
         end.
  lia.
Qed.

Lemma DaysInMonth_le Y M : Time.DaysInMonth Y M <= 31.
Proof. unfold Time.DaysInMonth. cases; lia. Qed.

(** In a zone that has the local time [l], going to UTC and back gives
    [l] again. *)
Lemma hasLocalTime_roundtrip tza l :
  hasLocalTime tza l -> Time.LocalTime tza (Time.UTC tza l) = l.
Proof.
  unfold hasLocalTime, Time.LocalTime. intros ->. unfold Time.UTC. lia.
Qed.

(** A zone without daylight saving has every local time. *)
Lemma fixedZone_hasLocalTime offset l : hasLocalTime (fixedZone offset) l.
Proof. reflexivity. Qed.

(** Formatting the local instant of an existing date and time gives its
    fields back, padded. *)
Lemma format_localInstant tza Y M D h m s :
  1 <= M <= 12 -> 1 <= D <= Time.DaysInMonth Y M ->
  0 <= h < 24 -> 0 <= m < 60 -> 0 <= s < 60 ->
  hasLocalTime tza
    (Time.MakeDate (Time.MakeDay Y (M - 1) D) (Time.MakeTime h m s 0)) ->
  Dayjs.format tza (Some (Time.localInstant tza Y M D h m s))
  = Dayjs.padStart Y 4 ++ "-" ++ Dayjs.padStart M 2 ++ "-"
      ++ Dayjs.padStart D 2 ++ " " ++ Dayjs.padStart h 2 ++ ":"
      ++ Dayjs.padStart m 2 ++ ":" ++ Dayjs.padStart s 2.
Proof.
  intros HM HD Hh Hm Hs Hl.
  unfold Dayjs.format, Time.localInstant.
  rewrite (hasLocalTime_roundtrip tza _ Hl).
  unfold Time.YearFromTime, Time.MonthFromTime, Time.DateFromTime.
  destruct (CalendarFacts.time_fields (Time.MakeDay Y (M - 1) D) h m s Hh Hm Hs)
    as (-> & -> & -> & ->).
  unfold Time.MakeDay. replace (M - 1 + 1) with M by lia.
  rewrite (CalendarFacts.civil_roundtrip Y M D HM HD). simpl fst. simpl snd.
  replace (M - 1 + 1) with M by lia. reflexivity.
Qed.

Variable f : StampedName.
Hypothesis Hwf : wellFormed f = true.

Lemma num_digits_range k s :
  digits k s = true -> 0 <= num s < 10 ^ Z.of_nat k.
Proof.
  intros H. apply andb_prop in H as [Hl Hd].
  apply Nat.eqb_eq in Hl. rewrite <- Hl. now apply num_from_range.
Qed.

(** The overlay text of the instant a stamped name denotes is the name's
    own date and time. *)
Lemma format_instantOf tza :
  hasLocalTime tza (localTimeOf f) ->
  Dayjs.format tza (Some (instantOf tza f)) = stampOf f.
Proof.
  intros Hl.
  destruct (wellFormed_fields f Hwf) as (Hy & Hmo & Hd & Hh & Hmi & Hs & Hv & _).
  destruct (validCivil_spec _ _ _ _ _ _ Hv) as (HM & HD & Hh' & Hm' & Hs').
  pose proof (num_digits_range 2 _ Hh). pose proof (num_digits_range 2 _ Hmi).
  pose proof (num_digits_range 2 _ Hs).
  unfold instantOf. rewrite format_localInstant by (lia || exact Hl).
  rewrite (padStart_num 4 (yyyy f)), (padStart_num 2 (mo f)),
    (padStart_num 2 (dd f)), (padStart_num 2 (hh f)),
    (padStart_num 2 (mi f)), (padStart_num 2 (ss f)) by (lia || assumption).
  reflexivity.
Qed.

(** The instant of a stamped name is a time value [new Date] accepts,
    for any zone within a day of UTC. *)
Lemma instantOf_range tza :
  withinADay tza -> Z.abs (instantOf tza f) <= Time.maxTime.
Proof.
  intros Hz. specialize (Hz (localTimeOf f) false). revert Hz.
  unfold instantOf, Time.localInstant, Time.UTC. fold (localTimeOf f).
  generalize (tza (localTimeOf f) false). intros z Hz.
  destruct (wellFormed_fields f Hwf) as (Hy & Hmo & Hd & Hh & Hmi & Hs & Hv & _).
  destruct (validCivil_spec _ _ _ _ _ _ Hv) as (HM & HD & Hh' & Hm' & Hs').
  pose proof (num_digits_range 4 _ Hy) as Ry. simpl in Ry.
  pose proof (num_digits_range 2 _ Hh). pose proof (num_digits_range 2 _ Hmi).
  pose proof (num_digits_range 2 _ Hs).
  pose proof (DaysInMonth_le (num (yyyy f)) (num (mo f))).
  pose proof (CalendarFacts.days_from_civil_range
                (num (yyyy f)) (num (mo f)) (num (dd f))) as R.
  unfold localTimeOf, Time.MakeDate, Time.MakeDay,
    Time.MakeTime, Time.msPerDay, Time.msPerHour, Time.msPerMinute,
    Time.msPerSecond, Time.maxTime in *.
  replace (num (mo f) - 1 + 1) with (num (mo f)) by lia.
  lia.
Qed.

End Stamp.

(** *** The first frame *)

(** The first frame of a run is stamped with the start time. *)
Lemma start_first_frame (h : Host) (v : Variant) (s : State) :
  ready h v s = true ->
  drawable s = true ->
  overlayTexts (opsOf (start h v s))
  = (overlayTexts (opsOf s) ++ [currentTimeText h (videoStartTime s) 0])%list.
Proof.
  intros Hr Hd.
  destruct (ready_fields h v s Hr)
    as (m & canvas & video & Hb & Hc & Hv & Hm & Ht & Hl).
  rewrite (start_eq h v s m canvas video Hb Hc Hv Hm).
  rewrite renderFrames_texts.
  - fields s. reflexivity.
  - unfold drawable in Hd. unfold presentable.
    fields s. simpl in *. subst canvas0 video0. simpl. now rewrite Hd.
Qed.

Lemma handleMetadataLoaded_videoStartTime (s : State) :
  videoStartTime (handleMetadataLoaded s) = videoStartTime s.
Proof.
  unfold handleMetadataLoaded. fields s. simpl.
  destruct video0, canvas0; reflexivity.
Qed.

Lemma handleFileUpload_videoStartTime
      (h : Host) (f : StampedName) (ty : string) (s : State) :
  readsLocalTime h ->
  wellFormed f = true ->
  JsString.startsWith "video/" ty = true ->
  videoStartTime (handleFileUpload h [mkFile (filenameOf f) ty] s)
  = instantOf (LocalTZA h) f.
Proof.
  intros Hh Hwf Hty. unfold handleFileUpload. cbn [type name].
  rewrite Hty. cbn [negb]. unfold parseTimeFromFilename.
  now rewrite (parseTimeFromFilename_try_shape h f Hwf Hh).
Qed.

(** From the filename to the first frame: when a video with a stamped
    name (its suffix, if any, set off by a dash or an underscore) is
    picked, loaded and processed, on a host that reads the date-time text
    as local time, in a zone within a day of UTC that has the local time
    the name gives (no daylight-saving transition skips it), the first
    frame is stamped with the date and time written in the name. *)
Theorem first_frame_shows_stamp
        (h : Host) (v : Variant) (f : StampedName) (ty : string) (s : State) :
  readsLocalTime h ->
  wellFormed f = true ->
  withinADay (LocalTZA h) ->
  hasLocalTime (LocalTZA h) (localTimeOf f) ->
  JsString.startsWith "video/" ty = true ->
  let loaded :=
    s |> handleFileUpload h [mkFile (filenameOf f) ty] |> handleMetadataLoaded in
  ready h v loaded = true ->
  drawable loaded = true ->
  overlayTexts (opsOf (start h v loaded))
  = (overlayTexts (opsOf loaded) ++ [stampOf f])%list.
Proof.
  intros Hh Hwf Hz Hl Hty loaded Hr Hd.
  rewrite (start_first_frame h v loaded Hr Hd). do 2 f_equal.
  unfold loaded.
  rewrite handleMetadataLoaded_videoStartTime,
    (handleFileUpload_videoStartTime h f ty s Hh Hwf Hty).
  rewrite (currentTimeText_ms h _ 0 0).
  - rewrite Z.add_0_r. now apply format_instantOf.
  - apply (DoubleFacts.mul_integers 0 1000 0 1000); reflexivity.
  - rewrite Z.add_0_r. now apply instantOf_range.
Qed.

Lemma shiftingZone_withinADay transition before after :
  Z.abs before <= Time.msPerDay -> Z.abs after <= Time.msPerDay ->
  withinADay (shiftingZone transition before after).
Proof.
  intros Hb Ha t isUTC. unfold shiftingZone. now cases.
Qed.

(** The sample clip on a host in the eastern zone, days before the
    clocks go forward: its first frame reads [2024-03-01 14:05:09]. *)
Lemma first_frame_shows_stamp_witness :
  overlayTexts
    (opsOf (start (zonedHost easternSpring2024 sampleNow false) Revised
              (sampleReady (zonedHost easternSpring2024 sampleNow false))))
  = ["2024-03-01 14:05:09"].
Proof.
  refine (eq_trans
            (first_frame_shows_stamp
               (zonedHost easternSpring2024 sampleNow false)
               Revised sampleName "video/mp4" idle
               (zonedHost_readsLocalTime easternSpring2024 sampleNow false)
               _ _ _ _ _ _) _).
  - vm_compute. reflexivity.
  - apply shiftingZone_withinADay; vm_compute; discriminate.
  - vm_compute. reflexivity.
  - vm_compute. reflexivity.
  - vm_compute. reflexivity.
  - vm_compute. reflexivity.
  - vm_compute. reflexivity.
Defined.

(** On that host the night the clocks go forward has no 02:30: a clip
    named for it is read with the offset before the transition, and its
    first frame reads 03:30. *)
Lemma first_frame_skipped_hour :
  let h := zonedHost easternSpring2024 sampleNow false in
  wellFormed skippedName = true
  /\ ~ hasLocalTime (LocalTZA h) (localTimeOf skippedName)
  /\ overlayTexts
       (opsOf (start h Revised
                 (idle |> handleFileUpload h
                            [mkFile (filenameOf skippedName) "video/mp4"]
                       |> handleMetadataLoaded)))
     = ["2024-03-10 03:30:00"].
Proof.
  split; [reflexivity|]. split; [|vm_compute; reflexivity].
  vm_compute. discriminate.
Qed.

(* ================================================================== *)
(** ** Format negotiation *)

Section Negotiation.

Variable host : Host.

Lemma checkMimeTypeSupport_fst v s s' :
  fst (checkMimeTypeSupport host v s) = fst (checkMimeTypeSupport host v s').
Proof. unfold checkMimeTypeSupport. destruct v; cases; reflexivity. Qed.

Lemma checkMimeTypeSupport_none v s :
  fst (checkMimeTypeSupport host v s) = None ->
  checkMimeTypeSupport host v s = (None, displayError (unsupportedMessage v) s).
Proof.
  unfold checkMimeTypeSupport. destruct v; cases; simpl; congruence.
Qed.

(** A host that can record none of the probed types gets no format. *)
Lemma checkMimeTypeSupport_unsupported v s :
  forallb (fun t => negb (isTypeSupported host t)) (probedTypes v) = true ->
  fst (checkMimeTypeSupport host v s) = None.
Proof.
  unfold checkMimeTypeSupport, probedTypes. intros H.
  destruct v; simpl in H;
    repeat (apply andb_prop in H as [?H H]);
    repeat match goal with
           | E : negb ?b = true |- _ => apply negb_true_iff in E; rewrite E
           end;
    reflexivity.
Qed.

End Negotiation.

(** Negotiation returns the first type the host can record, in the order
    mp4, webm with vp9, (in the revised copy) webm with vp8, webm: the
    recorder is asked for that type (for [avc1] in the revised copy's mp4
    case), the extension is [mp4] for mp4 and [webm] otherwise, and the
    state is left alone.  When the host can record none of them, nothing is
    returned and the copy's message is displayed. *)
Theorem checkMimeTypeSupport_first_supported (h : Host) (v : Variant) (s : State) :
  match find (isTypeSupported h) (probedTypes v) with
  | Some probed =>
      exists m,
        checkMimeTypeSupport h v s = (Some m, s)
        /\ mimeType_of m = requestedType v probed
        /\ ext m = extensionOf probed
  | None =>
      checkMimeTypeSupport h v s = (None, displayError (unsupportedMessage v) s)
  end.
Proof.
  unfold checkMimeTypeSupport, probedTypes.
  destruct v; simpl;
    repeat match goal with
           | |- context [isTypeSupported h ?t] =>
               destruct (isTypeSupported h t) eqn:?
           end;
    try reflexivity; eexists; repeat split; reflexivity.
Qed.

(** [src/App.tsx] asks the recorder only for a type the host said it can
    record.  The revised copy does so too, except for mp4: there it asks
    for [video/mp4; codecs=avc1] on the strength of the host's answer about
    plain [video/mp4]. *)
Theorem checkMimeTypeSupport_requests (h : Host) (s : State) (m : MimeTypeSupport) :
  (fst (checkMimeTypeSupport h AppTsx s) = Some m ->
   isTypeSupported h (mimeType_of m) = true)
  /\ (fst (checkMimeTypeSupport h Revised s) = Some m ->
      if isTypeSupported h "video/mp4"
      then mimeType_of m = "video/mp4; codecs=avc1"
      else isTypeSupported h (mimeType_of m) = true).
Proof.
  unfold checkMimeTypeSupport. split; simpl;
    repeat match goal with
           | |- context [if isTypeSupported h ?t then _ else _] =>
               destruct (isTypeSupported h t) eqn:?
           end;
    simpl; intros E; try discriminate; injection E as <-; simpl;
    try assumption; reflexivity.
Qed.

(** On a host that records mp4 and knows no codec parameter, the revised
    copy asks for a type the host cannot record. *)
Lemma checkMimeTypeSupport_requests_witness :
  isTypeSupported mp4Host
    (mimeType_of (mkMime "mp4" (mkOpt "video/mp4; codecs=avc1" (Some 10000000))))
  = false
  /\ mimeType_of (mkMime "mp4" (mkOpt "video/mp4; codecs=avc1" (Some 10000000)))
     = "video/mp4; codecs=avc1".
Proof.
  split; [reflexivity|].
  exact (proj2 (checkMimeTypeSupport_requests mp4Host idle
                  (mkMime "mp4" (mkOpt "video/mp4; codecs=avc1" (Some 10000000))))
               eq_refl).
Defined.

(* ================================================================== *)
(** ** Starting a run that cannot start *)

(** On a host that can record none of the probed types, [processVideo]
    displays the copy's message and starts nothing: no recorder, no
    playback, no timer of its own, and the component is not processing. *)
Theorem processVideo_unsupported
        (h : Host) (v : Variant) (playResult : Outcome unit) (s : State) :
  isProcessing s = false ->
  canvasRef s <> None -> videoRef s <> None ->
  forallb (fun t => negb (isTypeSupported h t)) (probedTypes v) = true ->
  let s' := processVideo h v playResult s in
  isProcessing s' = false
  /\ showError s' = true /\ error s' = unsupportedMessage v
  /\ log s' = (log s ++ [Display (unsupportedMessage v);
                         SetTimeout HideError 5000])%list
  /\ recorderRef s' = recorderRef s /\ videoRef s' = videoRef s
  /\ allChunks s' = allChunks s /\ progress s' = progress s
  /\ updateInterval s' = updateInterval s.
Proof.
  intros Hb Hc Hv Hn s'. subst s'. unfold processVideo. rewrite Hb.
  destruct (canvasRef s) as [canvas|] eqn:Ec; [|congruence].
  destruct (videoRef s) as [video|] eqn:Ev; [|congruence].
  rewrite (checkMimeTypeSupport_none h v s
             (checkMimeTypeSupport_unsupported h v s Hn)).
  clear Hn.
  fields s. simpl in *. subst. rewrite <- app_assoc. repeat split; reflexivity.
Qed.

Lemma processVideo_unsupported_witness :
  let s' := processVideo deafHost Revised (Return tt) sampleLoaded in
  isProcessing s' = false
  /\ showError s' = true /\ error s' = unsupportedMessage Revised
  /\ log s' = (log sampleLoaded ++ [Display (unsupportedMessage Revised);
                                    SetTimeout HideError 5000])%list
  /\ recorderRef s' = recorderRef sampleLoaded
  /\ videoRef s' = videoRef sampleLoaded
  /\ allChunks s' = allChunks sampleLoaded /\ progress s' = progress sampleLoaded
  /\ updateInterval s' = updateInterval sampleLoaded.
Proof.
  exact (processVideo_unsupported deafHost Revised (Return tt) sampleLoaded
           eq_refl ltac:(discriminate) ltac:(discriminate) eq_refl).
Defined.

(** Carry out the field updates of a state given by its fields. *)
Ltac updates :=
  cbv [setFile setVideoStartTime setVidName setVideoURL setIsProcessing
       setFontSize writeProgress setError setShowError putCanvas putVideo
       putRecorder putAllChunks putVideoCompleted putUpdateInterval putTimers
       putLog emit setProgress setTimeout displayError
       file videoStartTime vidName videoURL isProcessing fontSize progress
       error showError canvasRef videoRef recorderRef allChunks
       videoCompleted updateInterval timers log].

(** The state [processVideo] reaches when the host refuses to play. *)
Lemma processVideo_rejected_eq
      (h : Host) (v : Variant) (message : string) (s : State)
      (m : MimeTypeSupport) (canvas : Canvas) (video : Video) :
  isProcessing s = false ->
  canvasRef s = Some canvas ->
  videoRef s = Some video ->
  fst (checkMimeTypeSupport h v s) = Some m ->
  processVideo h v (Throw message) s
  = mkState (file s) (videoStartTime s) (vidName s) (videoURL s) false
      (fontSize s) 0 ("播放失败: " ++ message) true (Some canvas)
      (Some (mkVideo (vPaused video) (vEnded video) 0 (duration video)
                     (videoWidth video) (videoHeight video) true (Some m)))
      (Some (mkRecorder recording (mimeType_of m))) [] false
      (updateInterval s) (timers s ++ [(HideError, 5000)])
      (log s ++ [SetProgress 0; RecorderStart 1000; VideoPlay;
                 Display ("播放失败: " ++ message);
                 SetTimeout HideError 5000]).
Proof.
  intros Hb Hc Hv Hm. fields s. simpl in Hb, Hc, Hv. subst.
  unfold processVideo. cbn [isProcessing canvasRef videoRef].
  rewrite (checkMimeTypeSupport_some h v _ m Hm).
  updates. unfold MediaRecorder_start. cbn [recMimeType].
  rewrite <- !app_assoc. reflexivity.
Qed.

(** When the host refuses to play ([video.play()] rejects), [processVideo]
    displays the reason and releases the component, but by then the
    recorder has been started and nothing stops it: it is left recording,
    and the segments it hands over are still collected.  Neither the
    progress timer nor the frame pump is started. *)
Theorem processVideo_play_rejected
        (h : Host) (v : Variant) (message : string) (s : State) :
  isProcessing s = false ->
  canvasRef s <> None -> videoRef s <> None ->
  fst (checkMimeTypeSupport h v s) <> None ->
  let s' := processVideo h v (Throw message) s in
  isProcessing s' = false
  /\ showError s' = true /\ error s' = "播放失败: " ++ message
  /\ (exists r, recorderRef s' = Some r /\ state r = recording)
  /\ log s' = (log s ++ [SetProgress 0; RecorderStart 1000; VideoPlay;
                         Display ("播放失败: " ++ message);
                         SetTimeout HideError 5000])%list
  /\ updateInterval s' = updateInterval s
  /\ opsOf s' = opsOf s
  /\ (forall data, 0 < size data ->
        allChunks (dispatch h v (DataAvailable data) s') = [data]).
Proof.
  intros Hb Hc Hv Hm s'. subst s'.
  destruct (canvasRef s) as [canvas|] eqn:Ec; [|congruence].
  destruct (videoRef s) as [video|] eqn:Ev; [|congruence].
  destruct (fst (checkMimeTypeSupport h v s)) as [m|] eqn:Em; [|congruence].
  rewrite (processVideo_rejected_eq h v message s m canvas video Hb Ec Ev Em).
  unfold opsOf. cbn [isProcessing showError error recorderRef log
                     updateInterval canvasRef]. rewrite Ec.
  repeat split; try reflexivity.
  - eexists. split; reflexivity.
  - intros data Hd. cbn [dispatch recorderRef]. unfold ondataavailable.
    apply Z.ltb_lt in Hd. rewrite Hd. reflexivity.
Qed.

Lemma processVideo_play_rejected_witness :
  let h := refHost 0 sampleNow false in
  let s' := processVideo h AppTsx (Throw "NotAllowedError") sampleLoaded in
  isProcessing s' = false
  /\ showError s' = true /\ error s' = "播放失败: " ++ "NotAllowedError"
  /\ (exists r, recorderRef s' = Some r /\ state r = recording)
  /\ log s' = (log sampleLoaded
                 ++ [SetProgress 0; RecorderStart 1000; VideoPlay;
                     Display ("播放失败: " ++ "NotAllowedError");
                     SetTimeout HideError 5000])%list
  /\ updateInterval s' = updateInterval sampleLoaded
  /\ opsOf s' = opsOf sampleLoaded
  /\ (forall data, 0 < size data ->
        allChunks (dispatch h AppTsx (DataAvailable data) s') = [data]).
Proof.
  exact (processVideo_play_rejected (refHost 0 sampleNow false) AppTsx
           "NotAllowedError" sampleLoaded eq_refl ltac:(discriminate)
           ltac:(discriminate) ltac:(discriminate)).
Defined.

(* ================================================================== *)
(** ** The error line *)

Lemma nth_error_length {A : Type} (l : list A) (a : A) (r : list A) :
  nth_error (l ++ a :: r) (List.length l) = Some a.
Proof. induction l; simpl; auto. Qed.

Lemma removeNth_length {A : Type} (l : list A) (a : A) (r : list A) :
  removeNth (List.length l) (l ++ a :: r) = (l ++ r)%list.
Proof. induction l; simpl; [reflexivity|]. now rewrite IHl. Qed.

(** [displayError] shows its message and arms a timer that hides it; the
    timer is never cancelled.  So when a second message is displayed while
    the first is still up, the first message's timer hides the second one
    ahead of its five seconds, and the second timer is still pending. *)
Theorem displayError_hidden_by_earlier_timer
        (h : Host) (v : Variant) (first second : string) (s : State) :
  let s1 := displayError first s in
  let s2 := displayError second s1 in
  let s3 := dispatch h v (Timeout (List.length (timers s))) s2 in
  (showError s1 = true /\ error s1 = first)
  /\ (showError s2 = true /\ error s2 = second)
  /\ (showError s3 = false /\ error s3 = second
      /\ timers s3 = (timers s ++ [(HideError, 5000)])%list).
Proof.
  intros s1 s2 s3. subst s1 s2 s3. fields s. simpl.
  rewrite <- app_assoc. simpl.
  rewrite nth_error_length. simpl. rewrite removeNth_length.
  repeat split; reflexivity.
Qed.

(* ================================================================== *)
(** ** Choosing a file *)

Section Upload.
Import JsString JsStringFacts.

Variable host : Host.

(** The part of a dotted name before its last dot. *)
Lemma filenameWithoutExt_dotted base e :
  lacks "." e = true -> filenameWithoutExt (dotted base e) = base.
Proof.
  intros He. unfold filenameWithoutExt, dotted.
  change (base ++ "." ++ e) with (base ++ String "." e).
  rewrite (lastIndexOf_app "." base e He). apply substring_prefix.
Qed.

(** A name without a dot has no part before its last dot. *)
Lemma filenameWithoutExt_dotless filename :
  lacks "." filename = true -> filenameWithoutExt filename = "".
Proof.
  intros H. unfold filenameWithoutExt.
  rewrite (lastIndexOf_lacks _ _ H). apply substring_to_minus_one.
Qed.

Lemma parseTimeFromFilename_keeps filename s :
  let s' := snd (parseTimeFromFilename host filename s) in
  videoURL s' = videoURL s /\ isProcessing s' = isProcessing s
  /\ canvasRef s' = canvasRef s /\ videoRef s' = videoRef s
  /\ recorderRef s' = recorderRef s /\ allChunks s' = allChunks s
  /\ progress s' = progress s.
Proof.
  unfold parseTimeFromFilename.
  destruct (parseTimeFromFilename_try host filename); simpl.
  - repeat split; reflexivity.
  - fields s. simpl. repeat split; reflexivity.
Qed.

(** What [handleFileUpload] does with an accepted file. *)
Lemma handleFileUpload_accepted f rest s :
  startsWith "video/" (type f) = true ->
  let s' := handleFileUpload host (f :: rest) s in
  file s' = Some f /\ vidName s' = filenameWithoutExt (name f)
  /\ videoURL s' = videoURL s /\ isProcessing s' = isProcessing s.
Proof.
  intros Ht. unfold handleFileUpload. rewrite Ht. cbn [negb].
  pose proof (parseTimeFromFilename_keeps (name f) s) as K.
  destruct (parseTimeFromFilename host (name f) s) as [t s1].
  simpl in K. destruct K as (K1 & K2 & _).
  fields s1. simpl in *. repeat split; assumption || reflexivity.
Qed.

End Upload.

(** A file whose type is not a video type is turned away: the message
    is displayed, and the file taken before, its name, its start time and
    the elements stay as they were.  Only the first of the files counts. *)
Theorem handleFileUpload_rejects_non_video
        (h : Host) (f : File) (rest : list File) (s : State) :
  JsString.startsWith "video/" (type f) = false ->
  let s' := handleFileUpload h (f :: rest) s in
  showError s' = true /\ error s' = "请上传视频文件"
  /\ file s' = file s /\ vidName s' = vidName s
  /\ videoStartTime s' = videoStartTime s
  /\ videoURL s' = videoURL s /\ isProcessing s' = isProcessing s
  /\ videoRef s' = videoRef s /\ canvasRef s' = canvasRef s.
Proof.
  intros Ht s'. subst s'. unfold handleFileUpload. rewrite Ht. cbn [negb].
  fields s. simpl. repeat split; reflexivity.
Qed.

Lemma handleFileUpload_rejects_non_video_witness :
  let s' := handleFileUpload (refHost 0 sampleNow false)
              [mkFile "2024-03-01_14-05-09-000.txt" "text/plain"] idle in
  showError s' = true /\ error s' = "请上传视频文件"
  /\ file s' = file idle /\ vidName s' = vidName idle
  /\ videoStartTime s' = videoStartTime idle
  /\ videoURL s' = videoURL idle /\ isProcessing s' = isProcessing idle
  /\ videoRef s' = videoRef idle /\ canvasRef s' = canvasRef idle.
Proof.
  exact (handleFileUpload_rejects_non_video (refHost 0 sampleNow false)
           (mkFile "2024-03-01_14-05-09-000.txt" "text/plain") [] idle eq_refl).
Defined.

(** A video file is taken whatever its name: the file is set, and the
    name kept for the download is the file name up to its last dot, so a
    name with several dots loses only its last extension.  For a name
    without a dot the name kept is empty.  An artifact published
    before stays published. *)
Theorem handleFileUpload_vidName
        (h : Host) (ty base e : string) (rest : list File) (s : State) :
  JsString.startsWith "video/" ty = true ->
  JsString.lacks "." e = true ->
  (let s' := handleFileUpload h (mkFile (dotted base e) ty :: rest) s in
   file s' = Some (mkFile (dotted base e) ty) /\ vidName s' = base
   /\ videoURL s' = videoURL s)
  /\ (let s' := handleFileUpload h (mkFile e ty :: rest) s in
      file s' = Some (mkFile e ty) /\ vidName s' = ""
      /\ videoURL s' = videoURL s).
Proof.
  intros Ht He. split.
  - destruct (handleFileUpload_accepted h (mkFile (dotted base e) ty) rest s Ht)
      as (F & N & U & _).
    cbn [name] in N. rewrite (filenameWithoutExt_dotted base e He) in N.
    repeat split; assumption.
  - destruct (handleFileUpload_accepted h (mkFile e ty) rest s Ht)
      as (F & N & U & _).
    cbn [name] in N. rewrite (filenameWithoutExt_dotless e He) in N.
    repeat split; assumption.
Qed.

Lemma handleFileUpload_vidName_witness :
  let h := refHost 0 sampleNow false in
  (let s' := handleFileUpload h
               [mkFile (dotted "2024-03-01_14-05-09-front.v2" "mp4") "video/mp4"]
               idle in
   file s' = Some (mkFile (dotted "2024-03-01_14-05-09-front.v2" "mp4") "video/mp4")
   /\ vidName s' = "2024-03-01_14-05-09-front.v2"
   /\ videoURL s' = videoURL idle)
  /\ (let s' := handleFileUpload h [mkFile "mp4" "video/mp4"] idle in
      file s' = Some (mkFile "mp4" "video/mp4") /\ vidName s' = ""
      /\ videoURL s' = videoURL idle).
Proof.
  exact (handleFileUpload_vidName (refHost 0 sampleNow false) "video/mp4"
           "2024-03-01_14-05-09-front.v2" "mp4" [] idle eq_refl eq_refl).
Defined.

(* ================================================================== *)
(** ** What a run collects, draws and locks *)

Section RunKeeps.

Variable host : Host.
Variable v : Variant.

Lemma segments_app a b : segments (a ++ b) = (segments a ++ segments b)%list.
Proof.
  induction a as [|e a IH]; simpl; [reflexivity|].
  destruct e; simpl; try assumption.
  destruct (0 <? size data); simpl; now rewrite IH.
Qed.

Lemma collected_app a b : collected (a ++ b) = collected a || collected b.
Proof. apply existsb_app. Qed.

(** What an event does to the segment buffer, the recorder, the artifact
    and the names: it appends the event's segment if it has one, keeps a
    recorder that is there, and touches the artifact only when a timer
    fires. *)
Lemma dispatch_keeps e s :
  let s' := dispatch host v e s in
  (recorderRef s <> None ->
   allChunks s' = (allChunks s ++ segments [e])%list /\ recorderRef s' <> None)
  /\ vidName s' = vidName s /\ file s' = file s
  /\ (videoURL s <> None -> videoURL s' <> None)
  /\ match e with
     | Timeout _ => True
     | _ => videoURL s' = videoURL s
     end.
Proof.
  fields s. destruct e as [t| | |i|data|]; simpl.
  - destruct video0 as [video|]; simpl; [destruct (playing video)|]; simpl;
      rewrite ?app_nil_r; repeat split; auto.
  - destruct video0 as [video|]; simpl; [destruct (playing video)|]; simpl;
      rewrite ?app_nil_r; try (repeat split; auto; fail).
    destruct (onended video) as [m|]; simpl;
      [|rewrite ?app_nil_r; repeat split; auto].
    unfold onended_handler, finishProcessing, finishProcessing_try,
      MediaRecorder_stop.
    destruct v; simpl; destruct rec0 as [[st mt]|]; simpl;
      try destruct st; simpl;
      try destruct (stopThrowsWhenInactive host); simpl;
      rewrite ?app_nil_r; repeat split; auto; try congruence; try discriminate.
  - destruct interval0; simpl; [|rewrite ?app_nil_r; repeat split; auto].
    unfold updateProgress. simpl.
    destruct video0 as [video|]; simpl; [|rewrite ?app_nil_r; repeat split; auto].
    destruct (duration video) as [d|]; simpl;
      [destruct (negb (Qeq_bool d 0)); simpl|];
      destruct done0; simpl; rewrite ?app_nil_r; repeat split; auto.
  - destruct (nth_error timers0 i) as [[cb ms]|]; simpl;
      [|rewrite ?app_nil_r; repeat split; auto].
    destruct cb as [|m]; simpl; [rewrite ?app_nil_r; repeat split; auto|].
    unfold collectChunks.
    destruct v; simpl; [|destruct (List.length chunks0 =? 0)%nat; simpl];
      rewrite ?app_nil_r; repeat split; auto; discriminate.
  - destruct rec0 as [r|]; simpl; [|repeat split; auto; congruence].
    unfold ondataavailable. simpl.
    destruct (0 <? size data); simpl; rewrite ?app_nil_r; repeat split; auto;
      discriminate.
  - destruct (renderFrames_frame host v
                (mkState file0 start0 name0 url0 busy0 font0 prog0 err0 show0
                   canvas0 video0 rec0 chunks0 done0 interval0 timers0 log0))
      as (c & l & E & _).
    rewrite E. simpl. rewrite ?app_nil_r. repeat split; auto.
Qed.

(** Over a run the segment buffer grows by the non-empty segments handed
    over, in their order. *)
Lemma run_chunks es s :
  recorderRef s <> None ->
  allChunks (run host v es s) = (allChunks s ++ segments es)%list
  /\ recorderRef (run host v es s) <> None.
Proof.
  revert s. induction es as [|e es IH]; intros s Hr.
  - simpl. now rewrite app_nil_r.
  - simpl run. destruct (dispatch_keeps e s) as (K & _).
    destruct (K Hr) as (Kc & Kr).
    destruct (IH _ Kr) as (Ic & Ir). split; [|assumption].
    rewrite Ic, Kc, <- app_assoc. f_equal.
    change (e :: es) with ([e] ++ es)%list. now rewrite segments_app.
Qed.

(** The artifact changes only when a timer fires. *)
Lemma run_videoURL es s :
  noTimeout es = true -> videoURL (run host v es s) = videoURL s.
Proof.
  revert s. induction es as [|e es IH]; intros s Hn; [reflexivity|].
  simpl in Hn. apply andb_prop in Hn as [He Hn]. simpl run.
  rewrite (IH _ Hn). destruct (dispatch_keeps e s) as (_ & _ & _ & _ & K).
  destruct e; try assumption; discriminate.
Qed.

(** A run starts with an empty segment buffer and a recorder. *)
Lemma start_chunks s :
  ready host v s = true ->
  allChunks (start host v s) = [] /\ recorderRef (start host v s) <> None
  /\ isProcessing (start host v s) = true
  /\ collected (log (start host v s)) = false.
Proof.
  intros H.
  destruct (ready_fields host v s H)
    as (m & canvas & video & Hb & Hc & Hv & Hm & Ht & Hl).
  rewrite (start_eq host v s m canvas video Hb Hc Hv Hm).
  match goal with |- context [renderFrames host v ?x] =>
    destruct (renderFrames_frame host v x) as (c & l & E & N); rewrite E
  end.
  fields s. simpl in *. subst log0.
  repeat split; try reflexivity; try discriminate.
  now destruct N as [->| ->].
Qed.

End RunKeeps.

(** The artifact is made of everything the recorder handed over since
    processing started: when the grace timer fires, the Blob published is
    the concatenation, in order of arrival, of the non-empty segments of
    the run, those that arrived during the grace period included, and
    processing is released.  (The revised copy publishes only when there
    is at least one segment.) *)
Theorem artifact_is_all_segments
        (h : Host) (v : Variant) (s : State) (es : list Event)
        (i : nat) (m : MimeTypeSupport) (ms : Z) :
  ready h v s = true ->
  nth_error (timers (run h v es (start h v s))) i = Some (CollectChunks m, ms) ->
  (v = Revised -> segments es <> []) ->
  let s' := run h v (es ++ [Timeout i]) (start h v s) in
  exists blob,
    videoURL s' = Some blob
    /\ blobBytes blob = List.concat (map blobBytes (segments es))
    /\ isProcessing s' = false.
Proof.
  intros Hr Ht Hne s'. subst s'.
  destruct (start_chunks h v s Hr) as (C0 & R0 & _).
  destruct (run_chunks h v es _ R0) as (C & _).
  rewrite C0 in C. simpl in C.
  rewrite run_app. generalize dependent (run h v es (start h v s)).
  intros s1 Ht C. simpl. rewrite Ht.
  fields s1. simpl in C. subst chunks0. simpl. unfold collectChunks.
  destruct v; simpl.
  - eexists. repeat split.
  - destruct (segments es) as [|b l] eqn:E; [now destruct Hne|].
    simpl. eexists. repeat split.
Qed.

Lemma artifact_is_all_segments_witness :
  let h := refHost 0 sampleNow false in
  let es := [DataAvailable sampleSegment; Playback 5;
             DataAvailable (mkBlob [] "video/webm"); Ended;
             DataAvailable sampleSegment] in
  exists blob,
    videoURL (run h Revised (es ++ [Timeout 0]) (start h Revised (sampleReady h)))
    = Some blob
    /\ blobBytes blob = List.concat (map blobBytes (segments es))
    /\ isProcessing (run h Revised (es ++ [Timeout 0])
                       (start h Revised (sampleReady h))) = false.
Proof.
  intros h es.
  refine (artifact_is_all_segments h Revised (sampleReady h) es 0
            (mkMime "mp4" (mkOpt "video/mp4; codecs=avc1" (Some 10000000)))
            1000 _ _ _).
  - vm_compute. reflexivity.
  - vm_compute. reflexivity.
  - intros _. vm_compute. discriminate.
Defined.

(** The artifact changes only when a timer fires: whatever else happens,
    a segment handed over after the grace timer included, leaves a
    published artifact as it is. *)
Theorem artifact_changes_on_timeout_only
        (h : Host) (v : Variant) (s : State) (es : list Event) :
  noTimeout es = true -> videoURL (run h v es s) = videoURL s.
Proof. apply run_videoURL. Qed.

Lemma artifact_changes_on_timeout_only_witness :
  let h := refHost 0 sampleNow false in
  let published :=
    run h AppTsx [DataAvailable sampleSegment; Ended; Timeout 0]
        (start h AppTsx (sampleReady h)) in
  videoURL (run h AppTsx [DataAvailable sampleSegment; AnimationFrame;
                          IntervalTick] published)
  = videoURL published.
Proof.
  intros h published.
  exact (artifact_changes_on_timeout_only h AppTsx published
           [DataAvailable sampleSegment; AnimationFrame; IntervalTick] eq_refl).
Defined.

Section RunPhases.

Variable host : Host.
Variable v : Variant.

(** While the run is under way, an event other than the end of the
    stream leaves it under way, and leaves the component processing. *)
Lemma capturing_keeps e s :
  capturing s = true ->
  match e with Ended => False | _ => True end ->
  capturing (dispatch host v e s) = true
  /\ isProcessing (dispatch host v e s) = isProcessing s.
Proof.
  intros Hc He. fields s. unfold capturing in Hc. simpl in Hc.
  destruct video0 as [[pa en ct du vw vh mu oe]|]; [|discriminate].
  destruct rec0 as [[st mt]|]; [|discriminate]. simpl in Hc.
  repeat (apply andb_prop in Hc as [Hc ?]).
  destruct pa; [discriminate|]. destruct en; [discriminate|].
  destruct oe as [m|]; [|discriminate]. destruct st; try discriminate.
  destruct done0; [discriminate|].
  destruct e as [t| | |i|data|].
  - simpl. unfold capturing. simpl. now rewrite H.
  - contradiction.
  - simpl. destruct interval0; [|unfold capturing; simpl; now rewrite H].
    unfold updateProgress. simpl.
    destruct du as [d|]; simpl; [destruct (negb (Qeq_bool d 0)); simpl|];
      unfold capturing; simpl; now rewrite H.
  - simpl. destruct (nth_error timers0 i) as [[cb ms]|] eqn:E;
      [|unfold capturing; simpl; now rewrite H].
    rewrite (noCollect_nth i timers0 cb ms H E). simpl.
    unfold capturing. simpl. now rewrite noCollect_removeNth.
  - simpl. unfold ondataavailable. simpl.
    destruct (0 <? size data); unfold capturing; simpl; now rewrite H.
  - simpl. unfold renderFrames. simpl.
    destruct canvas0 as [canvas|]; simpl;
      [|unfold capturing; simpl; now rewrite H].
    destruct (ctx2d canvas) eqn:Hx; simpl;
      [|unfold capturing; simpl; now rewrite H].
    unfold drawWatermark, draw, emit. simpl. rewrite Hx.
    destruct v; simpl; unfold capturing; simpl; now rewrite H.
Qed.

Lemma capturing_noEnded es s :
  capturing s = true -> noEnded es = true ->
  capturing (run host v es s) = true
  /\ isProcessing (run host v es s) = isProcessing s.
Proof.
  revert s. induction es as [|e es IH]; intros s Hc Hn; [now split|].
  simpl in Hn. apply andb_prop in Hn as [He Hn]. simpl run.
  destruct (capturing_keeps e s Hc) as [Hc' Hp]; [now destruct e|].
  destruct (IH _ Hc' Hn) as [Hc'' Hp']. split; [assumption|congruence].
Qed.

(** The end of the stream, while the run is under way: the source is
    paused, nothing is drawn, and the component goes on processing. *)
Lemma capturing_ended s :
  capturing s = true ->
  stopped (dispatch host v Ended s) = true
  /\ opsOf (dispatch host v Ended s) = opsOf s
  /\ isProcessing (dispatch host v Ended s) = isProcessing s
  /\ collected (log (dispatch host v Ended s)) = collected (log s).
Proof.
  intros Hc. fields s. unfold capturing in Hc. simpl in Hc.
  destruct video0 as [[pa en ct du vw vh mu oe]|]; [|discriminate].
  destruct rec0 as [[st mt]|]; [|discriminate]. simpl in Hc.
  repeat (apply andb_prop in Hc as [Hc ?]).
  destruct pa; [discriminate|]. destruct en; [discriminate|].
  destruct oe as [m|]; [|discriminate]. destruct st; try discriminate.
  simpl.
  unfold onended_handler, finishProcessing, finishProcessing_try,
    MediaRecorder_stop.
  destruct v; simpl; rewrite !collected_app; simpl; rewrite ?orb_false_r;
    repeat split; reflexivity.
Qed.

(** Once the source is not playing it stays so, nothing more is drawn,
    and the component goes on processing unless the grace timer's callback
    runs. *)
Lemma stopped_step e s :
  stopped s = true ->
  stopped (dispatch host v e s) = true
  /\ opsOf (dispatch host v e s) = opsOf s
  /\ (isProcessing (dispatch host v e s) = isProcessing s
      \/ collected (log (dispatch host v e s)) = true).
Proof.
  intros Hs. fields s. unfold stopped in Hs. simpl in Hs.
  assert (P : match video0 with
              | Some video => playing video = false
              | None => True
              end).
  { destruct video0 as [video|]; [|exact I]. unfold playing.
    destruct (vPaused video), (vEnded video); try reflexivity; discriminate. }
  destruct e as [t| | |i|data|]; simpl.
  - destruct video0 as [video|]; [rewrite P|]; unfold stopped; simpl;
      auto.
  - destruct video0 as [video|]; [rewrite P|]; unfold stopped; simpl;
      auto.
  - destruct interval0; [|unfold stopped; simpl; auto].
    unfold updateProgress. simpl.
    destruct video0 as [video|]; simpl; [|unfold stopped; simpl; auto].
    destruct (duration video) as [d|]; simpl;
      [destruct (negb (Qeq_bool d 0)); simpl|];
      destruct done0; unfold stopped; simpl; auto.
  - destruct (nth_error timers0 i) as [[cb ms]|]; simpl;
      [|unfold stopped; simpl; auto].
    destruct cb as [|m]; simpl; [unfold stopped; simpl; auto|].
    unfold collectChunks.
    destruct v; simpl; [|destruct (List.length chunks0 =? 0)%nat; simpl];
      unfold stopped; simpl; rewrite ?collected_app; simpl;
      rewrite ?orb_true_r; auto.
  - destruct rec0 as [r|]; simpl; [|unfold stopped; simpl; auto].
    unfold ondataavailable. simpl.
    destruct (0 <? size data); unfold stopped; simpl; auto.
  - unfold renderFrames. simpl.
    destruct canvas0 as [canvas|]; simpl; [|unfold stopped; simpl; auto].
    destruct video0 as [video|]; simpl; [|unfold stopped; simpl; auto].
    destruct (ctx2d canvas); simpl; [|unfold stopped; simpl; auto].
    unfold playing in P. rewrite P. unfold stopped. simpl. auto.
Qed.

Lemma collected_step e s :
  collected (log s) = true -> collected (log (dispatch host v e s)) = true.
Proof.
  intros H. destruct (dispatch_log host v e s) as (l & E & _).
  now rewrite E, collected_app, H.
Qed.

Lemma stopped_run es s :
  stopped s = true ->
  stopped (run host v es s) = true
  /\ opsOf (run host v es s) = opsOf s
  /\ (isProcessing (run host v es s) = isProcessing s
      \/ collected (log (run host v es s)) = true).
Proof.
  revert s. induction es as [|e es IH]; intros s Hs; [auto|].
  simpl run. destruct (stopped_step e s Hs) as (S1 & O1 & P1).
  destruct (IH _ S1) as (S2 & O2 & P2).
  split; [assumption|]. split; [congruence|].
  destruct P2 as [P2|P2]; [|now right].
  destruct P1 as [P1|P1]; [left; congruence|].
  right. clear - P1. revert P1.
  generalize (dispatch host v e s). induction es as [|e' es IH]; intros s1 H;
    [assumption|].
  simpl run. apply IH. now apply collected_step.
Qed.

End RunPhases.

(** No frame is composited after the source has ended: from the end of
    the stream on, whatever happens, animation frames included, draws
    nothing more on the canvas. *)
Theorem no_frame_after_end
        (h : Host) (v : Variant) (s : State) (pre post : list Event) :
  ready h v s = true ->
  noEnded pre = true ->
  opsOf (run h v (pre ++ Ended :: post) (start h v s))
  = opsOf (run h v pre (start h v s)).
Proof.
  intros Hr Hn.
  destruct (start_capturing h v s Hr) as [Hc _].
  destruct (capturing_noEnded h v pre _ Hc Hn) as [Hc' _].
  rewrite run_app, run_cons.
  destruct (capturing_ended h v _ Hc') as (S & O & _).
  destruct (stopped_run h v post _ S) as (_ & O' & _).
  congruence.
Qed.

Lemma no_frame_after_end_witness :
  let h := refHost 0 sampleNow false in
  opsOf (run h Revised
           ([Playback 5; AnimationFrame]
              ++ Ended :: [AnimationFrame; Playback 6; AnimationFrame])
           (start h Revised (sampleReady h)))
  = opsOf (run h Revised [Playback 5; AnimationFrame]
             (start h Revised (sampleReady h))).
Proof.
  intros h.
  refine (no_frame_after_end h Revised (sampleReady h)
            [Playback 5; AnimationFrame]
            [AnimationFrame; Playback 6; AnimationFrame] _ eq_refl).
  vm_compute. reflexivity.
Defined.

(** The component stays locked for the whole run: from the click until
    the grace timer's callback has run it is processing, so the file input
    is disabled and the process button, where it is rendered, is disabled
    too. *)
Theorem processing_lock
        (h : Host) (v : Variant) (s : State) (es : list Event) :
  ready h v s = true ->
  let s' := run h v es (start h v s) in
  collected (log s') = false ->
  isProcessing s' = true
  /\ inputDisabled (render v s') = true
  /\ processButton (render v s') <> Some false.
Proof.
  intros Hr s' Hn.
  assert (P : isProcessing s' = true).
  { subst s'.
    destruct (start_capturing h v s Hr) as [Hc _].
    destruct (start_chunks h v s Hr) as (_ & _ & Hp & _).
    destruct (noEnded_split es) as [Hne|(pre & post & -> & Hne)].
    - destruct (capturing_noEnded h v es _ Hc Hne) as [_ E]. congruence.
    - destruct (capturing_noEnded h v pre _ Hc Hne) as [Hc' E].
      rewrite run_app, run_cons in Hn |- *.
      destruct (capturing_ended h v _ Hc') as (S & _ & E' & _).
      destruct (stopped_run h v post _ S) as (_ & _ & [E''|C]); congruence. }
  split; [assumption|]. unfold render. cbn [inputDisabled processButton].
  rewrite P. split; [reflexivity|].
  destruct (videoURL s'); [discriminate|].
  rewrite orb_true_r. discriminate.
Qed.

Lemma processing_lock_witness :
  let h := refHost 0 sampleNow false in
  let s' := run h AppTsx [Playback 5; IntervalTick; Ended; IntervalTick]
              (start h AppTsx (sampleReady h)) in
  isProcessing s' = true
  /\ inputDisabled (render AppTsx s') = true
  /\ processButton (render AppTsx s') <> Some false.
Proof.
  intros h.
  refine (processing_lock h AppTsx (sampleReady h)
            [Playback 5; IntervalTick; Ended; IntervalTick] _ _).
  - vm_compute. reflexivity.
  - vm_compute. reflexivity.
Defined.

(* ------------------------------------------------------------------ *)
(** *** A clip whose duration the host does not know *)

Section UnknownDuration.

Variable host : Host.
Variable v : Variant.

Lemma unsampled_step e s : unsampled s -> unsampled (dispatch host v e s).
Proof.
  unfold unsampled, durationOf. intros (Hd & Hp & Hs).
  fields s. simpl in Hd, Hp, Hs.
  destruct e as [t| | |i|data|]; simpl.
  - destruct video0 as [video|]; simpl; [destruct (playing video)|]; simpl; auto.
  - destruct video0 as [video|]; simpl; [destruct (playing video)|]; simpl; auto.
    destruct (onended video) as [m|]; simpl; auto.
    unfold onended_handler, finishProcessing, finishProcessing_try,
      MediaRecorder_stop.
    destruct v; simpl; destruct rec0 as [[st mt]|]; simpl;
      try destruct st; simpl;
      try destruct (stopThrowsWhenInactive host); simpl;
      rewrite ?published_app, ?samples_app; simpl;
      rewrite ?app_nil_r, ?Nat.add_0_r;
      (repeat split; try assumption;
       try (apply Forall_app; split; [assumption|]; constructor; auto)).
  - destruct interval0; simpl; auto.
    unfold updateProgress. simpl.
    destruct video0 as [video|]; simpl; auto.
    simpl in Hd. destruct (duration video) as [d|] eqn:Ed; simpl in Hd |- *;
      [rewrite Hd; simpl|];
      destruct done0; simpl; rewrite ?published_app, ?samples_app; simpl;
      rewrite ?app_nil_r, ?Nat.add_0_r, ?Ed; simpl; auto.
  - destruct (nth_error timers0 i) as [[cb ms]|]; simpl; auto.
    destruct cb as [|m]; simpl; auto.
    unfold collectChunks.
    destruct v; simpl; [|destruct (List.length chunks0 =? 0)%nat; simpl];
      rewrite ?published_app, ?samples_app; simpl;
      rewrite ?app_nil_r, ?Nat.add_0_r; auto.
  - destruct rec0 as [r|]; simpl; auto.
    unfold ondataavailable. simpl.
    destruct (0 <? size data); simpl; auto.
  - destruct (renderFrames_frame host v
                (mkState file0 start0 name0 url0 busy0 font0 prog0 err0 show0
                   canvas0 video0 rec0 chunks0 done0 interval0 timers0 log0))
      as (c & l & E & N).
    rewrite E. simpl. rewrite published_app, samples_app.
    destruct N as [->| ->]; simpl; rewrite ?app_nil_r, ?Nat.add_0_r; auto.
Qed.

Lemma unsampled_run es s : unsampled s -> unsampled (run host v es s).
Proof.
  revert s. induction es as [|e es IH]; intros s H; [assumption|].
  simpl run. apply IH. now apply unsampled_step.
Qed.

Lemma start_unsampled s :
  ready host v s = true -> truthy (durationOf s) = false ->
  unsampled (start host v s).
Proof.
  intros H Hd.
  destruct (ready_fields host v s H)
    as (m & canvas & video & Hb & Hc & Hv & Hm & Ht & Hl).
  rewrite (start_eq host v s m canvas video Hb Hc Hv Hm).
  match goal with |- context [renderFrames host v ?x] =>
    destruct (renderFrames_frame host v x) as (c & l & E & N); rewrite E
  end.
  unfold unsampled, durationOf in *.
  fields s. simpl in *. subst log0 video0.
  rewrite !published_app, !samples_app.
  destruct N as [->| ->]; simpl; repeat split; auto.
Qed.

End UnknownDuration.

(** For a clip whose duration the host does not report (or reports as 0),
    the progress timer never samples the position: all that is ever
    published is the 0 of the start and the 100 of finalization. *)
Theorem progress_unknown_duration
        (h : Host) (v : Variant) (s : State) (es : list Event) :
  ready h v s = true ->
  truthy (durationOf s) = false ->
  Forall (fun p => p = 0 \/ p = 100)%Q
         (published (log (run h v es (start h v s))))
  /\ samples (log (run h v es (start h v s))) = O.
Proof.
  intros Hr Hd.
  apply (unsampled_run h v es), (start_unsampled h v s Hr Hd).
Qed.

Lemma progress_unknown_duration_witness :
  let h := refHost 0 sampleNow false in
  let s := handleMetadataLoaded
             (handleFileUpload h [mkFile (filenameOf sampleName) "video/mp4"]
                (initial sampleCanvas
                   (mkVideo true false 0 None 1280 720 false None))) in
  let es := [Playback 5; IntervalTick; Ended; IntervalTick] in
  Forall (fun p => p = 0 \/ p = 100)%Q
         (published (log (run h AppTsx es (start h AppTsx s))))
  /\ samples (log (run h AppTsx es (start h AppTsx s))) = O.
Proof.
  intros h s es.
  refine (progress_unknown_duration h AppTsx s es _ _).
  - vm_compute. reflexivity.
  - reflexivity.
Defined.

(* ================================================================== *)
(** ** Sessions: choosing, processing, downloading *)

Section SessionFacts.

Variable host : Host.
Variable v : Variant.

Lemma displayError_keeps message s :
  vidName (displayError message s) = vidName s
  /\ videoURL (displayError message s) = videoURL s
  /\ file (displayError message s) = file s
  /\ isProcessing (displayError message s) = isProcessing s.
Proof. fields s. repeat split. Qed.

Lemma handleMetadataLoaded_keeps s :
  vidName (handleMetadataLoaded s) = vidName s
  /\ videoURL (handleMetadataLoaded s) = videoURL s.
Proof.
  unfold handleMetadataLoaded. fields s. simpl.
  destruct video0, canvas0; split; reflexivity.
Qed.

Lemma handleFileUpload_videoURL files s :
  videoURL (handleFileUpload host files s) = videoURL s.
Proof.
  destruct files as [|f rest]; [reflexivity|].
  destruct (JsString.startsWith "video/" (type f)) eqn:Ht.
  - now destruct (handleFileUpload_accepted host f rest s Ht) as (_ & _ & U & _).
  - unfold handleFileUpload. rewrite Ht. cbn [negb].
    apply displayError_keeps.
Qed.

Lemma processVideo_keeps playResult s :
  vidName (processVideo host v playResult s) = vidName s
  /\ videoURL (processVideo host v playResult s) = videoURL s.
Proof.
  unfold processVideo.
  destruct (isProcessing s) eqn:Hb; [now split|].
  destruct (canvasRef s) as [canvas|] eqn:Hc; [|now split].
  destruct (videoRef s) as [video|] eqn:Hv; [|now split].
  destruct (fst (checkMimeTypeSupport host v s)) as [m|] eqn:Hm.
  - rewrite (checkMimeTypeSupport_some host v s m Hm).
    destruct playResult as [u|message].
    + match goal with |- context [renderFrames host v ?x] =>
        destruct (renderFrames_frame host v x) as (c & l & E & N); rewrite E
      end.
      fields s. split; reflexivity.
    + fields s. split; reflexivity.
  - rewrite (checkMimeTypeSupport_none host v s Hm). fields s. split; reflexivity.
Qed.

Lemma downloadVideo_keeps s :
  vidName (snd (downloadVideo host v s)) = vidName s
  /\ videoURL (snd (downloadVideo host v s)) = videoURL s.
Proof.
  unfold downloadVideo.
  destruct (videoURL s) as [url|] eqn:Hu; rewrite <- Hu;
    [|cbn [snd]; split; apply displayError_keeps].
  destruct (String.eqb (vidName s) "");
    [cbn [snd]; split; apply displayError_keeps|].
  destruct (fst (checkMimeTypeSupport host v s)) as [m|] eqn:Hm.
  - rewrite (checkMimeTypeSupport_some host v s m Hm). now split.
  - rewrite (checkMimeTypeSupport_none host v s Hm).
    cbn [snd]; split; apply displayError_keeps.
Qed.

(** No action takes a published artifact away, and only choosing a file
    changes the name kept for the download. *)
Lemma act_keeps a s :
  (videoURL s <> None -> videoURL (act host v a s) <> None)
  /\ match a with
     | ChooseFiles _ => True
     | _ => vidName (act host v a s) = vidName s
     end.
Proof.
  destruct a as [files| |playResult| |e]; cbn [act].
  - split; [|exact I]. destruct (inputDisabled (render v s)); [auto|].
    now rewrite handleFileUpload_videoURL.
  - destruct (handleMetadataLoaded_keeps s) as (N & U). rewrite U. now split.
  - destruct (processButton (render v s)) as [[|]|]; try (now split).
    destruct (processVideo_keeps playResult s) as (N & U). rewrite U. now split.
  - destruct (downloadButton (render v s)); [|now split].
    destruct (downloadVideo_keeps s) as (N & U). rewrite U. now split.
  - destruct (dispatch_keeps host v e s) as (_ & N & _ & U & _). now split.
Qed.

Lemma session_keeps acts s :
  (videoURL s <> None -> videoURL (session host v acts s) <> None)
  /\ (noChoice acts = true -> vidName (session host v acts s) = vidName s).
Proof.
  revert s. induction acts as [|a acts IH]; intros s; [now split|].
  simpl session. destruct (act_keeps a s) as (U & N).
  destruct (IH (act host v a s)) as (U' & N'). split; [auto|].
  intros Hn. simpl in Hn. apply andb_prop in Hn as [Ha Hn].
  rewrite (N' Hn). destruct a; try assumption; discriminate.
Qed.

(** The name kept for the download once a file was chosen through the
    enabled file input. *)
Lemma chosen_vidName f rest s :
  isProcessing s = false ->
  JsString.startsWith "video/" (type f) = true ->
  vidName (act host v (ChooseFiles (f :: rest)) s) = filenameWithoutExt (name f)
  /\ videoURL (act host v (ChooseFiles (f :: rest)) s) = videoURL s.
Proof.
  intros Hb Ht. cbn [act render inputDisabled]. rewrite Hb.
  destruct (handleFileUpload_accepted host f rest s Ht) as (_ & N & U & _).
  now split.
Qed.

(** What [downloadVideo] does when there is an artifact, a name and a
    recording format. *)
Lemma downloadVideo_link s blob m :
  videoURL s = Some blob ->
  vidName s <> "" ->
  fst (checkMimeTypeSupport host v s) = Some m ->
  downloadVideo host v s
  = (let link := mkAnchor blob (vidName s ++ "_watermarked." ++ ext m) "none" in
     [AppendChild link; Click link; RemoveChildAfter link 100], s).
Proof.
  intros Hu Hn Hm. unfold downloadVideo. rewrite Hu.
  destruct (String.eqb (vidName s) "") eqn:E;
    [apply String.eqb_eq in E; contradiction|].
  now rewrite (checkMimeTypeSupport_some host v s m Hm).
Qed.

End SessionFacts.

(** Once an artifact is published it stays published, whatever the user
    and the host do, and the process button is not rendered again: the
    component offers the download only, a click on "process" has nothing
    to land on, and no further file can be processed. *)
Theorem artifact_blocks_reprocessing
        (h : Host) (v : Variant) (s : State) (acts : list Action) :
  videoURL s <> None ->
  let s' := session h v acts s in
  videoURL s' <> None
  /\ processButton (render v s') = None
  /\ downloadButton (render v s') = true
  /\ (forall playResult, act h v (ClickProcess playResult) s' = s').
Proof.
  intros Hu s'.
  assert (U : videoURL s' <> None) by (now apply session_keeps).
  split; [assumption|]. cbn [render processButton downloadButton act].
  destruct (videoURL s'); [|congruence]. repeat split.
Qed.

Lemma artifact_blocks_reprocessing_witness :
  let h := refHost 0 sampleNow false in
  let published :=
    run h AppTsx [DataAvailable sampleSegment; Ended; Timeout 0]
        (start h AppTsx (sampleReady h)) in
  let s' := session h AppTsx
              [ChooseFiles [mkFile "2024-03-02_08-00-00-000.mp4" "video/mp4"];
               LoadedMetadata; ClickProcess (Return tt)] published in
  videoURL s' <> None
  /\ processButton (render AppTsx s') = None
  /\ downloadButton (render AppTsx s') = true
  /\ (forall playResult, act h AppTsx (ClickProcess playResult) s' = s').
Proof.
  intros h published.
  refine (artifact_blocks_reprocessing h AppTsx published _ _).
  vm_compute. discriminate.
Defined.

(** The download is named after the file chosen last: for a video file
    [base.ext] chosen through the file input, whatever happens afterwards
    short of choosing again, a published artifact is offered as
    [base_watermarked.] followed by the extension of the negotiated format,
    through a hidden link that is clicked once and removed after 100 ms;
    the state is left alone. *)
Theorem download_named_after_file
        (h : Host) (v : Variant) (s : State) (ty base e : string)
        (rest : list File) (acts : list Action) (blob : Blob)
        (m : MimeTypeSupport) :
  isProcessing s = false ->
  JsString.startsWith "video/" ty = true ->
  JsString.lacks "." e = true ->
  base <> "" ->
  noChoice acts = true ->
  let s' :=
    session h v acts
      (act h v (ChooseFiles (mkFile (dotted base e) ty :: rest)) s) in
  videoURL s' = Some blob ->
  fst (checkMimeTypeSupport h v s') = Some m ->
  downloadVideo h v s'
  = (let link := mkAnchor blob (base ++ "_watermarked." ++ ext m) "none" in
     [AppendChild link; Click link; RemoveChildAfter link 100], s').
Proof.
  intros Hb Ht He Hn Hc s' Hu Hm.
  assert (N : vidName s' = base).
  { subst s'. destruct (session_keeps h v acts
                          (act h v (ChooseFiles (mkFile (dotted base e) ty :: rest)) s))
      as (_ & K).
    rewrite (K Hc).
    destruct (chosen_vidName h v (mkFile (dotted base e) ty) rest s Hb Ht)
      as (N & _).
    rewrite N. cbn [name]. now apply filenameWithoutExt_dotted. }
  rewrite (downloadVideo_link h v s' blob m Hu); [now rewrite N| |assumption].
  now rewrite N.
Qed.

Lemma download_named_after_file_witness :
  let h := refHost 0 sampleNow false in
  let s' :=
    session h Revised
      [LoadedMetadata; ClickProcess (Return tt);
       HostEvent (DataAvailable sampleSegment); HostEvent Ended;
       HostEvent (Timeout 0)]
      (act h Revised
         (ChooseFiles [mkFile (dotted "2024-03-01_14-05-09-000" "mp4") "video/mp4"])
         idle) in
  downloadVideo h Revised s'
  = (let link :=
       mkAnchor (mkBlob [Byte.x1a; Byte.x45] "video/mp4; codecs=avc1")
                ("2024-03-01_14-05-09-000" ++ "_watermarked." ++ "mp4") "none" in
     [AppendChild link; Click link; RemoveChildAfter link 100], s').
Proof.
  intros h.
  refine (download_named_after_file h Revised idle "video/mp4"
            "2024-03-01_14-05-09-000" "mp4" []
            [LoadedMetadata; ClickProcess (Return tt);
             HostEvent (DataAvailable sampleSegment); HostEvent Ended;
             HostEvent (Timeout 0)]
            (mkBlob [Byte.x1a; Byte.x45] "video/mp4; codecs=avc1")
            (mkMime "mp4" (mkOpt "video/mp4; codecs=avc1" (Some 10000000)))
            eq_refl eq_refl eq_refl _ eq_refl _ _).
  - discriminate.
  - vm_compute. reflexivity.
  - vm_compute. reflexivity.
Defined.

(** A video file whose name has no dot can be processed but not
    downloaded: the name kept for the download is empty, and
    [downloadVideo] answers that there is nothing to download, even with
    the artifact published. *)
Theorem dotless_name_not_downloadable
        (h : Host) (v : Variant) (s : State) (ty e : string)
        (rest : list File) (acts : list Action) :
  isProcessing s = false ->
  JsString.startsWith "video/" ty = true ->
  JsString.lacks "." e = true ->
  noChoice acts = true ->
  let s' := session h v acts (act h v (ChooseFiles (mkFile e ty :: rest)) s) in
  downloadVideo h v s' = ([], displayError "没有可下载的视频" s').
Proof.
  intros Hb Ht He Hc s'.
  assert (N : vidName s' = "").
  { subst s'. destruct (session_keeps h v acts
                          (act h v (ChooseFiles (mkFile e ty :: rest)) s))
      as (_ & K).
    rewrite (K Hc).
    destruct (chosen_vidName h v (mkFile e ty) rest s Hb Ht) as (N & _).
    rewrite N. cbn [name]. now apply filenameWithoutExt_dotless. }
  unfold downloadVideo. rewrite N. now destruct (videoURL s').
Qed.

Lemma dotless_name_not_downloadable_witness :
  let h := refHost 0 sampleNow false in
  let s' :=
    session h AppTsx
      [LoadedMetadata; ClickProcess (Return tt);
       HostEvent (DataAvailable sampleSegment); HostEvent Ended;
       HostEvent (Timeout 1)]
      (act h AppTsx (ChooseFiles [mkFile "2024-03-01_14-05-09" "video/mp4"]) idle) in
  videoURL s' <> None
  /\ downloadVideo h AppTsx s' = ([], displayError "没有可下载的视频" s').
Proof.
  intros h s'. split; [vm_compute; discriminate|].
  exact (dotless_name_not_downloadable h AppTsx idle "video/mp4"
           "2024-03-01_14-05-09" []
           [LoadedMetadata; ClickProcess (Return tt);
            HostEvent (DataAvailable sampleSegment); HostEvent Ended;
            HostEvent (Timeout 1)] eq_refl eq_refl eq_refl eq_refl).
Defined.

(** Choosing another file after an artifact was published does not
    clear the artifact: the download then offers the earlier artifact
    under the new file's name, and the new file cannot be processed. *)
Theorem stale_artifact_under_new_name
        (h : Host) (v : Variant) (s : State) (old : Blob)
        (ty base e : string) (rest : list File) (m : MimeTypeSupport) :
  videoURL s = Some old ->
  isProcessing s = false ->
  JsString.startsWith "video/" ty = true ->
  JsString.lacks "." e = true ->
  base <> "" ->
  fst (checkMimeTypeSupport h v s) = Some m ->
  let s' := act h v (ChooseFiles (mkFile (dotted base e) ty :: rest)) s in
  file s' = Some (mkFile (dotted base e) ty)
  /\ downloadVideo h v s'
     = (let link := mkAnchor old (base ++ "_watermarked." ++ ext m) "none" in
        [AppendChild link; Click link; RemoveChildAfter link 100], s')
  /\ processButton (render v s') = None.
Proof.
  intros Hu Hb Ht He Hn Hm s'.
  destruct (chosen_vidName h v (mkFile (dotted base e) ty) rest s Hb Ht)
    as (N & U).
  fold s' in N, U. cbn [name] in N.
  rewrite (filenameWithoutExt_dotted base e He) in N. rewrite Hu in U.
  split; [|split].
  - subst s'. cbn [act render inputDisabled]. rewrite Hb.
    now destruct (handleFileUpload_accepted h (mkFile (dotted base e) ty) rest s Ht).
  - rewrite (downloadVideo_link h v s' old m U); [now rewrite N|now rewrite N|].
    now rewrite (checkMimeTypeSupport_fst h v s' s).
  - cbn [render processButton]. now rewrite U.
Qed.

Lemma stale_artifact_under_new_name_witness :
  let h := refHost 0 sampleNow false in
  let published :=
    run h AppTsx [DataAvailable sampleSegment; Ended; Timeout 0]
        (start h AppTsx (sampleReady h)) in
  let s' := act h AppTsx
              (ChooseFiles [mkFile (dotted "2024-03-02_08-00-00-000" "mp4")
                                   "video/mp4"]) published in
  file s' = Some (mkFile (dotted "2024-03-02_08-00-00-000" "mp4") "video/mp4")
  /\ downloadVideo h AppTsx s'
     = (let link :=
          mkAnchor (mkBlob [Byte.x1a; Byte.x45] "video/mp4")
                   ("2024-03-02_08-00-00-000" ++ "_watermarked."
                      ++ ext (mkMime "mp4" (mkOpt "video/mp4" (Some 10000000))))
                   "none" in
        [AppendChild link; Click link; RemoveChildAfter link 100], s')
  /\ processButton (render AppTsx s') = None.
Proof.
  intros h published.
  refine (stale_artifact_under_new_name h AppTsx published
            (mkBlob [Byte.x1a; Byte.x45] "video/mp4") "video/mp4"
            "2024-03-02_08-00-00-000" "mp4" []
            (mkMime "mp4" (mkOpt "video/mp4" (Some 10000000)))
            _ _ eq_refl eq_refl _ _).
  - vm_compute. reflexivity.
  - vm_compute. reflexivity.
  - discriminate.
  - vm_compute. reflexivity.
Defined.

(* ================================================================== *)
(** ** The first frame of a file that is not named by the convention *)

(** The first frame of a run is stamped with the start time, whatever
    was recorded or displayed before. *)
Lemma start_stamps (h : Host) (v : Variant) (s : State) :
  isProcessing s = false ->
  drawable s = true ->
  fst (checkMimeTypeSupport h v s) <> None ->
  overlayTexts (opsOf (start h v s))
  = (overlayTexts (opsOf s) ++ [currentTimeText h (videoStartTime s) 0])%list.
Proof.
  intros Hb Hd Hm.
  destruct (fst (checkMimeTypeSupport h v s)) as [m|] eqn:Em; [|congruence].
  unfold drawable in Hd.
  destruct (canvasRef s) as [canvas|] eqn:Hc; [|discriminate].
  destruct (videoRef s) as [video|] eqn:Hv; [|discriminate].
  rewrite (start_eq h v s m canvas video Hb Hc Hv Em).
  rewrite renderFrames_texts.
  - fields s. reflexivity.
  - unfold presentable. fields s. simpl in *. subst canvas0 video0. simpl.
    now rewrite Hd.
Qed.

Lemma handleFileUpload_fallback
      (h : Host) (f : File) (rest : list File) (message : string) (s : State) :
  JsString.startsWith "video/" (type f) = true ->
  parseTimeFromFilename_try h (name f) = Throw message ->
  videoStartTime (handleFileUpload h (f :: rest) s) = Date_now h
  /\ error (handleFileUpload h (f :: rest) s) = parseWarning message
  /\ showError (handleFileUpload h (f :: rest) s) = true.
Proof.
  intros Ht Hp. unfold handleFileUpload, parseTimeFromFilename.
  rewrite Ht, Hp. cbn [negb]. fields s. repeat split.
Qed.

Lemma handleMetadataLoaded_error (s : State) :
  error (handleMetadataLoaded s) = error s
  /\ showError (handleMetadataLoaded s) = showError s.
Proof.
  unfold handleMetadataLoaded. fields s. simpl.
  destruct video0, canvas0; split; reflexivity.
Qed.

(** When the name of a video file gives no start time, the warning is
    displayed and the clock reading at the time of choosing stands in: the
    first frame of the run is stamped with that reading. *)
Theorem first_frame_shows_clock
        (h : Host) (v : Variant) (f : File) (rest : list File)
        (message : string) (s : State) :
  JsString.startsWith "video/" (type f) = true ->
  parseTimeFromFilename_try h (name f) = Throw message ->
  Z.abs (Date_now h) <= Time.maxTime ->
  let loaded := s |> handleFileUpload h (f :: rest) |> handleMetadataLoaded in
  isProcessing loaded = false ->
  drawable loaded = true ->
  fst (checkMimeTypeSupport h v loaded) <> None ->
  (showError loaded = true /\ error loaded = parseWarning message)
  /\ overlayTexts (opsOf (start h v loaded))
     = (overlayTexts (opsOf loaded)
          ++ [Dayjs.format (LocalTZA h) (Some (Date_now h))])%list.
Proof.
  intros Ht Hp Hn loaded Hb Hd Hm.
  destruct (handleFileUpload_fallback h f rest message s Ht Hp) as (T & E & S).
  destruct (handleMetadataLoaded_error (handleFileUpload h (f :: rest) s))
    as (E' & S').
  split; [split; unfold loaded; congruence|].
  rewrite (start_stamps h v loaded Hb Hd Hm). do 2 f_equal.
  unfold loaded. rewrite handleMetadataLoaded_videoStartTime, T.
  rewrite (currentTimeText_ms h _ 0 0).
  - now rewrite Z.add_0_r.
  - apply (DoubleFacts.mul_integers 0 1000 0 1000); reflexivity.
  - now rewrite Z.add_0_r.
Qed.

Lemma first_frame_shows_clock_witness :
  let h := refHost 0 sampleNow false in
  let loaded :=
    idle |> handleFileUpload h [mkFile "clip.mp4" "video/mp4"]
         |> handleMetadataLoaded in
  (showError loaded = true
   /\ error loaded = parseWarning "文件名格式不正确")
  /\ overlayTexts (opsOf (start h AppTsx loaded))
     = (overlayTexts (opsOf loaded) ++ ["2023-11-14 22:13:20"])%list.
Proof.
  intros h loaded.
  refine (first_frame_shows_clock h AppTsx (mkFile "clip.mp4" "video/mp4") []
            "文件名格式不正确" idle eq_refl _ _ _ _ _).
  - vm_compute. reflexivity.
  - vm_compute. discriminate.
  - vm_compute. reflexivity.
  - vm_compute. reflexivity.
  - vm_compute. discriminate.
Defined.
